(** * NextNovel: the views of the [novels] application

    A shallow embedding of [backend/novels/views.py].  The relational
    store is a record of tables, each table a list of rows in insertion
    order; a view is a computation in a state-and-exception monad whose
    state survives an exception (Django runs in autocommit mode here: the
    [transaction] import of the module is never used), and the AI server
    is an oracle from requests to HTTP responses. *)

From Stdlib Require Import ZArith List String Ascii Bool Lia Permutation DecimalString.
Import ListNotations.

Set Warnings "-register-all".

Local Open Scope string_scope.
Local Open Scope list_scope.
Local Open Scope Z_scope.

(** ** JSON values and the Python operations the views apply to them *)

(** What [response.json()] and [json.loads] return.  Python's [None] is
    [JNull]; a [dict] keeps its items in order. *)
Inductive json : Type :=
  | JNull
  | JBool (b : bool)
  | JNum (n : Z)
  | JStr (s : string)
  | JArr (l : list json)
  | JObj (m : list (string * json)).

(** The exceptions that can leave a view. *)
Inductive exn : Type :=
  | RequestAIServerError
  | JSONDecodeError
  | KeyError
  | IndexError
  | TypeError
  | AttributeError
  | UnboundLocalError
  | DoesNotExist
  | MultipleObjectsReturned
  | Http404
  | ValidationError
  | PermissionDenied
  | NotAuthenticated.

Module Py.

Fixpoint lookup (k : string) (m : list (string * json)) : option json :=
  match m with
  | [] => None
  | (k', v) :: m' => if String.eqb k k' then Some v else lookup k m'
  end.

Fixpoint remove (k : string) (m : list (string * json)) : list (string * json) :=
  match m with
  | [] => []
  | (k', v) :: m' => if String.eqb k k' then remove k m' else (k', v) :: remove k m'
  end.

(** [d.get(k)]: [None] when the key is missing; only a dict has [get]. *)
Definition get (d : json) (k : string) : exn + json :=
  match d with
  | JObj m => inr (match lookup k m with Some v => v | None => JNull end)
  | _ => inl AttributeError
  end.

(** [d.pop(k)]: the value and the dict without the key.  [list.pop]
    wants an integer; the other JSON types have no [pop]. *)
Definition pop (d : json) (k : string) : exn + (json * json) :=
  match d with
  | JObj m =>
      match lookup k m with
      | Some v => inr (v, JObj (remove k m))
      | None => inl KeyError
      end
  | JArr _ => inl TypeError
  | _ => inl AttributeError
  end.

Fixpoint char_at (s : string) (i : nat) : option string :=
  match s, i with
  | EmptyString, _ => None
  | String c _, O => Some (String c EmptyString)
  | String _ s', S i' => char_at s' i'
  end.

(** [c[i]] for a natural number [i]. *)
Definition index (c : json) (i : nat) : exn + json :=
  match c with
  | JArr l => match nth_error l i with Some v => inr v | None => inl IndexError end
  | JStr s => match char_at s i with Some v => inr (JStr v) | None => inl IndexError end
  | JObj _ => inl KeyError
  | _ => inl TypeError
  end.

(** [name.split('/')[-1]] *)
Fixpoint last_component (s acc : string) : string :=
  match s with
  | EmptyString => acc
  | String c s' =>
      if Ascii.eqb c "/"%char then last_component s' EmptyString
      else last_component s' (String.append acc (String c EmptyString))
  end.

End Py.

(** ** The models the views use *)

Inductive Status : Type := DRAFT | FINISHED.

Definition Status_eqb (a b : Status) : bool :=
  match a, b with
  | DRAFT, DRAFT | FINISHED, FINISHED => true
  | _, _ => false
  end.

Record User : Type := mkUser {
  user_pk : Z;
  nickname : string;
  is_anonymous : bool }.

Record Novel : Type := mkNovel {
  novel_pk : Z;
  author : Z;
  title : string;
  genre : Z;
  status : Status;
  prompt : string;
  cover_img : option string;
  original_cover_img : option string }.

Record NovelContent : Type := mkNovelContent {
  content_pk : Z;
  content_novel : Z;
  step : Z;
  content : json;
  chosen_query : json;
  query1 : json;
  query2 : json;
  query3 : json }.

Record NovelContentImage : Type := mkNovelContentImage {
  image_pk : Z;
  image_content : Z;
  image : string;
  caption : json }.

Record NovelStats : Type := mkNovelStats {
  stats_novel : Z;
  hit_count : Z;
  like_count : Z;
  comment_count : Z }.

Record NovelLike : Type := mkNovelLike {
  like_pk : Z;
  like_novel : Z;
  like_user : Z }.

Record NovelComment : Type := mkNovelComment {
  comment_pk : Z;
  comment_novel : Z;
  comment_author : Z;
  comment_text : string }.

Record Store : Type := mkStore {
  novels : list Novel;
  contents : list NovelContent;
  images : list NovelContentImage;
  stats : list NovelStats;
  likes : list NovelLike;
  comments : list NovelComment }.

(** ** Requests to the AI server *)

Inductive endpoint : Type :=
  start_url | question_url | sequence_url | end_url | image_url.

Record AIRequest : Type := mkAIRequest {
  req_url : endpoint;
  req_files : list (string * string);
  req_data : list (string * string) }.

Record HttpResponse : Type := mkHttpResponse {
  status_code : Z;
  body : string }.

(** What a view hands back to the framework. *)
Record Response : Type := mkResponse {
  resp_status : Z;
  resp_data : json }.

Definition HTTP_200_OK : Z := 200.
Definition HTTP_201_CREATED : Z := 201.
Definition HTTP_204_NO_CONTENT : Z := 204.
Definition HTTP_408_REQUEST_TIMEOUT : Z := 408.
Definition HTTP_500_INTERNAL_SERVER_ERROR : Z := 500.

(** ** The monad of a view

    The world is the store and the log of the requests sent upstream. *)

Record World : Type := mkWorld {
  db : Store;
  sent : list AIRequest }.

Definition M (A : Type) : Type := World -> World * (exn + A).

Definition ret {A : Type} (a : A) : M A := fun w => (w, inr a).

Definition raise {A : Type} (e : exn) : M A := fun w => (w, inl e).

Definition bind {A B : Type} (m : M A) (f : A -> M B) : M B :=
  fun w =>
    match m w with
    | (w', inr a) => f a w'
    | (w', inl e) => (w', inl e)
    end.

Definition lift {A : Type} (r : exn + A) : M A :=
  match r with
  | inr a => ret a
  | inl e => raise e
  end.

Definition gets {A : Type} (f : Store -> A) : M A := fun w => (w, inr (f (db w))).

Definition modify (f : Store -> Store) : M unit :=
  fun w => (mkWorld (f (db w)) (sent w), inr tt).

Declare Scope view_scope.
Delimit Scope view_scope with view.
Notation "x <- c ;; k" := (bind c (fun x => k))
  (at level 61, c at next level, right associativity) : view_scope.
Notation "' p <- c ;; k" := (bind c (fun x => match x with p => k end))
  (at level 61, p pattern, c at next level, right associativity) : view_scope.
Notation "c ;;; k" := (bind c (fun _ => k))
  (at level 61, right associativity) : view_scope.
Local Open Scope view_scope.

(** ** The ORM *)

(** The key of a new row: one no row of the table has.  A database
    sequence gives a key above every key it has given; this is the
    least key above those of the table, the same key as long as the
    newest row of the table was not deleted. *)
Definition fresh_pk (keys : list Z) : Z := 1 + fold_right Z.max 0 keys.

(** [obj.save()]: UPDATE every column of the row with the key of [obj],
    INSERT when there is none. *)
Definition save_row {R : Type} (pk : R -> Z) (obj : R) (table : list R) : list R :=
  if existsb (fun r => pk r =? pk obj) table
  then map (fun r => if pk r =? pk obj then obj else r) table
  else table ++ [obj].

Definition with_novels (f : list Novel -> list Novel) (s : Store) : Store :=
  mkStore (f (novels s)) (contents s) (images s) (stats s) (likes s) (comments s).
Definition with_contents (f : list NovelContent -> list NovelContent) (s : Store) : Store :=
  mkStore (novels s) (f (contents s)) (images s) (stats s) (likes s) (comments s).
Definition with_images (f : list NovelContentImage -> list NovelContentImage) (s : Store) : Store :=
  mkStore (novels s) (contents s) (f (images s)) (stats s) (likes s) (comments s).
Definition with_stats (f : list NovelStats -> list NovelStats) (s : Store) : Store :=
  mkStore (novels s) (contents s) (images s) (f (stats s)) (likes s) (comments s).
Definition with_likes (f : list NovelLike -> list NovelLike) (s : Store) : Store :=
  mkStore (novels s) (contents s) (images s) (stats s) (f (likes s)) (comments s).
Definition with_comments (f : list NovelComment -> list NovelComment) (s : Store) : Store :=
  mkStore (novels s) (contents s) (images s) (stats s) (likes s) (f (comments s)).

Definition Novel_save (n : Novel) : M unit :=
  modify (with_novels (save_row novel_pk n)).

Definition NovelContent_save (c : NovelContent) : M unit :=
  modify (with_contents (save_row content_pk c)).

Definition NovelContentImage_save (i : NovelContentImage) : M unit :=
  modify (with_images (save_row image_pk i)).

(** [Novel.objects.get(pk=...)] *)
Definition Novel_objects_get (pk : Z) : M Novel :=
  n <- gets (fun s => find (fun n => novel_pk n =? pk) (novels s)) ;;
  match n with
  | Some n => ret n
  | None => raise DoesNotExist
  end.

(** [NovelContent.objects.create(step=step, novel=novel)]: the other
    columns are NULL. *)
Definition NovelContent_objects_create (step : Z) (novel : Novel) : M NovelContent :=
  pk <- gets (fun s => fresh_pk (map content_pk (contents s))) ;;
  let c := mkNovelContent pk (novel_pk novel) step JNull JNull JNull JNull JNull in
  modify (with_contents (fun t => t ++ [c])) ;;;
  ret c.

(** [NovelContent.objects.get(novel=novel, step=step)] *)
Definition NovelContent_objects_get (novel : Novel) (st : Z) : M NovelContent :=
  rows <- gets (fun s => filter (fun c => (content_novel c =? novel_pk novel) && (step c =? st))
                             (contents s)) ;;
  match rows with
  | [c] => ret c
  | [] => raise DoesNotExist
  | _ => raise MultipleObjectsReturned
  end.

(** [NovelContentImage.objects.bulk_update(objs, ["caption"])]: one UPDATE
    whose CASE takes, for each row, the first object with the row's key. *)
Definition bulk_update_caption (objs : list NovelContentImage) (r : NovelContentImage)
  : NovelContentImage :=
  match find (fun o => image_pk o =? image_pk r) objs with
  | Some o => mkNovelContentImage (image_pk r) (image_content r) (image r) (caption o)
  | None => r
  end.

Definition NovelContentImage_objects_bulk_update (objs : list NovelContentImage) : M unit :=
  modify (with_images (map (bulk_update_caption objs))).

(** [novel.novelstats.<field> = F(<field>) + d; novel.novelstats.save()]:
    the column is changed in the database, on the row of the novel. *)
Definition F_add (set : NovelStats -> Z -> NovelStats) (get : NovelStats -> Z)
    (novel : Novel) (d : Z) : M unit :=
  row <- gets (fun s => find (fun r => stats_novel r =? novel_pk novel) (stats s)) ;;
  match row with
  | None => raise DoesNotExist
  | Some _ =>
      modify (with_stats (map (fun r =>
        if stats_novel r =? novel_pk novel then set r (get r + d) else r)))
  end.

Definition set_hit_count (r : NovelStats) (v : Z) : NovelStats :=
  mkNovelStats (stats_novel r) v (like_count r) (comment_count r).
Definition set_like_count (r : NovelStats) (v : Z) : NovelStats :=
  mkNovelStats (stats_novel r) (hit_count r) v (comment_count r).
Definition set_comment_count (r : NovelStats) (v : Z) : NovelStats :=
  mkNovelStats (stats_novel r) (hit_count r) (like_count r) v.

Definition set_prompt (n : Novel) (p : string) : Novel :=
  mkNovel (novel_pk n) (author n) (title n) (genre n) (status n) p
          (cover_img n) (original_cover_img n).
Definition set_status (n : Novel) (s : Status) : Novel :=
  mkNovel (novel_pk n) (author n) (title n) (genre n) s (prompt n)
          (cover_img n) (original_cover_img n).
Definition set_cover_img (n : Novel) (f : string) : Novel :=
  mkNovel (novel_pk n) (author n) (title n) (genre n) (status n) (prompt n)
          (Some f) (original_cover_img n).
Definition set_original_cover_img (n : Novel) (f : string) : Novel :=
  mkNovel (novel_pk n) (author n) (title n) (genre n) (status n) (prompt n)
          (cover_img n) (Some f).

Definition set_content (c : NovelContent) (v : json) : NovelContent :=
  mkNovelContent (content_pk c) (content_novel c) (step c) v (chosen_query c)
                 (query1 c) (query2 c) (query3 c).
Definition set_chosen_query (c : NovelContent) (v : json) : NovelContent :=
  mkNovelContent (content_pk c) (content_novel c) (step c) (content c) v
                 (query1 c) (query2 c) (query3 c).
Definition set_queries (c : NovelContent) (q1 q2 q3 : json) : NovelContent :=
  mkNovelContent (content_pk c) (content_novel c) (step c) (content c) (chosen_query c)
                 q1 q2 q3.
Definition set_caption (i : NovelContentImage) (v : json) : NovelContentImage :=
  mkNovelContentImage (image_pk i) (image_content i) (image i) v.

(** ** The requests of the workflow views *)

Record StartRequest : Type := mkStartRequest {
  start_user : User;
  start_genre : string;
  start_images : list string }.

Record ContinueRequest : Type := mkContinueRequest {
  continue_novel_id : Z;
  continue_step : Z;
  continue_query : string;
  continue_image : string }.

Record EndRequest : Type := mkEndRequest {
  end_novel_id : Z;
  end_step : Z }.

Section Views.

(** [nextnovel.settings.DEV == 'TRUE'] and [os.environ.get("DEMO") == 'TRUE'] *)
Variable DEV : bool.
Variable DEMO : bool.

(** [json.dumps(v)], [json.dumps(v, ensure_ascii=False).encode('utf-8')]
    and [json.loads(s)] ([None] for a [JSONDecodeError]) *)
Variable dumps : json -> string.
Variable dumps_utf8 : json -> string.
Variable loads : string -> option json.

(** The AI server: what [requests.post] answers to a request. *)
Variable post : AIRequest -> HttpResponse.

(** [image.image.url] of a stored file *)
Variable storage_url : string -> string.

(** How [NovelStartSerializer] reads the [genre] field of the form. *)
Variable genre_of_form : string -> option Z.

Definition requests_post (r : AIRequest) : M HttpResponse :=
  fun w => (mkWorld (db w) (sent w ++ [r]), inr (post r)).

(** [response.json()] *)
Definition response_json (response : HttpResponse) : M json :=
  match loads (body response) with
  | Some v => ret v
  | None => raise JSONDecodeError
  end.

Definition question_request (dialog_history : json) : AIRequest :=
  mkAIRequest question_url [] [("dialog_history", dumps dialog_history)].

Definition retrieve_question_from_ai_json (dialog_history : json) : M json :=
  response <- requests_post (question_request dialog_history) ;;
  if negb (status_code response =? 200) then raise RequestAIServerError
  else response_json response.

Definition novel_content_with_query (response : json) (novel_content : NovelContent)
  : M NovelContent :=
  q1 <- lift (Py.get response "query1") ;;
  q2 <- lift (Py.get response "query2") ;;
  q3 <- lift (Py.get response "query3") ;;
  ret (set_queries novel_content q1 q2 q3).

Definition get_next_novel_content (novel_content : NovelContent) (novel : Novel)
  : M NovelContent :=
  NovelContent_objects_create (step novel_content + 1) novel.

(** *** Start *)

Fixpoint create_images (content : Z) (files : list string) : M (list NovelContentImage) :=
  match files with
  | [] => ret []
  | f :: fs =>
      pk <- gets (fun s => fresh_pk (map image_pk (images s))) ;;
      let i := mkNovelContentImage pk content f JNull in
      modify (with_images (fun t => t ++ [i])) ;;;
      rest <- create_images content fs ;;
      ret (i :: rest)
  end.

(** Modelled from the spec: [NovelStartSerializer] ([novels/serializers.py]
    is not among the sources).  "Validates input via schema rules (exact
    required fields; image count >= 1). Persists Novel(DRAFT) and
    NovelContent(step=1) with images attached."; the stats row has the
    lifecycle of its novel. *)
Definition NovelStartSerializer_save (request : StartRequest)
  : M (Novel * NovelContent * list NovelContentImage) :=
  match genre_of_form (start_genre request), start_images request with
  | Some g, _ :: _ =>
      pk <- gets (fun s => fresh_pk (map novel_pk (novels s))) ;;
      let novel := mkNovel pk (user_pk (start_user request)) EmptyString g DRAFT EmptyString None None in
      modify (with_novels (fun t => t ++ [novel])) ;;;
      modify (with_stats (fun t => t ++ [mkNovelStats pk 0 0 0])) ;;;
      novel_content <- NovelContent_objects_create 1 novel ;;
      imgs <- create_images (content_pk novel_content) (start_images request) ;;
      ret (novel, novel_content, imgs)
  | _, _ => raise ValidationError
  end.

(** [for i in range(len(images)): images[i].caption = caption[i]] *)
Fixpoint assign_captions (cap : json) (i : nat) (imgs : list NovelContentImage)
  : exn + list NovelContentImage :=
  match imgs with
  | [] => inr []
  | img :: rest =>
      match Py.index cap i with
      | inl e => inl e
      | inr c =>
          match assign_captions cap (S i) rest with
          | inl e => inl e
          | inr rest' => inr (set_caption img c :: rest')
          end
      end
  end.

Definition genre_dict : list (Z * string) :=
  [(1, "로맨스"); (4, "SF"); (2, "판타지"); (3, "추리"); (5, "자유")].

Definition genre_dict_get (g : Z) : json :=
  match find (fun kv => fst kv =? g) genre_dict with
  | Some kv => JStr (snd kv)
  | None => JNull
  end.

Definition start_request (request : StartRequest) (imgs : list NovelContentImage)
  : AIRequest :=
  mkAIRequest start_url
    (map (fun img => ("images", Py.last_component (image img) EmptyString)) imgs)
    [("genre", start_genre request)].

Definition material (img : NovelContentImage) : json :=
  JObj [("image", JStr (storage_url (image img))); ("caption", caption img)].

(** With [DEV] set no call is made and [response_json] is unbound at
    its first use, before any write of the view itself. *)
Definition NovelStartAPI_post (request : StartRequest) : M Response :=
  if DEMO && negb (String.eqb (nickname (start_user request)) "DEMO용")
  then ret (mkResponse HTTP_500_INTERNAL_SERVER_ERROR (JObj []))
  else
    '(novel, novel_content, imgs) <- NovelStartSerializer_save request ;;
    if DEV then raise UnboundLocalError
    else
      response <- requests_post (start_request request imgs) ;;
      if negb (status_code response =? 200) then raise RequestAIServerError
      else
        rj <- response_json response ;;
        '(story, rj) <- lift (Py.pop rj "korean_answer") ;;
        '(dialog_history, rj) <- lift (Py.pop rj "dialog_history") ;;
        response2_json <- retrieve_question_from_ai_json dialog_history ;;
        '(cap, rj) <- lift (Py.pop rj "caption") ;;
        imgs <- lift (assign_captions cap 0 imgs) ;;
        NovelContentImage_objects_bulk_update imgs ;;;
        let novel_content := set_content novel_content story in
        NovelContent_save novel_content ;;;
        next_novel_content <- get_next_novel_content novel_content novel ;;
        next_novel_content <- novel_content_with_query response2_json next_novel_content ;;
        NovelContent_save next_novel_content ;;;
        let novel := set_prompt novel (dumps response2_json) in
        Novel_save novel ;;;
        ret (mkResponse HTTP_200_OK
               (JObj [("id", JNum (novel_pk novel));
                      ("step", JNum 1);
                      ("story", story);
                      ("materials", JArr (map material imgs));
                      ("genre", genre_dict_get (genre novel))])).

(** *** Continue *)

Definition is_null (v : json) : bool :=
  match v with JNull => true | _ => false end.

(** Modelled from the spec: [NovelContinueSerializer] ([novels/serializers.py]
    is not among the sources).  "input = novel id, target step, the user's
    chosen query [...] and exactly one new image. Validates that the
    step exists and is awaiting a continuation": the step has no content
    yet; the image is attached to it. *)
Definition NovelContinueSerializer_save (request : ContinueRequest)
  : M (Novel * NovelContent * NovelContentImage * json) :=
  novel <- gets (fun s => find (fun n => novel_pk n =? continue_novel_id request) (novels s)) ;;
  match novel with
  | None => raise ValidationError
  | Some novel =>
      row <- gets (fun s => find (fun c => (content_novel c =? novel_pk novel)
                                       && (step c =? continue_step request))
                              (contents s)) ;;
      match row with
      | None => raise ValidationError
      | Some novel_content =>
          if negb (is_null (content novel_content)) then raise ValidationError
          else
            pk <- gets (fun s => fresh_pk (map image_pk (images s))) ;;
            let img := mkNovelContentImage pk (content_pk novel_content)
                                           (continue_image request) JNull in
            modify (with_images (fun t => t ++ [img])) ;;;
            ret (novel, novel_content, img, JStr (continue_query request))
      end
  end.

Definition sequence_request (img : NovelContentImage) (selected_query : json)
    (dialog_history : json) : AIRequest :=
  mkAIRequest sequence_url
    [("image", Py.last_component (image img) EmptyString)]
    [("previous_question", dumps_utf8 selected_query);
     ("dialog_history", dumps dialog_history)].

Definition NovelContinueAPI_post (request : ContinueRequest) : M Response :=
  '(novel, novel_content, img, selected_query) <- NovelContinueSerializer_save request ;;
  if DEV then raise UnboundLocalError
  else
    match loads (prompt novel) with
    | None => raise JSONDecodeError
    | Some dialog_history =>
        dh <- lift (Py.get dialog_history "dialog_history") ;;
        response <- requests_post (sequence_request img selected_query dh) ;;
        if negb (status_code response =? 200)
        then ret (mkResponse HTTP_408_REQUEST_TIMEOUT (JObj []))
        else
          rj <- response_json response ;;
          '(cap, rj) <- lift (Py.pop rj "caption") ;;
          '(story, rj) <- lift (Py.pop rj "korean_answer") ;;
          '(dialog_history, rj) <- lift (Py.pop rj "dialog_history") ;;
          response2_json <- retrieve_question_from_ai_json dialog_history ;;
          let img := set_caption img cap in
          NovelContentImage_save img ;;;
          let dialog := dumps response2_json in
          let novel := set_prompt novel dialog in
          Novel_save novel ;;;
          let novel_content :=
            set_chosen_query (set_content novel_content story) selected_query in
          NovelContent_save novel_content ;;;
          next_novel_content <- get_next_novel_content novel_content novel ;;
          next_novel_content <- novel_content_with_query response2_json next_novel_content ;;
          NovelContent_save next_novel_content ;;;
          ret (mkResponse HTTP_200_OK
                 (JObj [("id", JNum (novel_pk novel));
                        ("newMaterial",
                         JObj [("image", JStr (storage_url (image img)));
                               ("caption", cap)]);
                        ("step", JNum (step novel_content));
                        ("story", story)]))
    end.

(** *** End *)

(** Modelled from the spec: [NovelEndSerializer] ([novels/serializers.py]
    is not among the sources).  "input = novel id, step": the validated
    [novel_id] is the novel itself. *)
Definition NovelEndSerializer_validate (request : EndRequest) : M (Novel * Z) :=
  novel <- gets (fun s => find (fun n => novel_pk n =? end_novel_id request) (novels s)) ;;
  match novel with
  | None => raise ValidationError
  | Some novel => ret (novel, end_step request)
  end.

Definition end_request (dialog_history : json) : AIRequest :=
  mkAIRequest end_url [] [("dialog_history", dumps dialog_history)].

(** [response.json()] comes before the test of the status code; with
    [DEV] set, [response_json] is unbound after [novel.save()]. *)
Definition NovelEndAPI_post (request : EndRequest) : M Response :=
  '(novel, st) <- NovelEndSerializer_validate request ;;
  novel_content <- NovelContent_objects_get novel st ;;
  match loads (prompt novel) with
  | None => raise JSONDecodeError
  | Some dialog_history =>
      dh <- lift (Py.get dialog_history "dialog_history") ;;
      rj <- (if DEV then ret None
             else
               response <- requests_post (end_request dh) ;;
               rj <- response_json response ;;
               if negb (status_code response =? 200) then raise RequestAIServerError
               else ret (Some rj)) ;;
      let novel := set_prompt novel (dumps dialog_history) in
      Novel_save novel ;;;
      match rj with
      | None => raise UnboundLocalError
      | Some rj =>
          answer <- lift (Py.get rj "korean_answer") ;;
          let novel_content := set_content novel_content answer in
          NovelContent_save novel_content ;;;
          ret (mkResponse HTTP_200_OK
                 (JObj [("id", JNum (novel_pk novel));
                        ("story", content novel_content)]))
      end
  end.

End Views.

(** ** The read side *)

(** [queryset.order_by(key)], as a stable insertion sort *)
Fixpoint insert_by {R : Type} (key : R -> Z) (x : R) (l : list R) : list R :=
  match l with
  | [] => [x]
  | y :: l' => if key x <=? key y then x :: l else y :: insert_by key x l'
  end.

Definition order_by {R : Type} (key : R -> Z) (l : list R) : list R :=
  fold_right (insert_by key) [] l.

Definition is_finished (n : Novel) : bool := Status_eqb (status n) FINISHED.

(** [NovelRecAPI]: [order_by('?')] is whatever order [shuffle] gives. *)
Definition NovelRecAPI_queryset (s : Store) : list Novel :=
  filter is_finished (novels s).

Definition NovelRecAPI_get_queryset (shuffle : list Novel -> list Novel) (s : Store)
  : list Novel :=
  firstn 5 (shuffle (NovelRecAPI_queryset s)).

(** [get_object_or_404(queryset, pk=pk)] *)
Definition get_object_or_404 (queryset : list Novel) (pk : Z) : M Novel :=
  match find (fun n => novel_pk n =? pk) queryset with
  | Some n => ret n
  | None => raise Http404
  end.

Definition NovelPreviewAPI_get_queryset (s : Store) : list Novel :=
  filter is_finished (novels s).

Definition NovelPreviewAPI_retrieve (novel_id : Z) : M Novel :=
  qs <- gets NovelPreviewAPI_get_queryset ;;
  get_object_or_404 qs novel_id.

Definition novel_hit (novel : Novel) (user : User) : M unit :=
  if is_anonymous user then ret tt
  else F_add set_hit_count hit_count novel 1.

Definition NovelDetailAPI_queryset (s : Store) : list Novel := novels s.

(** The step of a novel with its images ([prefetch_related]). *)
Definition with_images_of (s : Store) (c : NovelContent)
  : NovelContent * list NovelContentImage :=
  (c, filter (fun i => image_content i =? content_pk c) (images s)).

Definition NovelDetailAPI_retrieve (user : User) (novel_id : Z)
  : M (Novel * list (NovelContent * list NovelContentImage)) :=
  qs <- gets NovelDetailAPI_queryset ;;
  instance <- get_object_or_404 qs novel_id ;;
  novel_content <- gets (fun s =>
    map (with_images_of s)
        (order_by step (filter (fun c => content_novel c =? novel_pk instance) (contents s)))) ;;
  novel_hit instance user ;;;
  ret (instance, novel_content).

(** Modelled from the spec: [IsOwnerOrReadOnly] ([nextnovel/permissions.py] is
    not among the sources), on a method that writes: "requires the caller
    to be the novel's author". *)
Definition check_owner (owner : Z) (user : User) : M unit :=
  if negb (is_anonymous user) && (owner =? user_pk user) then ret tt
  else raise PermissionDenied.

(** [instance.delete()] on a novel, with the rows that belong to it. *)
Definition delete_novel (pk : Z) (s : Store) : Store :=
  let gone := map content_pk (filter (fun c => content_novel c =? pk) (contents s)) in
  mkStore (filter (fun n => negb (novel_pk n =? pk)) (novels s))
          (filter (fun c => negb (content_novel c =? pk)) (contents s))
          (filter (fun i => negb (existsb (Z.eqb (image_content i)) gone)) (images s))
          (filter (fun r => negb (stats_novel r =? pk)) (stats s))
          (filter (fun l => negb (like_novel l =? pk)) (likes s))
          (filter (fun c => negb (comment_novel c =? pk)) (comments s)).

Definition NovelDetailAPI_destroy (user : User) (novel_id : Z) : M Response :=
  qs <- gets NovelDetailAPI_queryset ;;
  instance <- get_object_or_404 qs novel_id ;;
  check_owner (author instance) user ;;;
  modify (delete_novel (novel_pk instance)) ;;;
  ret (mkResponse HTTP_204_NO_CONTENT JNull).

Section Listing.

(** [Genre.get_value_from_label] ([novels/models.py] is not among the
    sources) *)
Variable get_value_from_label : string -> option Z.

Definition NovelListAPI_get_queryset (genre_param : option string) (s : Store)
  : list Novel :=
  let queryset := filter is_finished (novels s) in
  match genre_param with
  | Some label =>
      match get_value_from_label label with
      | Some genre_value => filter (fun n => genre n =? genre_value) queryset
      | None => queryset
      end
  | None => queryset
  end.

(** [NovelListPagination]: [ordering = "-id"], [page_size = 1000].
    [search] is the WHERE clause of [SearchFilter]. *)
Definition page_size : nat := 1000.

(** A cursor as [CursorPagination] decodes it from the request: the rows
    to skip, the direction, and the id the page starts after. *)
Record Cursor : Type := mkCursor {
  cursor_offset : nat;
  cursor_reverse : bool;
  cursor_position : option Z }.

Definition first_page : Cursor := mkCursor 0 false None.

(** [CursorPagination.paginate_queryset] on the ordering [-id]: the rows
    by decreasing id (by increasing id for a reverse cursor), those past
    the position ([id__lt], and [id__gt] for a reverse cursor), without
    the first [offset] of them, cut to a page; a reverse page is given
    back flipped, by decreasing id. *)
Definition NovelListAPI_list (genre_param : option string) (search : Novel -> bool)
    (cursor : option Cursor) (s : Store) : list Novel :=
  let c := match cursor with Some c => c | None => first_page end in
  let queryset := filter search (NovelListAPI_get_queryset genre_param s) in
  let ordered := if cursor_reverse c then order_by novel_pk queryset
                 else order_by (fun n => - novel_pk n) queryset in
  let past := match cursor_position c with
              | Some position =>
                  filter (fun n => if cursor_reverse c then position <? novel_pk n
                                   else novel_pk n <? position) ordered
              | None => ordered
              end in
  let page := firstn page_size (skipn (cursor_offset c) past) in
  if cursor_reverse c then rev page else page.

End Listing.

(** ** Likes and comments *)

Record LikeRequest : Type := mkLikeRequest {
  like_novel_id : Z;
  like_request_user : User;
  like_is_valid : bool;
  like_serializer_data : json }.

Definition is_like_of (novel : Novel) (user : User) (l : NovelLike) : bool :=
  (like_novel l =? novel_pk novel) && (like_user l =? user_pk user).

Definition NovelLikeAPI_get_novel (request : LikeRequest) : M Novel :=
  Novel_objects_get (like_novel_id request).

(** The value returned is [True] on the branch that deletes.  The view
    names no permission class: for a caller who is not signed in,
    [filter(novel=novel, user=AnonymousUser)] raises [TypeError], after
    the novel was looked up and before any write. *)
Definition NovelLikeAPI_perform_create (request : LikeRequest) : M bool :=
  novel <- NovelLikeAPI_get_novel request ;;
  if is_anonymous (like_request_user request) then raise TypeError
  else
  obj <- gets (fun s => filter (is_like_of novel (like_request_user request)) (likes s)) ;;
  match obj with
  | _ :: _ =>
      modify (with_likes (filter (fun l => negb (is_like_of novel (like_request_user request) l)))) ;;;
      F_add set_like_count like_count novel (-1) ;;;
      ret true
  | [] =>
      pk <- gets (fun s => fresh_pk (map like_pk (likes s))) ;;
      modify (with_likes (fun t =>
        t ++ [mkNovelLike pk (novel_pk novel) (user_pk (like_request_user request))])) ;;;
      F_add set_like_count like_count novel 1 ;;;
      ret false
  end.

Definition NovelLikeAPI_create (request : LikeRequest) : M Response :=
  if negb (like_is_valid request) then raise ValidationError
  else
    is_created <- NovelLikeAPI_perform_create request ;;
    if is_created
    then ret (mkResponse HTTP_201_CREATED (like_serializer_data request))
    else ret (mkResponse HTTP_204_NO_CONTENT (JObj [])).

Record CommentRequest : Type := mkCommentRequest {
  comment_novel_id : Z;
  comment_request_user : User;
  comment_is_valid : bool;
  comment_content : string;
  comment_serializer_data : json }.

Definition NovelCommentAPI_perform_create (request : CommentRequest) : M unit :=
  novel <- Novel_objects_get (comment_novel_id request) ;;
  F_add set_comment_count comment_count novel 1 ;;;
  pk <- gets (fun s => fresh_pk (map comment_pk (comments s))) ;;
  modify (with_comments (fun t =>
    t ++ [mkNovelComment pk (novel_pk novel) (user_pk (comment_request_user request))
                         (comment_content request)])).

(** [permission_classes = [IsAuthenticatedOrReadOnly]]: the POST of a
    caller who is not signed in is refused before the serializer runs.
    The answer carries [serializer.data], which the request record
    holds as the serializer ([novels/serializers.py], not among the
    sources) gives it. *)
Definition NovelCommentAPI_create (request : CommentRequest) : M Response :=
  if is_anonymous (comment_request_user request) then raise NotAuthenticated
  else if negb (comment_is_valid request) then raise ValidationError
  else
    NovelCommentAPI_perform_create request ;;;
    ret (mkResponse HTTP_201_CREATED (comment_serializer_data request)).

Definition NovelCommentAPI_get_queryset (novel_id : Z) : M (list NovelComment) :=
  novel <- Novel_objects_get novel_id ;;
  gets (fun s => order_by (fun c => - comment_pk c)
                   (filter (fun c => comment_novel c =? novel_pk novel) (comments s))).

(** [permission_classes = [IsAuthenticated, IsOwnerOrReadOnly]]: a
    caller who is not signed in is refused before the comment is looked
    up. *)
Definition NovelCommentDeleteAPI_destroy (user : User) (comment_id : Z) : M Response :=
  if is_anonymous user then raise NotAuthenticated
  else
  row <- gets (fun s => find (fun c => comment_pk c =? comment_id) (comments s)) ;;
  match row with
  | None => raise Http404
  | Some instance =>
      check_owner (comment_author instance) user ;;;
      modify (with_comments (filter (fun c => negb (comment_pk c =? comment_pk instance)))) ;;;
      novel <- Novel_objects_get (comment_novel instance) ;;
      F_add set_comment_count comment_count novel (-1) ;;;
      ret (mkResponse HTTP_204_NO_CONTENT JNull)
  end.

(** ** Cover image, questions, completion *)

(** A cover request, with what the code outside [views.py] gives for
    it: the name under which the storage keeps a file saved under a
    given name, for each of the two file fields ([FieldFile.save] stores
    the name that the storage returns, by [upload_to] of
    [novels/models.py] and the storage of the settings), and the data
    of [NovelImageSerializer] ([novels/serializers.py]) for a novel. *)
Record CoverImageRequest : Type := mkCoverImageRequest {
  cover_novel_id : Z;
  cover_image : string;
  cover_img_stored : string -> string;
  original_cover_img_stored : string -> string;
  cover_serializer_data : Novel -> json }.

Record CompleteRequest : Type := mkCompleteRequest {
  complete_novel_id : Z;
  complete_user : User }.

Section Cover.

Variable post : AIRequest -> HttpResponse.

(** The name of the stylized cover, [f"novel_cover_{novel.id}.png"]. *)
Variable cover_file_name : Z -> string.

(** Modelled from the spec: [NovelCoverImageSerializer]
    ([novels/serializers.py] is not among the sources), "(novel id,
    image)": the validated [novel_id] is the novel itself, and a request
    for no novel of the store is refused.  The rest is the view:
    [FieldFile.save] stores the file, puts on the field the name that
    the storage gives and saves the instance; the answer carries the
    data of [NovelImageSerializer] for the novel as saved. *)
Definition NovelCoverImageAPI_post (request : CoverImageRequest) : M Response :=
  novel <- gets (fun s => find (fun n => novel_pk n =? cover_novel_id request) (novels s)) ;;
  match novel with
  | None => raise ValidationError
  | Some novel =>
      response <- requests_post post
        (mkAIRequest image_url [("image", cover_image request)] []) ;;
      if negb (status_code response =? 200) then raise RequestAIServerError
      else
        let file_name := cover_file_name (novel_pk novel) in
        let novel := set_cover_img novel (cover_img_stored request file_name) in
        Novel_save novel ;;;
        let novel :=
          set_original_cover_img novel (original_cover_img_stored request "original.png") in
        Novel_save novel ;;;
        Novel_save novel ;;;
        ret (mkResponse HTTP_200_OK (cover_serializer_data request novel))
  end.

End Cover.

Definition NovelQuestionAPI_get_object (novel_id st : Z) : M NovelContent :=
  rows <- gets (fun s => filter (fun c => (content_novel c =? novel_id) && (step c =? st))
                           (contents s)) ;;
  match rows with
  | [c] => ret c
  | [] => raise DoesNotExist
  | _ => raise MultipleObjectsReturned
  end.

Definition NovelQuestionAPI_retrieve (novel_id st : Z) : M Response :=
  instance <- NovelQuestionAPI_get_object novel_id st ;;
  ret (mkResponse HTTP_200_OK
         (JObj [("queries",
                 JArr [JObj [("index", JNum 1); ("query", query1 instance)];
                       JObj [("index", JNum 2); ("query", query2 instance)];
                       JObj [("index", JNum 3); ("query", query3 instance)]])])).

(** Modelled from the spec: [NovelCompleteSerializer] ([novels/serializers.py]
    is not among the sources) accepts the request and [save] writes its
    keyword argument: "input = novel id; requires the caller to be the
    novel's author; sets status=FINISHED unconditionally". *)
Definition NovelCompleteAPI_post (request : CompleteRequest) : M Response :=
  qs <- gets novels ;;
  novel <- get_object_or_404 qs (complete_novel_id request) ;;
  check_owner (author novel) (complete_user request) ;;;
  let novel := set_status novel FINISHED in
  Novel_save novel ;;;
  ret (mkResponse HTTP_200_OK (JObj [("id", JNum (novel_pk novel))])).

(** ** A JSON codec

    Python's [json] module on the fragment the AI server speaks: null,
    booleans, integers, strings of one-byte characters, lists and dicts.
    The views are parametric in the codec; this one runs them. *)

Module Json.

Local Open Scope char_scope.

Definition hex_digit (n : nat) : ascii :=
  ascii_of_nat (if Nat.ltb n 10 then 48 + n else 87 + n).

Definition escape (c : ascii) : string :=
  match c with
  | "034" => String "\" (String "034" EmptyString)
  | "\" => String "\" (String "\" EmptyString)
  | "010" => String "\" (String "n" EmptyString)
  | "013" => String "\" (String "r" EmptyString)
  | "009" => String "\" (String "t" EmptyString)
  | _ =>
      let n := nat_of_ascii c in
      if Nat.ltb n 32 || Nat.leb 127 n then
        String "\" (String "u" (String "0" (String "0"
          (String (hex_digit (Nat.div n 16)) (String (hex_digit (Nat.modulo n 16)) EmptyString)))))
      else String c EmptyString
  end.

Fixpoint escape_string (s : string) : string :=
  match s with
  | EmptyString => EmptyString
  | String c s' => String.append (escape c) (escape_string s')
  end.

Definition quote (s : string) : string :=
  String "034" (String.append (escape_string s) (String "034" EmptyString)).

Definition string_of_Z (n : Z) : string := NilZero.string_of_int (Z.to_int n).

(** [json.dumps(v)] *)
Fixpoint dumps (v : json) : string :=
  match v with
  | JNull => "null"%string
  | JBool true => "true"%string
  | JBool false => "false"%string
  | JNum n => string_of_Z n
  | JStr s => quote s
  | JArr l =>
      String.append "["
        (String.append (String.concat ", " (map dumps l)) "]")
  | JObj m =>
      String.append "{"
        (String.append
           (String.concat ", "
              (map (fun kv => String.append (quote (fst kv))
                                (String.append ": " (dumps (snd kv)))) m))
           "}")
  end.

Definition is_ws (c : ascii) : bool :=
  match c with
  | " " | "009" | "010" | "013" => true
  | _ => false
  end.

Fixpoint skip_ws (s : string) : string :=
  match s with
  | String c s' => if is_ws c then skip_ws s' else s
  | EmptyString => s
  end.

Definition hex_value (c : ascii) : option nat :=
  let n := nat_of_ascii c in
  if Nat.leb 48 n && Nat.leb n 57 then Some (n - 48)%nat
  else if Nat.leb 97 n && Nat.leb n 102 then Some (n - 87)%nat
  else if Nat.leb 65 n && Nat.leb n 70 then Some (n - 55)%nat
  else None.

(** The characters of a string literal, after its opening quote. *)
Fixpoint parse_chars (s acc : string) : option (string * string) :=
  match s with
  | EmptyString => None
  | String "034" s' => Some (acc, s')
  | String "\" (String "034" s') => parse_chars s' (String.append acc (String "034" EmptyString))
  | String "\" (String "\" s') => parse_chars s' (String.append acc (String "\" EmptyString))
  | String "\" (String "/" s') => parse_chars s' (String.append acc (String "/" EmptyString))
  | String "\" (String "n" s') => parse_chars s' (String.append acc (String "010" EmptyString))
  | String "\" (String "r" s') => parse_chars s' (String.append acc (String "013" EmptyString))
  | String "\" (String "t" s') => parse_chars s' (String.append acc (String "009" EmptyString))
  | String "\" (String "u" (String "0" (String "0" (String h (String l s'))))) =>
      match hex_value h, hex_value l with
      | Some a, Some b =>
          parse_chars s' (String.append acc (String (ascii_of_nat (16 * a + b)) EmptyString))
      | _, _ => None
      end
  | String "\" _ => None
  | String c s' =>
      if Nat.ltb (nat_of_ascii c) 32 then None
      else parse_chars s' (String.append acc (String c EmptyString))
  end.

Definition is_digit (c : ascii) : bool :=
  let n := nat_of_ascii c in Nat.leb 48 n && Nat.leb n 57.

Fixpoint span_digits (s acc : string) : string * string :=
  match s with
  | String c s' =>
      if is_digit c then span_digits s' (String.append acc (String c EmptyString))
      else (acc, s)
  | EmptyString => (acc, s)
  end.

Definition parse_number (s : string) : option (json * string) :=
  let '(sign, s1) := match s with
                     | String "-" s' => (String "-" EmptyString, s')
                     | _ => (EmptyString, s)
                     end in
  let '(digits, rest) := span_digits s1 EmptyString in
  match digits with
  | EmptyString => None
  | String "0" (String _ _) => None
  | _ =>
      match NilZero.int_of_string (String.append sign digits) with
      | Some n => Some (JNum (Z.of_int n), rest)
      | None => None
      end
  end.

Fixpoint strip_prefix (p s : string) : option string :=
  match p, s with
  | EmptyString, _ => Some s
  | String a p', String b s' => if Ascii.eqb a b then strip_prefix p' s' else None
  | String _ _, EmptyString => None
  end.

(** A later item of a dict replaces an earlier one with its key. *)
Fixpoint dict_set (k : string) (v : json) (m : list (string * json))
  : list (string * json) :=
  match m with
  | [] => [(k, v)]
  | (k', v') :: m' =>
      if String.eqb k k' then (k, v) :: m' else (k', v') :: dict_set k v m'
  end.

Fixpoint parse_value (fuel : nat) (s : string) : option (json * string) :=
  match fuel with
  | O => None
  | S fuel' =>
      match skip_ws s with
      | String "[" r =>
          match skip_ws r with
          | String "]" r' => Some (JArr [], r')
          | _ => parse_array fuel' r []
          end
      | String "{" r =>
          match skip_ws r with
          | String "}" r' => Some (JObj [], r')
          | _ => parse_object fuel' r []
          end
      | String "034" r =>
          match parse_chars r EmptyString with
          | Some (str, r') => Some (JStr str, r')
          | None => None
          end
      | String "n" _ as t =>
          match strip_prefix "null" t with Some r => Some (JNull, r) | None => None end
      | String "t" _ as t =>
          match strip_prefix "true" t with Some r => Some (JBool true, r) | None => None end
      | String "f" _ as t =>
          match strip_prefix "false" t with Some r => Some (JBool false, r) | None => None end
      | t => parse_number t
      end
  end
with parse_array (fuel : nat) (s : string) (acc : list json) : option (json * string) :=
  match fuel with
  | O => None
  | S fuel' =>
      match parse_value fuel' s with
      | Some (v, r) =>
          match skip_ws r with
          | String "," r' => parse_array fuel' r' (acc ++ [v])
          | String "]" r' => Some (JArr (acc ++ [v]), r')
          | _ => None
          end
      | None => None
      end
  end
with parse_object (fuel : nat) (s : string) (acc : list (string * json))
  : option (json * string) :=
  match fuel with
  | O => None
  | S fuel' =>
      match skip_ws s with
      | String "034" r =>
          match parse_chars r EmptyString with
          | Some (k, r1) =>
              match skip_ws r1 with
              | String ":" r2 =>
                  match parse_value fuel' r2 with
                  | Some (v, r3) =>
                      match skip_ws r3 with
                      | String "," r4 => parse_object fuel' r4 (dict_set k v acc)
                      | String "}" r4 => Some (JObj (dict_set k v acc), r4)
                      | _ => None
                      end
                  | None => None
                  end
              | _ => None
              end
          | None => None
          end
      | _ => None
      end
  end.

(** [json.loads(s)], [None] for a [JSONDecodeError] *)
Definition loads (s : string) : option json :=
  match parse_value (S (String.length s)) s with
  | Some (v, rest) =>
      match skip_ws rest with
      | EmptyString => Some v
      | _ => None
      end
  | None => None
  end.

End Json.

(** ** Data for running the views

    An AI server that answers, stores and requests. *)

Definition start_body : json :=
  JObj [("korean_answer", JStr "A storm gathered over the bay.");
        ("dialog_history", JArr [JObj [("role", JStr "assistant");
                                       ("content", JStr "A storm gathered over the bay.")]]);
        ("caption", JArr [JStr "a lighthouse"; JStr "a small boat"])].

Definition question_body : json :=
  JObj [("query1", JStr "Who lit the lamp?");
        ("query2", JStr "Where is the boat going?");
        ("query3", JStr "What hides in the fog?");
        ("dialog_history", JArr [JObj [("role", JStr "assistant");
                                       ("content", JStr "What next?")]])].

Definition sequence_body : json :=
  JObj [("caption", JStr "a gull");
        ("korean_answer", JStr "The keeper woke to the cry of a gull.");
        ("dialog_history", JArr [JObj [("role", JStr "assistant");
                                       ("content", JStr "The keeper woke.")]])].

Definition end_body : json :=
  JObj [("korean_answer", JStr "By morning the sea was calm again.")].

Definition ai_server (r : AIRequest) : HttpResponse :=
  match req_url r with
  | start_url => mkHttpResponse 200 (Json.dumps start_body)
  | question_url => mkHttpResponse 200 (Json.dumps question_body)
  | sequence_url => mkHttpResponse 200 (Json.dumps sequence_body)
  | end_url => mkHttpResponse 200 (Json.dumps end_body)
  | image_url => mkHttpResponse 200 "PNG"
  end.

Definition endpoint_eqb (a b : endpoint) : bool :=
  match a, b with
  | start_url, start_url | question_url, question_url | sequence_url, sequence_url
  | end_url, end_url | image_url, image_url => true
  | _, _ => false
  end.

(** The same server, with one endpoint answering 500 and no JSON. *)
Definition ai_server_failing (down : endpoint) (r : AIRequest) : HttpResponse :=
  if endpoint_eqb (req_url r) down
  then mkHttpResponse 500 "Internal Server Error"
  else ai_server r.

Definition media_url (name : string) : string := String.append "/media/" name.

Definition genre_field (s : string) : option Z :=
  match NilZero.int_of_string s with
  | Some n => if (1 <=? Z.of_int n) && (Z.of_int n <=? 5) then Some (Z.of_int n) else None
  | None => None
  end.

Definition novel_cover_name (novel_id : Z) : string :=
  String.append "novel_cover_" (String.append (Json.string_of_Z novel_id) ".png").

Definition anonymous : User := mkUser 0 EmptyString true.

Definition writer : User := mkUser 7 "writer" false.

Definition empty_world : World := mkWorld (mkStore [] [] [] [] [] []) [].

Definition like_world : World :=
  mkWorld (mkStore [mkNovel 1 7 "A night train" 1 FINISHED "{}" None None]
                   [] [] [mkNovelStats 1 0 0 0] [] [])
          [].

Definition like_request : LikeRequest :=
  mkLikeRequest 1 (mkUser 9 "reader" false) true (JObj [("novel", JNum 1)]).

Definition draft_novel : Novel :=
  mkNovel 1 7 "Untitled" 2 DRAFT "{}" None None.

Definition draft_world : World :=
  mkWorld (mkStore [draft_novel]
                   [mkNovelContent 1 1 1 (JStr "Once upon a time") JNull JNull JNull JNull]
                   [mkNovelContentImage 1 1 "novel/a.png" (JStr "a cat")]
                   [mkNovelStats 1 0 0 0] [] [])
          [].

(** A store with a DRAFT novel and a FINISHED one. *)
Definition shelf_world : World :=
  mkWorld (mkStore [draft_novel; mkNovel 2 7 "A night train" 1 FINISHED "{}" None None]
                   [] [] [mkNovelStats 1 0 0 0; mkNovelStats 2 3 1 0] [] [])
          [].

Definition bay_request : StartRequest :=
  mkStartRequest writer "2" ["novel/lighthouse.png"; "novel/boat.png"].

Definition bay_run : World * (exn + Response) :=
  NovelStartAPI_post false false Json.dumps Json.loads ai_server media_url genre_field
                     bay_request empty_world.

Definition bay_world : World := fst bay_run.

Definition bay_response : Response :=
  mkResponse HTTP_200_OK
    (JObj [("id", JNum 1); ("step", JNum 1);
           ("story", JStr "A storm gathered over the bay.");
           ("materials",
            JArr [JObj [("image", JStr "/media/novel/lighthouse.png");
                        ("caption", JStr "a lighthouse")];
                  JObj [("image", JStr "/media/novel/boat.png");
                        ("caption", JStr "a small boat")]]);
           ("genre", JStr "판타지")]).

Definition gull_request : ContinueRequest :=
  mkContinueRequest 1 2 "Where is the boat going?" "novel/gull.png".

Definition gull_run : World * (exn + Response) :=
  NovelContinueAPI_post false Json.dumps Json.dumps Json.loads ai_server media_url
                        gull_request bay_world.

Definition gull_world : World := fst gull_run.

Definition gull_question_down : World * (exn + Response) :=
  NovelContinueAPI_post false Json.dumps Json.dumps Json.loads
                        (ai_server_failing question_url) media_url gull_request bay_world.

Definition gull_sequence_down : World * (exn + Response) :=
  NovelContinueAPI_post false Json.dumps Json.dumps Json.loads
                        (ai_server_failing sequence_url) media_url gull_request bay_world.

Definition calm_request : EndRequest := mkEndRequest 1 3.

Definition calm_run : World * (exn + Response) :=
  NovelEndAPI_post false Json.dumps Json.loads ai_server calm_request gull_world.

Definition calm_end_down : World * (exn + Response) :=
  NovelEndAPI_post false Json.dumps Json.loads (ai_server_failing end_url) calm_request
                   gull_world.

(** * Properties *)

(** ** Bookkeeping on tables *)

Lemma fresh_pk_gt (keys : list Z) (k : Z) : In k keys -> k < fresh_pk keys.
Proof.
  unfold fresh_pk. induction keys as [|a keys IH]; cbn [fold_right In]; [tauto|].
  intros [->|H]; [lia|]. specialize (IH H). lia.
Qed.

Lemma fresh_pk_not_in {R : Type} (pk : R -> Z) (table : list R) (r : R) :
  In r table -> pk r <> fresh_pk (map pk table).
Proof.
  intros H E. pose proof (fresh_pk_gt (map pk table) (pk r) (in_map pk _ _ H)). lia.
Qed.

Lemma existsb_absent {R : Type} (pk : R -> Z) (k : Z) (table : list R) :
  (forall r, In r table -> pk r <> k) -> existsb (fun r => pk r =? k) table = false.
Proof.
  intros H. induction table as [|a t IH]; simpl; [reflexivity|].
  rewrite IH by (intros; apply H; right; assumption).
  destruct (Z.eqb_spec (pk a) k) as [E|E]; [|reflexivity].
  exfalso. apply (H a); [left; reflexivity | assumption].
Qed.

Lemma map_replace_absent {R : Type} (pk : R -> Z) (k : Z) (f : R -> R) (table : list R) :
  (forall r, In r table -> pk r <> k) ->
  map (fun r => if pk r =? k then f r else r) table = table.
Proof.
  intros H. induction table as [|a t IH]; simpl; [reflexivity|].
  rewrite IH by (intros; apply H; right; assumption).
  destruct (Z.eqb_spec (pk a) k) as [E|E]; [|reflexivity].
  exfalso. apply (H a); [left; reflexivity | assumption].
Qed.

(** Saving the object that was appended last rewrites that row only. *)
Lemma save_row_last {R : Type} (pk : R -> Z) (obj obj' : R) (table : list R) :
  (forall r, In r table -> pk r <> pk obj) -> pk obj' = pk obj ->
  save_row pk obj' (table ++ [obj]) = table ++ [obj'].
Proof.
  intros H E. unfold save_row. rewrite existsb_app, map_app. simpl.
  rewrite E, Z.eqb_refl, orb_true_r. simpl.
  rewrite (map_replace_absent pk (pk obj) (fun _ => obj')) by assumption. reflexivity.
Qed.

(** Saving an object whose key is in the table rewrites the rows with it. *)
Lemma save_row_old {R : Type} (pk : R -> Z) (obj r0 : R) (table : list R) :
  In r0 table -> pk r0 = pk obj ->
  save_row pk obj table = map (fun r => if pk r =? pk obj then obj else r) table.
Proof.
  intros H E. unfold save_row.
  replace (existsb (fun r => pk r =? pk obj) table) with true; [reflexivity|].
  symmetry. apply existsb_exists. exists r0. split; [assumption|]. apply Z.eqb_eq, E.
Qed.

(** ** The like toggle *)

Section Likes.

Variable request : LikeRequest.
Variable w : World.
Variable novel : Novel.

Hypothesis valid : like_is_valid request = true.
Hypothesis novel_found :
  find (fun n => novel_pk n =? like_novel_id request) (novels (db w)) = Some novel.
Hypothesis stats_found :
  exists r, In r (stats (db w)) /\ stats_novel r = novel_pk novel.
Hypothesis signed_in : is_anonymous (like_request_user request) = false.

Let user := like_request_user request.

Lemma stats_find_some (t : list NovelStats) :
  (exists r, In r t /\ stats_novel r = novel_pk novel) ->
  exists r, find (fun r => stats_novel r =? novel_pk novel) t = Some r.
Proof.
  intros (r & Hin & E).
  destruct (find (fun r => stats_novel r =? novel_pk novel) t) eqn:F; [eauto|].
  exfalso. apply (find_none _ _ F) in Hin. rewrite E, Z.eqb_refl in Hin. discriminate.
Qed.

(** With no like row, the view creates one, adds one to [like_count]
    and answers 204. *)
Lemma like_when_absent :
  filter (is_like_of novel user) (likes (db w)) = [] ->
  NovelLikeAPI_create request w =
    (mkWorld
       (with_stats (map (fun r => if stats_novel r =? novel_pk novel
                                  then set_like_count r (like_count r + 1) else r))
          (with_likes (fun t => t ++ [mkNovelLike (fresh_pk (map like_pk t))
                                                  (novel_pk novel) (user_pk user)])
             (db w)))
       (sent w),
     inr (mkResponse HTTP_204_NO_CONTENT (JObj []))).
Proof.
  intros Habs. destruct (stats_find_some _ stats_found) as (r & Hr).
  unfold NovelLikeAPI_create, NovelLikeAPI_perform_create, NovelLikeAPI_get_novel,
    Novel_objects_get, F_add, bind, gets, modify, ret, raise.
  rewrite valid. simpl. rewrite novel_found. simpl. rewrite signed_in. fold user.
  rewrite Habs. simpl. rewrite Hr. reflexivity.
Qed.

(** With a like row, the view deletes it, takes one from [like_count]
    and answers 201. *)
Lemma like_when_present :
  filter (is_like_of novel user) (likes (db w)) <> [] ->
  NovelLikeAPI_create request w =
    (mkWorld
       (with_stats (map (fun r => if stats_novel r =? novel_pk novel
                                  then set_like_count r (like_count r + -1) else r))
          (with_likes (filter (fun l => negb (is_like_of novel user l))) (db w)))
       (sent w),
     inr (mkResponse HTTP_201_CREATED (like_serializer_data request))).
Proof.
  intros Hpres. destruct (stats_find_some _ stats_found) as (r & Hr).
  unfold NovelLikeAPI_create, NovelLikeAPI_perform_create, NovelLikeAPI_get_novel,
    Novel_objects_get, F_add, bind, gets, modify, ret, raise.
  rewrite valid. simpl. rewrite novel_found. simpl. rewrite signed_in. fold user.
  destruct (filter (is_like_of novel user) (likes (db w))) as [|l ls]; [congruence|].
  simpl. rewrite Hr. reflexivity.
Qed.

End Likes.

Lemma filter_none_negb {R : Type} (p : R -> bool) (l : list R) :
  filter p l = [] -> filter (fun x => negb (p x)) l = l.
Proof.
  induction l as [|a l IH]; simpl; [reflexivity|].
  destruct (p a); simpl; [discriminate|]. intros H. rewrite IH by assumption. reflexivity.
Qed.

Lemma like_count_back (pk : Z) (t : list NovelStats) :
  map (fun r => if stats_novel r =? pk then set_like_count r (like_count r + -1) else r)
      (map (fun r => if stats_novel r =? pk then set_like_count r (like_count r + 1) else r) t)
  = t.
Proof.
  induction t as [|r t IH]; simpl; [reflexivity|]. rewrite IH. f_equal.
  destruct (stats_novel r =? pk) eqn:E; simpl; [|rewrite E; reflexivity].
  rewrite E. destruct r as [n h l c]. unfold set_like_count. simpl. f_equal. lia.
Qed.

(** ** The read side *)

Lemma In_insert_by {R : Type} (key : R -> Z) (x y : R) (l : list R) :
  In y (insert_by key x l) -> y = x \/ In y l.
Proof.
  induction l as [|a l IH]; simpl.
  - intros [H|[]]; auto.
  - destruct (key x <=? key a); simpl.
    + intros [H|[H|H]]; auto.
    + intros [H|H]; auto. destruct (IH H); auto.
Qed.

Lemma In_order_by {R : Type} (key : R -> Z) (y : R) (l : list R) :
  In y (order_by key l) -> In y l.
Proof.
  unfold order_by. induction l as [|a l IH]; simpl; [tauto|].
  intros H. apply In_insert_by in H. destruct H as [->|H]; auto.
Qed.

Lemma In_firstn {R : Type} (n : nat) (y : R) (l : list R) :
  In y (firstn n l) -> In y l.
Proof.
  revert l. induction n as [|n IH]; intros [|a l]; simpl; try tauto.
  intros [H|H]; auto.
Qed.

Lemma In_skipn {R : Type} (n : nat) (y : R) (l : list R) :
  In y (skipn n l) -> In y l.
Proof.
  revert l. induction n as [|n IH]; intros [|a l]; simpl; try tauto.
  intros H. right. apply IH. assumption.
Qed.

(** The rows of a page of the listing are rows of the queryset that the
    search accepts. *)
Lemma In_list_page (get_value_from_label : string -> option Z) (genre_param : option string)
    (search : Novel -> bool) (cursor : option Cursor) (s : Store) (n : Novel) :
  In n (NovelListAPI_list get_value_from_label genre_param search cursor s) ->
  In n (filter search (NovelListAPI_get_queryset get_value_from_label genre_param s)).
Proof.
  unfold NovelListAPI_list. cbv zeta. intros H.
  destruct (cursor_reverse match cursor with Some c => c | None => first_page end);
    [apply in_rev in H|]; apply In_firstn, In_skipn in H;
    (destruct (cursor_position match cursor with Some c => c | None => first_page end);
       [apply filter_In in H; destruct H as [H _]|]);
    apply In_order_by in H; exact H.
Qed.

Lemma is_finished_status (n : Novel) : is_finished n = true -> status n = FINISHED.
Proof. unfold is_finished. destruct (status n); simpl; congruence. Qed.

Lemma list_queryset_finished (get_value_from_label : string -> option Z)
    (genre_param : option string) (s : Store) (n : Novel) :
  In n (NovelListAPI_get_queryset get_value_from_label genre_param s) ->
  In n (novels s) /\ status n = FINISHED.
Proof.
  unfold NovelListAPI_get_queryset. intros H.
  assert (In n (filter is_finished (novels s))) as H'.
  { destruct genre_param as [label|]; [|assumption].
    destruct (get_value_from_label label); [|assumption].
    apply filter_In in H. tauto. }
  apply filter_In in H'. split; [tauto|]. apply is_finished_status; tauto.
Qed.

(** ** Running a view *)

Lemma bind_ok {A B : Type} (m : M A) (f : A -> M B) (w w2 : World) (b : B) :
  bind m f w = (w2, inr b) ->
  exists a w1, m w = (w1, inr a) /\ f a w1 = (w2, inr b).
Proof.
  unfold bind. destruct (m w) as [w1 [e|a]]; [discriminate|]. eauto.
Qed.

Lemma bind_run {A B : Type} (m : M A) (f : A -> M B) (w w1 : World) (a : A) :
  m w = (w1, inr a) -> bind m f w = f a w1.
Proof. unfold bind. intros ->. reflexivity. Qed.

Lemma bind_fail {A B : Type} (m : M A) (f : A -> M B) (w w1 : World) (e : exn) :
  m w = (w1, inl e) -> bind m f w = (w1, inl e).
Proof. unfold bind. intros ->. reflexivity. Qed.

Lemma lift_ok {A : Type} (r : exn + A) (w w1 : World) (a : A) :
  lift r w = (w1, inr a) -> r = inr a /\ w1 = w.
Proof.
  destruct r as [e|a']; unfold lift, ret, raise; intros H; inversion H; auto.
Qed.

(** ** Likes *)

(** C1.  [perform_create] returns [True] on the branch that deletes the
    like and [False] on the branch that creates it, while [create] reads the
    value as [is_created]: on a novel the user has not liked, the request
    creates the like row and is answered 204; the next request deletes the
    row and is answered 201. *)
Theorem like_answers_204_on_create_201_on_delete :
  filter (is_like_of (mkNovel 1 7 "A night train" 1 FINISHED "{}" None None)
                     (like_request_user like_request))
         (likes (db like_world)) = []
  /\ snd (NovelLikeAPI_create like_request like_world)
     = inr (mkResponse HTTP_204_NO_CONTENT (JObj []))
  /\ likes (db (fst (NovelLikeAPI_create like_request like_world)))
     = [mkNovelLike 1 1 9]
  /\ snd (NovelLikeAPI_create like_request
            (fst (NovelLikeAPI_create like_request like_world)))
     = inr (mkResponse HTTP_201_CREATED (JObj [("novel", JNum 1)]))
  /\ likes (db (fst (NovelLikeAPI_create like_request
                       (fst (NovelLikeAPI_create like_request like_world)))))
     = [].
Proof. repeat split; vm_compute; reflexivity. Qed.

(** A valid like request of a caller who is not signed in, on a novel
    of the store, raises [TypeError] and writes nothing. *)
Lemma like_when_anonymous (request : LikeRequest) (w : World) (novel : Novel) :
  like_is_valid request = true ->
  find (fun n => novel_pk n =? like_novel_id request) (novels (db w)) = Some novel ->
  is_anonymous (like_request_user request) = true ->
  NovelLikeAPI_create request w = (w, inl TypeError).
Proof.
  intros Hvalid Hnovel Hanon.
  unfold NovelLikeAPI_create, NovelLikeAPI_perform_create, NovelLikeAPI_get_novel,
    Novel_objects_get, bind, gets, ret, raise.
  rewrite Hvalid. simpl. rewrite Hnovel. simpl. rewrite Hanon. reflexivity.
Qed.

(** C8.  On a novel the user has not liked, two like requests in a row
    leave no like row of (novel, user), give [like_count] its value of
    before the first request, and in fact leave the whole store as it
    was: for a signed-in user the first request creates the like row and
    the second deletes it; a caller who is not signed in is refused
    both times, and nothing is written. *)
Theorem like_twice_restores (request : LikeRequest) (w : World) (novel : Novel) :
  like_is_valid request = true ->
  find (fun n => novel_pk n =? like_novel_id request) (novels (db w)) = Some novel ->
  (exists r, In r (stats (db w)) /\ stats_novel r = novel_pk novel) ->
  filter (is_like_of novel (like_request_user request)) (likes (db w)) = [] ->
  let w1 := fst (NovelLikeAPI_create request w) in
  let w2 := fst (NovelLikeAPI_create request w1) in
  (is_anonymous (like_request_user request) = false ->
   filter (is_like_of novel (like_request_user request)) (likes (db w1)) <> [])
  /\ (is_anonymous (like_request_user request) = true ->
      w1 = w /\ snd (NovelLikeAPI_create request w) = inl TypeError)
  /\ filter (is_like_of novel (like_request_user request)) (likes (db w2)) = []
  /\ map like_count (stats (db w2)) = map like_count (stats (db w))
  /\ db w2 = db w.
Proof.
  intros Hvalid Hnovel Hstats Habs w1 w2.
  destruct (is_anonymous (like_request_user request)) eqn:Hsigned.
  { pose proof (like_when_anonymous request w novel Hvalid Hnovel Hsigned) as E.
    assert (w1 = w) as E1 by (subst w1; rewrite E; reflexivity).
    assert (w2 = w) as E2 by (subst w2; rewrite E1, E; reflexivity).
    split; [discriminate|]. split; [intros _; rewrite E; auto|].
    rewrite E2. auto. }
  pose proof (like_when_absent request w novel Hvalid Hnovel Hstats Hsigned Habs) as E1.
  assert (filter (is_like_of novel (like_request_user request)) (likes (db w1)) <> []) as Hpres.
  { subst w1. rewrite E1. simpl. rewrite filter_app, Habs. simpl.
    unfold is_like_of at 1. simpl. rewrite !Z.eqb_refl. simpl. discriminate. }
  assert (db w2 = db w) as Hdb.
  { subst w2. rewrite (like_when_present request w1 novel Hvalid).
    - subst w1. rewrite E1. unfold with_stats, with_likes. simpl. rewrite like_count_back.
      rewrite filter_app. simpl. unfold is_like_of at 2. simpl. rewrite !Z.eqb_refl. simpl.
      rewrite app_nil_r, filter_none_negb by assumption.
      destruct (db w); reflexivity.
    - subst w1. rewrite E1. simpl. assumption.
    - subst w1. rewrite E1. simpl. destruct Hstats as (r & Hin & Hr).
      exists (if stats_novel r =? novel_pk novel
              then set_like_count r (like_count r + 1) else r).
      split.
      + apply (in_map (fun r => if stats_novel r =? novel_pk novel
                                then set_like_count r (like_count r + 1) else r)).
        assumption.
      + destruct (stats_novel r =? novel_pk novel); assumption.
    - assumption.
    - assumption. }
  split; [intros _; assumption|]. split; [discriminate|]. rewrite Hdb. auto.
Qed.

Lemma like_twice_restores_witness :
  likes (db (fst (NovelLikeAPI_create like_request like_world))) = [mkNovelLike 1 1 9]
  /\ filter (is_like_of (mkNovel 1 7 "A night train" 1 FINISHED "{}" None None)
                        (like_request_user like_request))
            (likes (db (fst (NovelLikeAPI_create like_request like_world)))) <> []
  /\ db (fst (NovelLikeAPI_create like_request
                (fst (NovelLikeAPI_create like_request like_world))))
     = db like_world.
Proof.
  split; [reflexivity|].
  destruct (like_twice_restores like_request like_world
              (mkNovel 1 7 "A night train" 1 FINISHED "{}" None None))
    as (Hliked & _ & _ & _ & Hdb).
  - reflexivity.
  - reflexivity.
  - exists (mkNovelStats 1 0 0 0). simpl. auto.
  - reflexivity.
  - split; [apply Hliked; reflexivity|exact Hdb].
Defined.

Lemma filter_filter_negb {R : Type} (p : R -> bool) (l : list R) :
  filter p (filter (fun x => negb (p x)) l) = [].
Proof.
  induction l as [|a l IH]; simpl; [reflexivity|].
  destruct (p a) eqn:E; simpl; [assumption|]. rewrite E. assumption.
Qed.

Lemma like_count_forth (pk : Z) (t : list NovelStats) :
  map (fun r => if stats_novel r =? pk then set_like_count r (like_count r + 1) else r)
      (map (fun r => if stats_novel r =? pk then set_like_count r (like_count r + -1) else r) t)
  = t.
Proof.
  induction t as [|r t IH]; simpl; [reflexivity|]. rewrite IH. f_equal.
  destruct (stats_novel r =? pk) eqn:E; simpl; [|rewrite E; reflexivity].
  rewrite E. destruct r as [n h l c]. unfold set_like_count. simpl. f_equal. lia.
Qed.

(** On a novel a signed-in user has liked, two like requests in a row
    leave it liked, by a new row, and leave the counters as they were. *)
Lemma like_twice_from_liked (request : LikeRequest) (w : World) (novel : Novel) :
  like_is_valid request = true ->
  is_anonymous (like_request_user request) = false ->
  find (fun n => novel_pk n =? like_novel_id request) (novels (db w)) = Some novel ->
  (exists r, In r (stats (db w)) /\ stats_novel r = novel_pk novel) ->
  filter (is_like_of novel (like_request_user request)) (likes (db w)) <> [] ->
  let w1 := fst (NovelLikeAPI_create request w) in
  let w2 := fst (NovelLikeAPI_create request w1) in
  filter (is_like_of novel (like_request_user request)) (likes (db w1)) = []
  /\ filter (is_like_of novel (like_request_user request)) (likes (db w2)) <> []
  /\ stats (db w2) = stats (db w).
Proof.
  intros Hvalid Hsigned Hnovel Hstats Hpres w1 w2.
  pose proof (like_when_present request w novel Hvalid Hnovel Hstats Hsigned Hpres) as E1.
  assert (filter (is_like_of novel (like_request_user request)) (likes (db w1)) = []) as Habs.
  { subst w1. rewrite E1. simpl. apply filter_filter_negb. }
  split; [assumption|].
  assert (NovelLikeAPI_create request w1
          = (mkWorld
               (with_stats (map (fun r => if stats_novel r =? novel_pk novel
                                          then set_like_count r (like_count r + 1) else r))
                  (with_likes (fun t => t ++ [mkNovelLike (fresh_pk (map like_pk t))
                                                (novel_pk novel)
                                                (user_pk (like_request_user request))])
                     (db w1)))
               (sent w1),
             inr (mkResponse HTTP_204_NO_CONTENT (JObj [])))) as E2.
  { apply like_when_absent; try assumption.
    - subst w1. rewrite E1. simpl. assumption.
    - subst w1. rewrite E1. simpl. destruct Hstats as (r & Hin & Hr).
      exists (if stats_novel r =? novel_pk novel
              then set_like_count r (like_count r + -1) else r).
      split.
      + apply (in_map (fun r => if stats_novel r =? novel_pk novel
                                then set_like_count r (like_count r + -1) else r)).
        assumption.
      + destruct (stats_novel r =? novel_pk novel); assumption. }
  subst w2. rewrite E2. unfold with_stats, with_likes. simpl. split.
  - rewrite filter_app. simpl. unfold is_like_of at 2. simpl. rewrite !Z.eqb_refl. simpl.
    intros E. apply app_eq_nil in E. destruct E; discriminate.
  - subst w1. rewrite E1. simpl. apply like_count_forth.
Qed.

(** ** Which novels the read endpoints return *)

(** C2, as stated, fails on the detail endpoint: its queryset is every
    novel, and a DRAFT novel is returned, to its author and to an
    anonymous reader alike. *)
Lemma detail_returns_draft :
  In draft_novel (novels (db draft_world))
  /\ status draft_novel = DRAFT
  /\ author draft_novel = user_pk writer
  /\ snd (NovelDetailAPI_retrieve writer 1 draft_world)
     = inr (draft_novel,
            [(mkNovelContent 1 1 1 (JStr "Once upon a time") JNull JNull JNull JNull,
              [mkNovelContentImage 1 1 "novel/a.png" (JStr "a cat")])])
  /\ NovelDetailAPI_retrieve anonymous 1 draft_world
     = (draft_world,
        inr (draft_novel,
             [(mkNovelContent 1 1 1 (JStr "Once upon a time") JNull JNull JNull JNull,
               [mkNovelContentImage 1 1 "novel/a.png" (JStr "a cat")])])).
Proof. repeat split; vm_compute; auto. Qed.

(** C2, amended.  The listing endpoint, the recommendation endpoint and
    the preview endpoint return FINISHED novels only, whatever the genre,
    the search, the cursor and the random order; the detail endpoint looks
    the id up among all the novels, and returns the novel found whatever
    its status. *)
Theorem read_endpoints_by_status
    (get_value_from_label : string -> option Z) (shuffle : list Novel -> list Novel)
    (s : Store) :
  (forall l, Permutation l (shuffle l)) ->
  (forall genre_param search cursor n,
      In n (NovelListAPI_list get_value_from_label genre_param search cursor s) ->
      In n (novels s) /\ status n = FINISHED)
  /\ (forall n, In n (NovelRecAPI_get_queryset shuffle s) ->
                In n (novels s) /\ status n = FINISHED)
  /\ (forall novel_id n sent_before w',
         NovelPreviewAPI_retrieve novel_id (mkWorld s sent_before) = (w', inr n) ->
         In n (novels s) /\ status n = FINISHED)
  /\ (forall user novel_id n sent_before,
         find (fun n => novel_pk n =? novel_id) (novels s) = Some n ->
         is_anonymous user = true
         \/ (exists r, In r (stats s) /\ stats_novel r = novel_pk n) ->
         exists w' steps,
           NovelDetailAPI_retrieve user novel_id (mkWorld s sent_before)
           = (w', inr (n, steps))
           /\ novels (db w') = novels s).
Proof.
  intros Hperm. split; [|split; [|split]].
  - intros genre_param search cursor n H. apply In_list_page, filter_In in H.
    destruct H as [H _]. eapply list_queryset_finished; eassumption.
  - intros n H. unfold NovelRecAPI_get_queryset in H. apply In_firstn in H.
    apply (Permutation_in n (Permutation_sym (Hperm _))) in H.
    unfold NovelRecAPI_queryset in H. apply filter_In in H.
    split; [tauto|]. apply is_finished_status; tauto.
  - intros novel_id n sent_before w' H.
    unfold NovelPreviewAPI_retrieve, NovelPreviewAPI_get_queryset, get_object_or_404,
      bind, gets in H. simpl in H.
    destruct (find (fun n0 => novel_pk n0 =? novel_id) (filter is_finished (novels s)))
      as [n0|] eqn:F; [|discriminate].
    unfold ret in H. inversion H; subst. apply find_some in F. destruct F as [F _].
    apply filter_In in F. split; [tauto|]. apply is_finished_status; tauto.
  - intros user novel_id n sent_before Hfind Hreader.
    unfold NovelDetailAPI_retrieve, NovelDetailAPI_queryset, get_object_or_404, novel_hit,
      F_add, bind, gets, modify, ret. simpl. rewrite Hfind. simpl.
    destruct (is_anonymous user) eqn:Hanon.
    + eexists. eexists. split; reflexivity.
    + destruct Hreader as [Hreader|Hstats]; [discriminate|].
      destruct (stats_find_some n (stats s) Hstats) as (r & Hr).
      simpl. rewrite Hr. eexists. eexists. split; reflexivity.
Qed.

Lemma read_endpoints_by_status_witness :
  Forall (fun n => status n = FINISHED)
         (NovelRecAPI_get_queryset (@rev Novel) (db shelf_world))
  /\ Forall (fun n => status n = FINISHED)
            (NovelListAPI_list (fun _ => None) None (fun _ => true) None (db shelf_world)).
Proof.
  destruct (read_endpoints_by_status (fun _ => None) (@rev Novel) (db shelf_world))
    as (Hlist & Hrec & _).
  - intros l. apply Permutation_rev.
  - split; apply Forall_forall; intros n Hn.
    + apply (Hrec n Hn).
    + apply (Hlist None (fun _ => true) None n Hn).
Defined.

Arguments fresh_pk : simpl never.
Arguments create_images : simpl never.

Section Upstream.

Variable dumps : json -> string.
Variable loads : string -> option json.
Variable post : AIRequest -> HttpResponse.

Lemma requests_post_ok (r : AIRequest) (w w1 : World) (response : HttpResponse) :
  requests_post post r w = (w1, inr response) ->
  response = post r /\ w1 = mkWorld (db w) (sent w ++ [r]).
Proof. unfold requests_post. intros H. inversion H. auto. Qed.

Lemma response_json_ok (response : HttpResponse) (w w1 : World) (v : json) :
  response_json loads response w = (w1, inr v) ->
  loads (body response) = Some v /\ w1 = w.
Proof.
  unfold response_json. destruct (loads (body response));
    unfold ret, raise; intros H; inversion H; auto.
Qed.

Lemma retrieve_question_ok (dialog_history : json) (w w1 : World) (v : json) :
  retrieve_question_from_ai_json dumps loads post dialog_history w = (w1, inr v) ->
  status_code (post (question_request dumps dialog_history)) = 200
  /\ loads (body (post (question_request dumps dialog_history))) = Some v
  /\ w1 = mkWorld (db w) (sent w ++ [question_request dumps dialog_history]).
Proof.
  unfold retrieve_question_from_ai_json. intros H.
  apply bind_ok in H. destruct H as (response & w0 & Hpost & H).
  apply requests_post_ok in Hpost. destruct Hpost as [-> ->].
  destruct (Z.eqb_spec (status_code (post (question_request dumps dialog_history))) 200)
    as [E|E]; simpl in H; [|discriminate].
  apply response_json_ok in H. destruct H as [H ->]. auto.
Qed.

End Upstream.

Lemma novel_content_with_query_ok (response : json) (c c' : NovelContent) (w w1 : World) :
  novel_content_with_query response c w = (w1, inr c') ->
  exists q1 q2 q3,
    Py.get response "query1" = inr q1 /\ Py.get response "query2" = inr q2
    /\ Py.get response "query3" = inr q3
    /\ c' = set_queries c q1 q2 q3 /\ w1 = w.
Proof.
  unfold novel_content_with_query. intros H.
  apply bind_ok in H. destruct H as (q1 & w2 & H1 & H). apply lift_ok in H1. destruct H1 as [H1 ->].
  apply bind_ok in H. destruct H as (q2 & w2 & H2 & H). apply lift_ok in H2. destruct H2 as [H2 ->].
  apply bind_ok in H. destruct H as (q3 & w2 & H3 & H). apply lift_ok in H3. destruct H3 as [H3 ->].
  unfold ret in H. inversion H. exists q1, q2, q3. auto.
Qed.

(** ** The rows the start serializer creates *)

(** The image rows [create_images] appends to a table. *)
Fixpoint new_images (content : Z) (files : list string) (table : list NovelContentImage)
  : list NovelContentImage :=
  match files with
  | [] => []
  | f :: fs =>
      let i := mkNovelContentImage (fresh_pk (map image_pk table)) content f JNull in
      i :: new_images content fs (table ++ [i])
  end.

Lemma new_images_cons (content : Z) (f : string) (fs : list string)
    (table : list NovelContentImage) :
  new_images content (f :: fs) table
  = mkNovelContentImage (fresh_pk (map image_pk table)) content f JNull
    :: new_images content fs
         (table ++ [mkNovelContentImage (fresh_pk (map image_pk table)) content f JNull]).
Proof. reflexivity. Qed.

Lemma create_images_cons (content : Z) (f : string) (fs : list string) :
  create_images content (f :: fs)
  = (pk <- gets (fun s => fresh_pk (map image_pk (images s))) ;;
     modify (with_images (fun t => t ++ [mkNovelContentImage pk content f JNull])) ;;;
     rest <- create_images content fs ;;
     ret (mkNovelContentImage pk content f JNull :: rest))%view.
Proof. reflexivity. Qed.

Lemma create_images_run (content : Z) (files : list string) (w : World) :
  create_images content files w
  = (mkWorld (with_images (fun t => t ++ new_images content files t) (db w)) (sent w),
     inr (new_images content files (images (db w)))).
Proof.
  revert w. induction files as [|f fs IH]; intros w.
  - simpl. unfold ret, with_images. rewrite app_nil_r.
    destruct w as [[] ?]; reflexivity.
  - rewrite create_images_cons, new_images_cons.
    unfold bind at 1. unfold gets at 1. unfold bind at 1. unfold modify at 1.
    unfold bind at 1. rewrite IH. unfold ret, with_images. simpl.
    rewrite <- app_assoc. reflexivity.
Qed.

Lemma new_images_files (content : Z) (files : list string) (table : list NovelContentImage) :
  map image (new_images content files table) = files.
Proof.
  revert table. induction files as [|f fs IH]; intros table; simpl; [reflexivity|].
  rewrite IH. reflexivity.
Qed.

Lemma new_images_rows (content : Z) (files : list string) (table : list NovelContentImage)
    (o : NovelContentImage) :
  In o (new_images content files table) ->
  image_content o = content /\ caption o = JNull
  /\ forall r, In r table -> image_pk r < image_pk o.
Proof.
  revert table. induction files as [|f fs IH]; intros table; simpl; [tauto|].
  intros [<-|H]; simpl.
  - repeat split. intros r Hr. apply fresh_pk_gt, in_map, Hr.
  - destruct (IH _ H) as (H1 & H2 & H3). repeat split; try assumption.
    intros r Hr. apply H3, in_or_app. left. assumption.
Qed.

Lemma new_images_NoDup (content : Z) (files : list string) (table : list NovelContentImage) :
  NoDup (map image_pk (new_images content files table)).
Proof.
  revert table. induction files as [|f fs IH]; intros table; simpl; constructor.
  - intros Hin. apply in_map_iff in Hin. destruct Hin as (o & E & Ho).
    apply new_images_rows in Ho. destruct Ho as (_ & _ & Ho).
    specialize (Ho (mkNovelContentImage (fresh_pk (map image_pk table)) content f JNull)).
    simpl in Ho. rewrite E in Ho. enough (fresh_pk (map image_pk table)
                                          < fresh_pk (map image_pk table)) by lia.
    apply Ho, in_or_app. right. left. reflexivity.
  - apply IH.
Qed.

Lemma NoDup_find_self {R : Type} (pk : R -> Z) (l : list R) (o : R) :
  NoDup (map pk l) -> In o l -> find (fun r => pk r =? pk o) l = Some o.
Proof.
  induction l as [|a l IH]; simpl; [tauto|].
  intros Hnd Hin. inversion Hnd as [|? ? Hnot Hnd']; subst.
  destruct Hin as [->|Hin]; [rewrite Z.eqb_refl; reflexivity|].
  destruct (Z.eqb_spec (pk a) (pk o)) as [E|E]; [|auto].
  exfalso. apply Hnot. rewrite E. apply in_map. assumption.
Qed.

(** ** Captions *)

(** [o'] is [o] with a caption. *)
Definition captioned (o o' : NovelContentImage) : Prop :=
  o' = set_caption o (caption o').

Lemma assign_captions_ok (cap : json) (imgs : list NovelContentImage) :
  forall (i : nat) (imgs' : list NovelContentImage),
    assign_captions cap i imgs = inr imgs' ->
    Forall2 captioned imgs imgs'
    /\ forall j o', nth_error imgs' j = Some o' ->
                    Py.index cap (i + j) = inr (caption o').
Proof.
  induction imgs as [|o imgs IH]; intros i imgs'; simpl.
  - intros H. inversion H. split; [constructor|]. intros [|j] o' Hj; discriminate.
  - destruct (Py.index cap i) as [e|c] eqn:Hc; [discriminate|].
    destruct (assign_captions cap (S i) imgs) as [e|rest] eqn:Hrest; [discriminate|].
    intros H. inversion H; subst. destruct (IH _ _ Hrest) as [HF Hidx]. split.
    + constructor; [reflexivity | assumption].
    + intros [|j] o' Hj; simpl in Hj.
      * inversion Hj; subst. simpl. rewrite Nat.add_0_r. assumption.
      * rewrite <- plus_n_Sm. apply (Hidx j o' Hj).
Qed.

Lemma captioned_keys (imgs imgs' : list NovelContentImage) :
  Forall2 captioned imgs imgs' ->
  map image_pk imgs' = map image_pk imgs /\ map image imgs' = map image imgs
  /\ map image_content imgs' = map image_content imgs.
Proof.
  induction 1 as [|o o' l l' Ho _ IH]; simpl; [auto|].
  destruct IH as (-> & -> & ->). rewrite Ho. auto.
Qed.

Lemma bulk_update_new (objs : list NovelContentImage) (l l' : list NovelContentImage) :
  Forall2 captioned l l' ->
  (forall o', In o' l' -> find (fun o => image_pk o =? image_pk o') objs = Some o') ->
  map (bulk_update_caption objs) l = l'.
Proof.
  induction 1 as [|o o' l l' Ho _ IH]; simpl; intros Hfind; [reflexivity|].
  rewrite IH by (intros; apply Hfind; right; assumption). f_equal.
  unfold bulk_update_caption.
  pose proof (Hfind o' (or_introl eq_refl)) as F.
  replace (image_pk o') with (image_pk o) in F by (rewrite Ho; reflexivity).
  rewrite F. symmetry. exact Ho.
Qed.

Lemma bulk_update_old (objs : list NovelContentImage) (table : list NovelContentImage) :
  (forall r o, In r table -> In o objs -> image_pk r < image_pk o) ->
  map (bulk_update_caption objs) table = table.
Proof.
  intros H. induction table as [|r t IH]; simpl; [reflexivity|].
  rewrite IH by (intros; apply H; [right|]; assumption). f_equal.
  unfold bulk_update_caption.
  destruct (find (fun o => image_pk o =? image_pk r) objs) as [o|] eqn:F; [|reflexivity].
  apply find_some in F. destruct F as [Hin E]. apply Z.eqb_eq in E.
  specialize (H r o (or_introl eq_refl) Hin). lia.
Qed.

(** ** Start *)

Section Start.

Variable DEV : bool.
Variable DEMO : bool.
Variable dumps : json -> string.
Variable loads : string -> option json.
Variable post : AIRequest -> HttpResponse.
Variable storage_url : string -> string.
Variable genre_of_form : string -> option Z.

Variable request : StartRequest.
Variable w : World.

(** The rows of the serializer, on the store of [w]. *)
Definition start_novel (g : Z) : Novel :=
  mkNovel (fresh_pk (map novel_pk (novels (db w)))) (user_pk (start_user request))
          EmptyString g DRAFT EmptyString None None.

Definition start_content : NovelContent :=
  mkNovelContent (fresh_pk (map content_pk (contents (db w))))
                 (fresh_pk (map novel_pk (novels (db w)))) 1
                 JNull JNull JNull JNull JNull.

Definition start_images_rows : list NovelContentImage :=
  new_images (content_pk start_content) (start_images request) (images (db w)).

Definition start_stats : NovelStats :=
  mkNovelStats (fresh_pk (map novel_pk (novels (db w)))) 0 0 0.

Definition start_saved (g : Z) : World :=
  mkWorld (mkStore (novels (db w) ++ [start_novel g])
                   (contents (db w) ++ [start_content])
                   (images (db w) ++ start_images_rows)
                   (stats (db w) ++ [start_stats])
                   (likes (db w)) (comments (db w)))
          (sent w).

Lemma start_save_run (g : Z) :
  genre_of_form (start_genre request) = Some g ->
  start_images request <> [] ->
  NovelStartSerializer_save genre_of_form request w
  = (start_saved g, inr (start_novel g, start_content, start_images_rows)).
Proof.
  intros Hg Himgs. unfold NovelStartSerializer_save. rewrite Hg.
  destruct (start_images request) as [|f fs] eqn:Hfiles; [congruence|].
  unfold bind at 1. unfold gets at 1. unfold bind at 1. unfold modify at 1.
  unfold bind at 1. unfold modify at 1.
  unfold bind at 1. unfold NovelContent_objects_create, bind, gets, modify, ret. simpl.
  rewrite <- Hfiles. rewrite create_images_run.
  unfold start_saved, start_images_rows, start_content, start_novel, with_images. simpl.
  reflexivity.
Qed.

Lemma start_save_ok (w1 : World) (novel : Novel) (novel_content : NovelContent)
    (imgs : list NovelContentImage) :
  NovelStartSerializer_save genre_of_form request w = (w1, inr (novel, novel_content, imgs)) ->
  exists g,
    genre_of_form (start_genre request) = Some g /\ start_images request <> []
    /\ w1 = start_saved g /\ novel = start_novel g
    /\ novel_content = start_content /\ imgs = start_images_rows.
Proof.
  intros H. destruct (genre_of_form (start_genre request)) as [g|] eqn:Hg.
  - destruct (start_images request) as [|f fs] eqn:Hfiles.
    + unfold NovelStartSerializer_save in H. rewrite Hg, Hfiles in H. discriminate.
    + rewrite (start_save_run g) in H by congruence. inversion H.
      exists g. repeat split; congruence.
  - unfold NovelStartSerializer_save in H. rewrite Hg in H. discriminate.
Qed.

Lemma start_save_fails (w1 : World) (e : exn) :
  NovelStartSerializer_save genre_of_form request w = (w1, inl e) -> w1 = w.
Proof.
  intros H. destruct (genre_of_form (start_genre request)) as [g|] eqn:Hg.
  - destruct (start_images request) as [|f fs] eqn:Hfiles.
    + unfold NovelStartSerializer_save in H. rewrite Hg, Hfiles in H. inversion H. reflexivity.
    + rewrite (start_save_run g) in H by congruence. discriminate.
  - unfold NovelStartSerializer_save in H. rewrite Hg in H. inversion H. reflexivity.
Qed.

(** The values a run of the view goes through. *)
Record StartTrace : Type := mkStartTrace {
  run_genre : Z;
  run_json : json;
  run_json1 : json;
  run_json2 : json;
  run_json3 : json;
  run_story : json;
  run_dialog_history : json;
  run_response2 : json;
  run_caption : json;
  run_images : list NovelContentImage;
  run_q1 : json;
  run_q2 : json;
  run_q3 : json }.

(** What a run of the view that answers 200 has done. *)
Record start_run (t : StartTrace) (w' : World) (response : Response) : Prop := mkStartRun {
  run_dev : DEV = false;
  run_valid_genre : genre_of_form (start_genre request) = Some (run_genre t);
  run_valid_images : start_images request <> [];
  run_start_status :
    status_code (post (start_request request start_images_rows)) = 200;
  run_start_body :
    loads (body (post (start_request request start_images_rows))) = Some (run_json t);
  run_pop_story : Py.pop (run_json t) "korean_answer" = inr (run_story t, (run_json1 t));
  run_pop_dialog : Py.pop (run_json1 t) "dialog_history" = inr (run_dialog_history t, (run_json2 t));
  run_question_status :
    status_code (post (question_request dumps (run_dialog_history t))) = 200;
  run_question_body :
    loads (body (post (question_request dumps (run_dialog_history t)))) = Some (run_response2 t);
  run_pop_caption : Py.pop (run_json2 t) "caption" = inr (run_caption t, (run_json3 t));
  run_assign : assign_captions (run_caption t) 0 start_images_rows = inr (run_images t);
  run_get_q1 : Py.get (run_response2 t) "query1" = inr (run_q1 t);
  run_get_q2 : Py.get (run_response2 t) "query2" = inr (run_q2 t);
  run_get_q3 : Py.get (run_response2 t) "query3" = inr (run_q3 t);
  run_novels :
    novels (db w')
    = novels (db w) ++ [set_prompt (start_novel (run_genre t)) (dumps (run_response2 t))];
  run_contents :
    contents (db w')
    = contents (db w)
      ++ [set_content start_content (run_story t);
          mkNovelContent
            (fresh_pk (map content_pk
                         (contents (db w) ++ [set_content start_content (run_story t)])))
            (fresh_pk (map novel_pk (novels (db w)))) 2
            JNull JNull (run_q1 t) (run_q2 t) (run_q3 t)];
  run_images_table : images (db w') = images (db w) ++ (run_images t);
  run_stats : stats (db w') = stats (db w) ++ [start_stats];
  run_likes : likes (db w') = likes (db w);
  run_comments : comments (db w') = comments (db w);
  run_sent :
    sent w' = sent w ++ [start_request request start_images_rows;
                         question_request dumps (run_dialog_history t)];
  run_response :
    response
    = mkResponse HTTP_200_OK
        (JObj [("id", JNum (fresh_pk (map novel_pk (novels (db w)))));
               ("step", JNum 1);
               ("story", (run_story t));
               ("materials", JArr (map (material storage_url) (run_images t)));
               ("genre", genre_dict_get (run_genre t))]) }.

Lemma start_ok (w' : World) (response : Response) :
  NovelStartAPI_post DEV DEMO dumps loads post storage_url genre_of_form request w
  = (w', inr response) ->
  resp_status response = HTTP_200_OK ->
  exists t, start_run t w' response.
Proof.
  unfold NovelStartAPI_post. intros H Hstatus.
  destruct (DEMO && negb (String.eqb (nickname (start_user request)) "DEMO용")).
  { unfold ret in H. inversion H; subst. discriminate. }
  apply bind_ok in H. destruct H as ([[novel novel_content] imgs] & w1 & Hsave & H).
  apply start_save_ok in Hsave.
  destruct Hsave as (g & Hg & Hfiles & -> & -> & -> & ->).
  destruct DEV eqn:Hdev; [discriminate|].
  apply bind_ok in H. destruct H as (response1 & w2 & Hpost & H).
  apply requests_post_ok in Hpost. destruct Hpost as [-> ->].
  destruct (Z.eqb_spec (status_code (post (start_request request start_images_rows))) 200)
    as [Hcode|Hcode]; simpl in H; [|discriminate].
  apply bind_ok in H. destruct H as (rj & w2 & Hjson & H).
  apply response_json_ok in Hjson. destruct Hjson as [Hjson ->].
  apply bind_ok in H. destruct H as ([story rj1] & w2 & Hpop1 & H).
  apply lift_ok in Hpop1. destruct Hpop1 as [Hpop1 ->].
  apply bind_ok in H. destruct H as ([dh rj2] & w2 & Hpop2 & H).
  apply lift_ok in Hpop2. destruct Hpop2 as [Hpop2 ->].
  apply bind_ok in H. destruct H as (response2 & w2 & Hq & H).
  apply retrieve_question_ok in Hq. destruct Hq as (Hqcode & Hqbody & ->).
  apply bind_ok in H. destruct H as ([cap rj3] & w2 & Hpop3 & H).
  apply lift_ok in Hpop3. destruct Hpop3 as [Hpop3 ->].
  apply bind_ok in H. destruct H as (imgs' & w2 & Hassign & H).
  apply lift_ok in Hassign. destruct Hassign as [Hassign ->].
  unfold NovelContentImage_objects_bulk_update, NovelContent_save, Novel_save,
    get_next_novel_content, NovelContent_objects_create in H.
  unfold bind at 1 in H. unfold modify at 1 in H.
  unfold bind at 1 in H. unfold modify at 1 in H.
  unfold bind at 1 in H. unfold bind at 1 in H. unfold gets at 1 in H.
  unfold bind at 1 in H. unfold modify at 1 in H. unfold ret at 1 in H.
  apply bind_ok in H. destruct H as (next & w2 & Hnext & H).
  apply novel_content_with_query_ok in Hnext.
  destruct Hnext as (q1 & q2 & q3 & Hq1 & Hq2 & Hq3 & -> & ->).
  unfold bind at 1 in H. unfold modify at 1 in H.
  unfold bind at 1 in H. unfold modify at 1 in H. unfold ret in H.
  inversion H; subst; clear H.
  destruct (assign_captions_ok _ _ _ _ Hassign) as [Hcap Hidx].
  destruct (captioned_keys _ _ Hcap) as (Hkeys & _ & _).
  exists (mkStartTrace g rj rj1 rj2 rj3 story dh response2 cap imgs' q1 q2 q3).
  constructor; simpl; try assumption; try reflexivity.
  - apply save_row_last; [|reflexivity].
    intros r Hr. apply (fresh_pk_not_in novel_pk _ r Hr).
  - rewrite (save_row_last content_pk start_content (set_content start_content story));
      [|intros r Hr; apply (fresh_pk_not_in content_pk _ r Hr)|reflexivity].
    rewrite save_row_last; [rewrite <- app_assoc; reflexivity| |reflexivity].
    intros r Hr. apply (fresh_pk_not_in content_pk _ r Hr).
  - rewrite map_app. f_equal.
    + apply bulk_update_old. intros r o Hr Ho.
      apply (in_map image_pk) in Ho. rewrite Hkeys in Ho.
      apply in_map_iff in Ho. destruct Ho as (o0 & <- & Ho0).
      apply new_images_rows in Ho0. apply Ho0. assumption.
    + apply bulk_update_new; [assumption|].
      intros o' Ho'. apply NoDup_find_self; [|assumption].
      rewrite Hkeys. apply new_images_NoDup.
  - rewrite <- app_assoc. reflexivity.
Qed.

End Start.

Lemma lookup_remove_other (k k' : string) (m : list (string * json)) :
  k <> k' -> Py.lookup k (Py.remove k' m) = Py.lookup k m.
Proof.
  intros Hne. induction m as [|[a v] m IH]; simpl; [reflexivity|].
  destruct (String.eqb_spec k' a) as [->|E].
  - rewrite IH. destruct (String.eqb_spec k a); [contradiction|reflexivity].
  - simpl. rewrite IH. reflexivity.
Qed.

Lemma filter_nothing {R : Type} (p : R -> bool) (l : list R) :
  (forall x, In x l -> p x = false) -> filter p l = [].
Proof.
  induction l as [|a l IH]; simpl; intros H; [reflexivity|].
  rewrite (H a (or_introl eq_refl)). apply IH. intros x Hx. apply H. right. assumption.
Qed.

Lemma pop_ok (d d' v : json) (k : string) :
  Py.pop d k = inr (v, d') ->
  exists m, d = JObj m /\ Py.lookup k m = Some v /\ d' = JObj (Py.remove k m).
Proof.
  destruct d as [| | | | |m]; simpl; try discriminate.
  destruct (Py.lookup k m) as [v'|] eqn:E; [|discriminate].
  intros H. inversion H; subst. eauto.
Qed.

(** ** Start: captions and steps *)

(** C5.  A Start request with N images that is answered 200 has N >= 1,
    appends N image rows to the table, the i-th with the i-th file of the
    request and the i-th element of the [caption] of the start call, and
    appends two rows to the table of steps, both of the new novel: step 1
    with the story of the start call for content, step 2 with the three
    queries of the question call.  Where every step of the store belongs
    to a novel of the store, these two are all the steps of the new
    novel. *)
Theorem start_captions_and_two_steps
    (DEV DEMO : bool) (dumps : json -> string) (loads : string -> option json)
    (post : AIRequest -> HttpResponse) (storage_url : string -> string)
    (genre_of_form : string -> option Z)
    (request : StartRequest) (w w' : World) (response : Response) :
  NovelStartAPI_post DEV DEMO dumps loads post storage_url genre_of_form request w
  = (w', inr response) ->
  resp_status response = HTTP_200_OK ->
  exists (novel_id : Z) (imgs : list NovelContentImage) (c1 c2 : NovelContent)
         (start_json : list (string * json)) (cap story dialog_history response2 : json),
    (1 <= List.length (start_images request))%nat
    /\ loads (body (post (start_request request (start_images_rows request w))))
       = Some (JObj start_json)
    /\ Py.lookup "caption" start_json = Some cap
    /\ Py.lookup "korean_answer" start_json = Some story
    /\ Py.lookup "dialog_history" start_json = Some dialog_history
    /\ loads (body (post (question_request dumps dialog_history))) = Some response2
    /\ images (db w') = images (db w) ++ imgs
    /\ List.length imgs = List.length (start_images request)
    /\ map image imgs = start_images request
    /\ (forall i img, nth_error imgs i = Some img ->
                      Py.index cap i = inr (caption img)
                      /\ image_content img = content_pk c1)
    /\ contents (db w') = contents (db w) ++ [c1; c2]
    /\ (forall n, In n (novels (db w)) -> novel_pk n <> novel_id)
    /\ (exists n, In n (novels (db w')) /\ novel_pk n = novel_id)
    /\ content_novel c1 = novel_id /\ step c1 = 1 /\ content c1 = story
    /\ content_novel c2 = novel_id /\ step c2 = 2 /\ content c2 = JNull
    /\ Py.get response2 "query1" = inr (query1 c2)
    /\ Py.get response2 "query2" = inr (query2 c2)
    /\ Py.get response2 "query3" = inr (query3 c2)
    /\ ((forall c, In c (contents (db w)) ->
                   exists n, In n (novels (db w)) /\ novel_pk n = content_novel c) ->
        filter (fun c => content_novel c =? novel_id) (contents (db w')) = [c1; c2]).
Proof.
  intros H Hstatus.
  destruct (start_ok _ _ _ _ _ _ _ _ _ _ _ H Hstatus) as [t R]. destruct R.
  destruct (pop_ok _ _ _ _ run_pop_story0) as (m & Em & Hstory & E1).
  destruct (pop_ok _ _ _ _ run_pop_dialog0) as (m1 & Em1 & Hdialog & E2).
  destruct (pop_ok _ _ _ _ run_pop_caption0) as (m2 & Em2 & Hcaption & E3).
  rewrite E1 in Em1. inversion Em1; subst m1. rewrite E2 in Em2. inversion Em2; subst m2.
  rewrite lookup_remove_other in Hdialog by discriminate.
  rewrite !lookup_remove_other in Hcaption by discriminate.
  destruct (assign_captions_ok _ _ _ _ run_assign0) as [Hcap Hidx].
  destruct (captioned_keys _ _ Hcap) as (Hkeys & Hfiles & Hcontent).
  pose proof (new_images_files (content_pk (start_content w)) (start_images request)
                (images (db w))) as Hnew.
  exists (fresh_pk (map novel_pk (novels (db w)))), (run_images t),
    (set_content (start_content w) (run_story t)).
  exists (mkNovelContent
            (fresh_pk (map content_pk
                         (contents (db w) ++ [set_content (start_content w) (run_story t)])))
            (fresh_pk (map novel_pk (novels (db w)))) 2
            JNull JNull (run_q1 t) (run_q2 t) (run_q3 t)).
  exists m, (run_caption t), (run_story t), (run_dialog_history t), (run_response2 t).
  split; [destruct (start_images request); [congruence | simpl; lia]|].
  split; [rewrite run_start_body0, Em; reflexivity|].
  do 4 (split; [assumption|]).
  split; [eassumption|].
  split; [rewrite <- (length_map image_pk), Hkeys, length_map;
          unfold start_images_rows; rewrite <- (length_map image), Hnew; reflexivity|].
  split; [rewrite Hfiles; exact Hnew|].
  split.
  { intros i img Hi. split; [apply (Hidx i img Hi)|].
    assert (In (image_content img) (map image_content (run_images t))) as Hin
        by (apply in_map, (nth_error_In _ _ Hi)).
    rewrite Hcontent in Hin. apply in_map_iff in Hin. destruct Hin as (o & <- & Ho).
    apply new_images_rows in Ho. apply Ho. }
  split; [eassumption|].
  split; [intros n Hn; apply (fresh_pk_not_in novel_pk _ n Hn)|].
  split; [eexists; split; [rewrite run_novels0; apply in_or_app; right; left; reflexivity
                          | reflexivity]|].
  do 6 (split; [reflexivity|]).
  do 3 (split; [assumption|]).
  intros Hfk. rewrite run_contents0, filter_app. simpl. rewrite !Z.eqb_refl.
  replace (filter _ (contents (db w))) with (@nil NovelContent); [reflexivity|].
  symmetry. apply filter_nothing. intros c Hc.
  destruct (Hfk c Hc) as (n & Hn & E). apply Z.eqb_neq. rewrite <- E.
  apply (fresh_pk_not_in novel_pk _ n Hn).
Qed.

Lemma start_captions_and_two_steps_witness :
  exists c1 c2 i1 i2,
    contents (db bay_world) = [c1; c2] /\ step c1 = 1 /\ step c2 = 2
    /\ images (db bay_world) = [i1; i2]
    /\ map image [i1; i2] = ["novel/lighthouse.png"; "novel/boat.png"].
Proof.
  destruct (start_captions_and_two_steps false false Json.dumps Json.loads ai_server
              media_url genre_field bay_request empty_world bay_world bay_response)
    as (novel_id & imgs & c1 & c2 & m & cap & story & dh & response2 & H).
  - vm_compute. reflexivity.
  - reflexivity.
  - destruct H as (_ & _ & _ & _ & _ & _ & Himgs & Hlen & Hfiles & _ & Hcontents & _ & _
                   & _ & Hs1 & _ & _ & Hs2 & _).
    destruct imgs as [|i1 [|i2 [|i3 imgs]]]; try discriminate Hlen.
    exists c1, c2, i1, i2. repeat split; assumption.
Defined.

(** ** Stepping through a view *)

Lemma bind_ret {A B : Type} (a : A) (f : A -> M B) (w : World) :
  bind (ret a) f w = f a w.
Proof. reflexivity. Qed.

Lemma bind_raise {A B : Type} (e : exn) (f : A -> M B) (w : World) :
  bind (raise e) f w = (w, inl e).
Proof. reflexivity. Qed.

Lemma bind_lift_inr {A B : Type} (a : A) (f : A -> M B) (w : World) :
  bind (lift (inr a)) f w = f a w.
Proof. reflexivity. Qed.

Lemma bind_lift_inl {A B : Type} (e : exn) (f : A -> M B) (w : World) :
  bind (lift (inl e)) f w = (w, inl e).
Proof. reflexivity. Qed.

Lemma bind_gets {A B : Type} (g : Store -> A) (f : A -> M B) (w : World) :
  bind (gets g) f w = f (g (db w)) w.
Proof. reflexivity. Qed.

Lemma bind_modify {B : Type} (g : Store -> Store) (f : unit -> M B) (w : World) :
  bind (modify g) f w = f tt (mkWorld (g (db w)) (sent w)).
Proof. reflexivity. Qed.

Lemma bind_requests_post {B : Type} (post : AIRequest -> HttpResponse) (r : AIRequest)
    (f : HttpResponse -> M B) (w : World) :
  bind (requests_post post r) f w = f (post r) (mkWorld (db w) (sent w ++ [r])).
Proof. reflexivity. Qed.

Lemma bind_bind {A B C : Type} (m : M A) (f : A -> M B) (g : B -> M C) (w : World) :
  bind (bind m f) g w = bind m (fun a => bind (f a) g) w.
Proof. unfold bind. destruct (m w) as [w1 [e|a]]; reflexivity. Qed.

(** ** Continue *)

Section Continue.

Variable DEV : bool.
Variable dumps : json -> string.
Variable dumps_utf8 : json -> string.
Variable loads : string -> option json.
Variable post : AIRequest -> HttpResponse.
Variable storage_url : string -> string.

Variable request : ContinueRequest.
Variable w : World.

Definition continue_image_row (novel_content : NovelContent) : NovelContentImage :=
  mkNovelContentImage (fresh_pk (map image_pk (images (db w)))) (content_pk novel_content)
                      (continue_image request) JNull.

Definition continue_saved (novel_content : NovelContent) : World :=
  mkWorld (with_images (fun t => t ++ [continue_image_row novel_content]) (db w)) (sent w).

(** The novel and the step the serializer finds. *)
Definition continue_target (novel : Novel) (novel_content : NovelContent) : Prop :=
  find (fun n => novel_pk n =? continue_novel_id request) (novels (db w)) = Some novel
  /\ find (fun c => (content_novel c =? novel_pk novel) && (step c =? continue_step request))
          (contents (db w)) = Some novel_content
  /\ content novel_content = JNull.

Lemma continue_save_cases :
  (exists novel novel_content,
      continue_target novel novel_content
      /\ NovelContinueSerializer_save request w
         = (continue_saved novel_content,
            inr (novel, novel_content, continue_image_row novel_content,
                 JStr (continue_query request))))
  \/ NovelContinueSerializer_save request w = (w, inl ValidationError).
Proof.
  unfold NovelContinueSerializer_save, continue_target, bind, gets, modify, raise, ret.
  simpl.
  destruct (find (fun n => novel_pk n =? continue_novel_id request) (novels (db w)))
    as [novel|] eqn:Hn; [|right; reflexivity].
  destruct (find (fun c => (content_novel c =? novel_pk novel)
                           && (step c =? continue_step request)) (contents (db w)))
    as [novel_content|] eqn:Hrow; [|right; reflexivity].
  destruct (content novel_content) eqn:Hc; simpl; try (right; reflexivity).
  left. exists novel, novel_content. repeat split; assumption.
Qed.

Lemma continue_target_row (novel : Novel) (novel_content : NovelContent) :
  continue_target novel novel_content ->
  In novel (novels (db w)) /\ novel_pk novel = continue_novel_id request
  /\ In novel_content (contents (db w))
  /\ content_novel novel_content = novel_pk novel
  /\ step novel_content = continue_step request.
Proof.
  intros (Hn & Hc & _). apply find_some in Hn. apply find_some in Hc.
  destruct Hn as [Hn En]. destruct Hc as [Hc Ec].
  apply Z.eqb_eq in En. apply andb_true_iff in Ec. destruct Ec as [E1 E2].
  apply Z.eqb_eq in E1. apply Z.eqb_eq in E2. auto.
Qed.

(** The pops of the view on the answer of the sequence call. *)
Definition parse_sequence (rj : json) : exn + (json * json * json) :=
  match Py.pop rj "caption" with
  | inl e => inl e
  | inr (cap, rj) =>
      match Py.pop rj "korean_answer" with
      | inl e => inl e
      | inr (story, rj) =>
          match Py.pop rj "dialog_history" with
          | inl e => inl e
          | inr (dialog_history, _) => inr (cap, story, dialog_history)
          end
      end
  end.

(** The gets of [novel_content_with_query] on the answer of the question
    call. *)
Definition parse_queries (response : json) : exn + (json * json * json) :=
  match Py.get response "query1", Py.get response "query2", Py.get response "query3" with
  | inr q1, inr q2, inr q3 => inr (q1, q2, q3)
  | inl e, _, _ | _, inl e, _ | _, _, inl e => inl e
  end.

Section Run.

Variable novel : Novel.
Variable novel_content : NovelContent.

Let img := continue_image_row novel_content.
Let selected_query := JStr (continue_query request).

(** The store after the writes of the view, up to the creation of the
    next step. *)
Definition continue_step_written (cap story response2 : json) : Store :=
  with_contents (save_row content_pk
                   (set_chosen_query (set_content novel_content story) selected_query))
    (with_novels (save_row novel_pk (set_prompt novel (dumps response2)))
       (with_images (save_row image_pk (set_caption img cap))
          (db (continue_saved novel_content)))).

Definition continue_next (cap story response2 : json) : NovelContent :=
  mkNovelContent
    (fresh_pk (map content_pk (contents (continue_step_written cap story response2))))
    (novel_pk novel) (step novel_content + 1) JNull JNull JNull JNull JNull.

Definition continue_next_created (cap story response2 : json) : Store :=
  with_contents (fun t => t ++ [continue_next cap story response2])
                (continue_step_written cap story response2).

Definition continue_done (cap story response2 q1 q2 q3 : json) : Store :=
  with_contents (save_row content_pk
                   (set_queries (continue_next cap story response2) q1 q2 q3))
                (continue_next_created cap story response2).

Definition continue_response (cap story : json) : Response :=
  mkResponse HTTP_200_OK
    (JObj [("id", JNum (novel_pk novel));
           ("newMaterial",
            JObj [("image", JStr (storage_url (continue_image request)));
                  ("caption", cap)]);
           ("step", JNum (step novel_content));
           ("story", story)]).

(** Every way a Continue request can go, once the serializer has
    accepted it and the stored prompt has given a dialog history. *)
Inductive continue_upstream (dh : json) : World -> exn + Response -> Prop :=
| Continue_timeout :
    status_code (post (sequence_request dumps dumps_utf8 img selected_query dh)) <> 200 ->
    continue_upstream dh
      (mkWorld (db (continue_saved novel_content))
               (sent w ++ [sequence_request dumps dumps_utf8 img selected_query dh]))
      (inr (mkResponse HTTP_408_REQUEST_TIMEOUT (JObj [])))
| Continue_sequence_no_json :
    status_code (post (sequence_request dumps dumps_utf8 img selected_query dh)) = 200 ->
    loads (body (post (sequence_request dumps dumps_utf8 img selected_query dh))) = None ->
    continue_upstream dh
      (mkWorld (db (continue_saved novel_content))
               (sent w ++ [sequence_request dumps dumps_utf8 img selected_query dh]))
      (inl JSONDecodeError)
| Continue_sequence_bad_json (rj : json) (e : exn) :
    status_code (post (sequence_request dumps dumps_utf8 img selected_query dh)) = 200 ->
    loads (body (post (sequence_request dumps dumps_utf8 img selected_query dh))) = Some rj ->
    parse_sequence rj = inl e ->
    continue_upstream dh
      (mkWorld (db (continue_saved novel_content))
               (sent w ++ [sequence_request dumps dumps_utf8 img selected_query dh]))
      (inl e)
| Continue_question_down (rj cap story dh' : json) :
    status_code (post (sequence_request dumps dumps_utf8 img selected_query dh)) = 200 ->
    loads (body (post (sequence_request dumps dumps_utf8 img selected_query dh))) = Some rj ->
    parse_sequence rj = inr (cap, story, dh') ->
    status_code (post (question_request dumps dh')) <> 200 ->
    continue_upstream dh
      (mkWorld (db (continue_saved novel_content))
               ((sent w ++ [sequence_request dumps dumps_utf8 img selected_query dh])
                  ++ [question_request dumps dh']))
      (inl RequestAIServerError)
| Continue_question_no_json (rj cap story dh' : json) :
    status_code (post (sequence_request dumps dumps_utf8 img selected_query dh)) = 200 ->
    loads (body (post (sequence_request dumps dumps_utf8 img selected_query dh))) = Some rj ->
    parse_sequence rj = inr (cap, story, dh') ->
    status_code (post (question_request dumps dh')) = 200 ->
    loads (body (post (question_request dumps dh'))) = None ->
    continue_upstream dh
      (mkWorld (db (continue_saved novel_content))
               ((sent w ++ [sequence_request dumps dumps_utf8 img selected_query dh])
                  ++ [question_request dumps dh']))
      (inl JSONDecodeError)
| Continue_no_queries (rj cap story dh' response2 : json) (e : exn) :
    status_code (post (sequence_request dumps dumps_utf8 img selected_query dh)) = 200 ->
    loads (body (post (sequence_request dumps dumps_utf8 img selected_query dh))) = Some rj ->
    parse_sequence rj = inr (cap, story, dh') ->
    status_code (post (question_request dumps dh')) = 200 ->
    loads (body (post (question_request dumps dh'))) = Some response2 ->
    parse_queries response2 = inl e ->
    continue_upstream dh
      (mkWorld (continue_next_created cap story response2)
               ((sent w ++ [sequence_request dumps dumps_utf8 img selected_query dh])
                  ++ [question_request dumps dh']))
      (inl e)
| Continue_done (rj cap story dh' response2 q1 q2 q3 : json) :
    status_code (post (sequence_request dumps dumps_utf8 img selected_query dh)) = 200 ->
    loads (body (post (sequence_request dumps dumps_utf8 img selected_query dh))) = Some rj ->
    parse_sequence rj = inr (cap, story, dh') ->
    status_code (post (question_request dumps dh')) = 200 ->
    loads (body (post (question_request dumps dh'))) = Some response2 ->
    parse_queries response2 = inr (q1, q2, q3) ->
    continue_upstream dh
      (mkWorld (continue_done cap story response2 q1 q2 q3)
               ((sent w ++ [sequence_request dumps dumps_utf8 img selected_query dh])
                  ++ [question_request dumps dh']))
      (inr (continue_response cap story)).

End Run.

(** Every way a Continue request can go. *)
Inductive continue_outcome : World -> exn + Response -> Prop :=
| Continue_invalid :
    continue_outcome w (inl ValidationError)
| Continue_dev (novel : Novel) (novel_content : NovelContent) :
    continue_target novel novel_content ->
    DEV = true ->
    continue_outcome (continue_saved novel_content) (inl UnboundLocalError)
| Continue_prompt_no_json (novel : Novel) (novel_content : NovelContent) :
    continue_target novel novel_content ->
    DEV = false ->
    loads (prompt novel) = None ->
    continue_outcome (continue_saved novel_content) (inl JSONDecodeError)
| Continue_prompt_no_dict (novel : Novel) (novel_content : NovelContent) (d : json) (e : exn) :
    continue_target novel novel_content ->
    DEV = false ->
    loads (prompt novel) = Some d ->
    Py.get d "dialog_history" = inl e ->
    continue_outcome (continue_saved novel_content) (inl e)
| Continue_upstream (novel : Novel) (novel_content : NovelContent) (d dh : json)
    (w' : World) (r : exn + Response) :
    continue_target novel novel_content ->
    DEV = false ->
    loads (prompt novel) = Some d ->
    Py.get d "dialog_history" = inr dh ->
    continue_upstream novel novel_content dh w' r ->
    continue_outcome w' r.

Lemma bind_response_json {B : Type} (response : HttpResponse) (f : json -> M B)
    (w0 : World) :
  bind (response_json loads response) f w0
  = match loads (body response) with
    | Some v => f v w0
    | None => (w0, inl JSONDecodeError)
    end.
Proof. unfold bind, response_json. destruct (loads (body response)); reflexivity. Qed.

Lemma bind_retrieve_question {B : Type} (dialog_history : json) (f : json -> M B)
    (w0 : World) :
  bind (retrieve_question_from_ai_json dumps loads post dialog_history) f w0
  = let w1 := mkWorld (db w0) (sent w0 ++ [question_request dumps dialog_history]) in
    if status_code (post (question_request dumps dialog_history)) =? 200
    then match loads (body (post (question_request dumps dialog_history))) with
         | Some v => f v w1
         | None => (w1, inl JSONDecodeError)
         end
    else (w1, inl RequestAIServerError).
Proof.
  unfold retrieve_question_from_ai_json. rewrite bind_bind, bind_requests_post.
  destruct (status_code (post (question_request dumps dialog_history)) =? 200); simpl.
  - apply bind_response_json.
  - reflexivity.
Qed.

Lemma bind_with_query {B : Type} (response : json) (c : NovelContent)
    (f : NovelContent -> M B) (w0 : World) :
  bind (novel_content_with_query response c) f w0
  = match parse_queries response with
    | inr (q1, q2, q3) => f (set_queries c q1 q2 q3) w0
    | inl e => (w0, inl e)
    end.
Proof.
  unfold novel_content_with_query, parse_queries. rewrite !bind_bind.
  destruct (Py.get response "query1") as [e|q1]; [reflexivity|]. rewrite bind_lift_inr.
  rewrite bind_bind.
  destruct (Py.get response "query2") as [e|q2]; [reflexivity|]. rewrite bind_lift_inr.
  rewrite bind_bind.
  destruct (Py.get response "query3") as [e|q3]; [reflexivity|]. rewrite bind_lift_inr.
  reflexivity.
Qed.

Theorem continue_run (w' : World) (r : exn + Response) :
  NovelContinueAPI_post DEV dumps dumps_utf8 loads post storage_url request w = (w', r) ->
  continue_outcome w' r.
Proof.
  unfold NovelContinueAPI_post. intros H.
  destruct continue_save_cases as [(novel & novel_content & Ht & Es)|Es].
  2: { rewrite (bind_fail _ _ _ _ _ Es) in H. inversion H; subst w' r. constructor. }
  rewrite (bind_run _ _ _ _ _ Es) in H.
  destruct DEV eqn:Hdev.
  { inversion H; subst w' r. eapply Continue_dev; eassumption. }
  destruct (loads (prompt novel)) as [d|] eqn:Hd.
  2: { inversion H; subst w' r. eapply Continue_prompt_no_json; eassumption. }
  destruct (Py.get d "dialog_history") as [e|dh] eqn:Hdh.
  { rewrite bind_lift_inl in H. inversion H; subst w' r. eapply Continue_prompt_no_dict; eassumption. }
  rewrite bind_lift_inr, bind_requests_post in H.
  eapply Continue_upstream; try eassumption.
  set (seq := sequence_request dumps dumps_utf8 (continue_image_row novel_content)
                               (JStr (continue_query request)) dh) in *.
  destruct (Z.eqb_spec (status_code (post seq)) 200) as [Hcode|Hcode]; simpl in H.
  2: { inversion H; subst w' r. apply Continue_timeout. assumption. }
  rewrite bind_response_json in H.
  destruct (loads (body (post seq))) as [rj|] eqn:Hrj.
  2: { inversion H; subst w' r. apply Continue_sequence_no_json; assumption. }
  destruct (Py.pop rj "caption") as [e|[cap rj1]] eqn:P1.
  { rewrite bind_lift_inl in H. inversion H; subst w' r.
    eapply Continue_sequence_bad_json; try eassumption.
    unfold parse_sequence. rewrite P1. reflexivity. }
  rewrite bind_lift_inr in H.
  destruct (Py.pop rj1 "korean_answer") as [e|[story rj2]] eqn:P2.
  { rewrite bind_lift_inl in H. inversion H; subst w' r.
    eapply Continue_sequence_bad_json; try eassumption.
    unfold parse_sequence. rewrite P1, P2. reflexivity. }
  rewrite bind_lift_inr in H.
  destruct (Py.pop rj2 "dialog_history") as [e|[dh' rj3]] eqn:P3.
  { rewrite bind_lift_inl in H. inversion H; subst w' r.
    eapply Continue_sequence_bad_json; try eassumption.
    unfold parse_sequence. rewrite P1, P2, P3. reflexivity. }
  rewrite bind_lift_inr in H.
  assert (parse_sequence rj = inr (cap, story, dh')) as Hparse
      by (unfold parse_sequence; rewrite P1, P2, P3; reflexivity).
  rewrite bind_retrieve_question in H. cbv zeta in H.
  destruct (Z.eqb_spec (status_code (post (question_request dumps dh'))) 200)
    as [Hqcode|Hqcode].
  2: { inversion H; subst w' r. eapply Continue_question_down; eassumption. }
  destruct (loads (body (post (question_request dumps dh')))) as [response2|] eqn:Hq.
  2: { inversion H; subst w' r. eapply Continue_question_no_json; eassumption. }
  unfold NovelContentImage_save, Novel_save, NovelContent_save, get_next_novel_content,
    NovelContent_objects_create in H.
  rewrite !bind_modify, bind_bind, bind_gets, bind_bind, bind_modify, bind_ret in H.
  rewrite bind_with_query in H.
  destruct (parse_queries response2) as [e|[[q1 q2] q3]] eqn:Hqueries.
  { inversion H; subst w' r. eapply Continue_no_queries; eassumption. }
  rewrite bind_modify in H. unfold ret in H. inversion H; subst w' r.
  eapply Continue_done; eassumption.
Qed.

End Continue.

(** The tables after a Continue request that went through. *)
Lemma continue_done_tables (dumps : json -> string) (request : ContinueRequest) (w : World)
    (novel : Novel) (novel_content : NovelContent) (cap story response2 q1 q2 q3 : json) :
  continue_target request w novel novel_content ->
  let s := continue_done dumps request w novel novel_content cap story response2 q1 q2 q3 in
  let current := set_chosen_query (set_content novel_content story)
                                  (JStr (continue_query request)) in
  let rewritten := map (fun c => if content_pk c =? content_pk novel_content
                                 then current else c) (contents (db w)) in
  contents s
  = rewritten
    ++ [mkNovelContent (fresh_pk (map content_pk rewritten)) (novel_pk novel)
                       (continue_step request + 1) JNull JNull q1 q2 q3]
  /\ images s
     = images (db w) ++ [set_caption (continue_image_row request w novel_content) cap]
  /\ novels s
     = map (fun n => if novel_pk n =? novel_pk novel
                     then set_prompt novel (dumps response2) else n) (novels (db w))
  /\ stats s = stats (db w) /\ likes s = likes (db w) /\ comments s = comments (db w).
Proof.
  intros Ht. destruct (continue_target_row _ _ _ _ Ht) as (Hn & _ & Hc & _ & Hstep).
  cbv zeta. unfold continue_done, continue_next_created, continue_next, continue_step_written,
    continue_saved. simpl.
  rewrite (save_row_old content_pk
             (set_chosen_query (set_content novel_content story)
                               (JStr (continue_query request)))
             novel_content (contents (db w)) Hc eq_refl).
  rewrite (save_row_old novel_pk (set_prompt novel (dumps response2)) novel
             (novels (db w)) Hn eq_refl).
  rewrite save_row_last by
      (try reflexivity; intros r Hr; apply (fresh_pk_not_in content_pk _ r Hr)).
  rewrite save_row_last by
      (try reflexivity; intros r Hr; apply (fresh_pk_not_in image_pk _ r Hr)).
  simpl. rewrite Hstep. repeat split; reflexivity.
Qed.

(** ** Continue: what a request that went through has written *)

(** C4.  A Continue request on step k that is answered 200 has found step
    k of the novel without content; it leaves on step k the story of the
    sequence call for content and the query of the request for
    [chosen_query], appends one row, step k+1 of the novel, without
    content and with the three queries of the question call, and answers
    with k, the number of the step that has just received its content,
    for [step].  The query of the request need not be one of the three of
    step k for any of this. *)
Theorem continue_writes_step_and_next
    (DEV : bool) (dumps dumps_utf8 : json -> string) (loads : string -> option json)
    (post : AIRequest -> HttpResponse) (storage_url : string -> string)
    (request : ContinueRequest) (w w' : World) (response : Response) :
  NovelContinueAPI_post DEV dumps dumps_utf8 loads post storage_url request w
  = (w', inr response) ->
  resp_status response = HTTP_200_OK ->
  exists (novel : Novel) (step_k current next : NovelContent)
         (d dh sequence_json cap story dh' response2 : json),
    find (fun n => novel_pk n =? continue_novel_id request) (novels (db w)) = Some novel
    /\ In step_k (contents (db w))
    /\ content_novel step_k = novel_pk novel /\ step step_k = continue_step request
    /\ loads (prompt novel) = Some d /\ Py.get d "dialog_history" = inr dh
    /\ loads (body (post (sequence_request dumps dumps_utf8
                            (continue_image_row request w step_k)
                            (JStr (continue_query request)) dh)))
       = Some sequence_json
    /\ parse_sequence sequence_json = inr (cap, story, dh')
    /\ loads (body (post (question_request dumps dh'))) = Some response2
    /\ contents (db w')
       = map (fun c => if content_pk c =? content_pk step_k then current else c)
             (contents (db w))
         ++ [next]
    /\ current = set_chosen_query (set_content step_k story) (JStr (continue_query request))
    /\ step current = continue_step request
    /\ chosen_query current = JStr (continue_query request)
    /\ content current = story
    /\ content_novel next = novel_pk novel
    /\ step next = continue_step request + 1
    /\ content next = JNull /\ chosen_query next = JNull
    /\ Py.get response2 "query1" = inr (query1 next)
    /\ Py.get response2 "query2" = inr (query2 next)
    /\ Py.get response2 "query3" = inr (query3 next)
    /\ Py.get (resp_data response) "step" = inr (JNum (continue_step request))
    /\ Py.get (resp_data response) "story" = inr story.
Proof.
  intros H Hstatus. apply continue_run in H.
  inversion H as [| | | |novel novel_content d dh w0 r0 Ht Hdev Hd Hdh Hup]; subst.
  inversion Hup as [| | | | | |rj cap story dh' response2 q1 q2 q3 Hc Hrj Hparse Hqc Hq Hqs];
    subst; try discriminate.
  destruct (continue_target_row _ _ _ _ Ht) as (Hn & Hid & Hrow & Hnovel & Hstep).
  destruct (continue_done_tables dumps request w novel novel_content cap story response2
              q1 q2 q3 Ht) as (Hcontents & _).
  destruct Ht as (Hfind & _ & Hnull).
  unfold parse_queries in Hqs.
  destruct (Py.get response2 "query1") as [e1|q1'] eqn:G1;
    destruct (Py.get response2 "query2") as [e2|q2'] eqn:G2;
    destruct (Py.get response2 "query3") as [e3|q3'] eqn:G3; try discriminate.
  inversion Hqs; subst.
  exists novel, novel_content,
    (set_chosen_query (set_content novel_content story) (JStr (continue_query request))).
  eexists. exists d, dh, rj, cap, story, dh', response2.
  split; [assumption|]. do 3 (split; [assumption|]). do 2 (split; [assumption|]).
  split; [exact Hrj|]. split; [assumption|]. split; [assumption|].
  split; [exact Hcontents|]. split; [reflexivity|].
  simpl. rewrite Hstep. repeat split; reflexivity || assumption.
Qed.

Lemma continue_writes_step_and_next_witness :
  exists current next,
    contents (db gull_world)
    = [mkNovelContent 1 1 1 (JStr "A storm gathered over the bay.") JNull JNull JNull JNull;
       current; next]
    /\ step current = 2 /\ chosen_query current = JStr "Where is the boat going?"
    /\ step next = 3.
Proof.
  destruct (continue_writes_step_and_next false Json.dumps Json.dumps Json.loads ai_server
              media_url gull_request bay_world gull_world
              (continue_response media_url gull_request
                 (mkNovel 1 7 EmptyString 2 DRAFT EmptyString None None)
                 (mkNovelContent 2 1 2 JNull JNull JNull JNull JNull)
                 (JStr "a gull") (JStr "The keeper woke to the cry of a gull.")))
    as (novel & step_k & current & next & d & dh & sj & cap & story & dh' & response2 & H).
  - vm_compute. reflexivity.
  - reflexivity.
  - destruct H as (_ & Hin & _ & Hk & _ & _ & _ & _ & _ & Hcontents & Hcurrent & Hs & Hq & _
                   & _ & Hnext & _).
    exists current, next. split; [|auto].
    rewrite Hcontents. change (continue_step gull_request) with 2 in Hk.
    vm_compute in Hin. destruct Hin as [<-|[<-|[]]]; [discriminate Hk|reflexivity].
Defined.

(** ** Continue: an upstream call that fails *)

(** C3, as stated, fails on the question call: the sequence call is
    answered 200, the question call 500, and the view raises
    [RequestAIServerError] where the claim has a 408 response. *)
Lemma continue_question_down_raises :
  let q := question_request Json.dumps
             (JArr [JObj [("role", JStr "assistant"); ("content", JStr "The keeper woke.")]]) in
  sent (fst gull_question_down)
  = sent bay_world
    ++ [sequence_request Json.dumps Json.dumps
          (mkNovelContentImage 3 2 "novel/gull.png" JNull)
          (JStr "Where is the boat going?")
          (JArr [JObj [("role", JStr "assistant"); ("content", JStr "What next?")]]);
        q]
  /\ status_code (ai_server_failing question_url q) = 500
  /\ snd gull_question_down = inl RequestAIServerError
  /\ snd gull_question_down <> inr (mkResponse HTTP_408_REQUEST_TIMEOUT (JObj [])).
Proof. cbv zeta. repeat split; try (vm_compute; reflexivity). vm_compute. discriminate. Qed.

(** C3, amended.  The calls a Continue request makes upstream are the
    sequence call and then the question call.  When the sequence call is
    not answered 200 the view returns the 408 response; when the question
    call is not answered 200 the view raises [RequestAIServerError].  In
    both cases no step and no novel is written: the tables of steps and
    of novels are as before the request, and the store differs from it
    by the image row the serializer attached to the step, which stays. *)
Theorem continue_upstream_failure
    (DEV : bool) (dumps dumps_utf8 : json -> string) (loads : string -> option json)
    (post : AIRequest -> HttpResponse) (storage_url : string -> string)
    (request : ContinueRequest) (w w' : World) (r : exn + Response) :
  NovelContinueAPI_post DEV dumps dumps_utf8 loads post storage_url request w = (w', r) ->
  exists calls,
    sent w' = sent w ++ calls
    /\ forall x, In x calls -> status_code (post x) <> 200 ->
         contents (db w') = contents (db w)
         /\ novels (db w') = novels (db w)
         /\ (exists step_k,
                In step_k (contents (db w))
                /\ db w' = with_images (fun t => t ++ [continue_image_row request w step_k])
                                       (db w))
         /\ ((req_url x = sequence_url
              /\ r = inr (mkResponse HTTP_408_REQUEST_TIMEOUT (JObj [])))
             \/ (req_url x = question_url /\ r = inl RequestAIServerError)).
Proof.
  intros H. apply continue_run in H.
  inversion H as [| | | |novel novel_content d dh w0 r0 Ht Hdev Hd Hdh Hup]; subst;
    try (exists []; rewrite app_nil_r; split; [reflexivity | intros x []]).
  destruct (continue_target_row _ _ _ _ Ht) as (_ & _ & Hrow & _).
  inversion Hup; subst; simpl.
  - eexists. split; [reflexivity|]. intros x [<-|[]] Hx.
    repeat split; try reflexivity; eauto.
  - eexists. split; [reflexivity|]. intros x [<-|[]] Hx. contradiction.
  - eexists. split; [reflexivity|]. intros x [<-|[]] Hx. contradiction.
  - eexists. split; [rewrite <- app_assoc; reflexivity|].
    intros x [<-|[<-|[]]] Hx; [contradiction|].
    repeat split; try reflexivity; eauto.
  - eexists. split; [rewrite <- app_assoc; reflexivity|].
    intros x [<-|[<-|[]]] Hx; contradiction.
  - eexists. split; [rewrite <- app_assoc; reflexivity|].
    intros x [<-|[<-|[]]] Hx; contradiction.
  - eexists. split; [rewrite <- app_assoc; reflexivity|].
    intros x [<-|[<-|[]]] Hx; contradiction.
Qed.

Lemma continue_upstream_failure_witness :
  exists calls,
    sent (fst gull_sequence_down) = sent bay_world ++ calls
    /\ forall x, In x calls -> status_code (ai_server_failing sequence_url x) <> 200 ->
         contents (db (fst gull_sequence_down)) = contents (db bay_world)
         /\ novels (db (fst gull_sequence_down)) = novels (db bay_world)
         /\ (exists step_k,
                In step_k (contents (db bay_world))
                /\ db (fst gull_sequence_down)
                   = with_images (fun t => t ++ [continue_image_row gull_request bay_world step_k])
                                 (db bay_world))
         /\ ((req_url x = sequence_url
              /\ snd gull_sequence_down = inr (mkResponse HTTP_408_REQUEST_TIMEOUT (JObj [])))
             \/ (req_url x = question_url
                 /\ snd gull_sequence_down = inl RequestAIServerError)).
Proof.
  apply (continue_upstream_failure false Json.dumps Json.dumps Json.loads
           (ai_server_failing sequence_url) media_url gull_request bay_world).
  apply surjective_pairing.
Defined.

(** ** End *)

Section End_.

Variable DEV : bool.
Variable dumps : json -> string.
Variable loads : string -> option json.
Variable post : AIRequest -> HttpResponse.

Variable request : EndRequest.
Variable w : World.

(** The novel of the request and its step, as the view looks them up. *)
Definition end_target (novel : Novel) (novel_content : NovelContent) : Prop :=
  find (fun n => novel_pk n =? end_novel_id request) (novels (db w)) = Some novel
  /\ filter (fun c => (content_novel c =? novel_pk novel) && (step c =? end_step request))
            (contents (db w)) = [novel_content].

Definition end_prompt_saved (novel : Novel) (d : json) : Store :=
  with_novels (save_row novel_pk (set_prompt novel (dumps d))) (db w).

Definition end_done (novel : Novel) (novel_content : NovelContent) (d answer : json)
  : Store :=
  with_contents (save_row content_pk (set_content novel_content answer))
                (end_prompt_saved novel d).

(** Every way an End request can go. *)
Inductive end_outcome : World -> exn + Response -> Prop :=
| End_invalid :
    find (fun n => novel_pk n =? end_novel_id request) (novels (db w)) = None ->
    end_outcome w (inl ValidationError)
| End_no_step (novel : Novel) :
    find (fun n => novel_pk n =? end_novel_id request) (novels (db w)) = Some novel ->
    filter (fun c => (content_novel c =? novel_pk novel) && (step c =? end_step request))
           (contents (db w)) = [] ->
    end_outcome w (inl DoesNotExist)
| End_many_steps (novel : Novel) (c1 c2 : NovelContent) (rows : list NovelContent) :
    find (fun n => novel_pk n =? end_novel_id request) (novels (db w)) = Some novel ->
    filter (fun c => (content_novel c =? novel_pk novel) && (step c =? end_step request))
           (contents (db w)) = c1 :: c2 :: rows ->
    end_outcome w (inl MultipleObjectsReturned)
| End_prompt_no_json (novel : Novel) (novel_content : NovelContent) :
    end_target novel novel_content ->
    loads (prompt novel) = None ->
    end_outcome w (inl JSONDecodeError)
| End_prompt_no_dict (novel : Novel) (novel_content : NovelContent) (d : json) (e : exn) :
    end_target novel novel_content ->
    loads (prompt novel) = Some d ->
    Py.get d "dialog_history" = inl e ->
    end_outcome w (inl e)
| End_dev (novel : Novel) (novel_content : NovelContent) (d dh : json) :
    end_target novel novel_content ->
    loads (prompt novel) = Some d ->
    Py.get d "dialog_history" = inr dh ->
    DEV = true ->
    end_outcome (mkWorld (end_prompt_saved novel d) (sent w)) (inl UnboundLocalError)
| End_no_json (novel : Novel) (novel_content : NovelContent) (d dh : json) :
    end_target novel novel_content ->
    loads (prompt novel) = Some d ->
    Py.get d "dialog_history" = inr dh ->
    DEV = false ->
    loads (body (post (end_request dumps dh))) = None ->
    end_outcome (mkWorld (db w) (sent w ++ [end_request dumps dh])) (inl JSONDecodeError)
| End_upstream_error (novel : Novel) (novel_content : NovelContent) (d dh rj : json) :
    end_target novel novel_content ->
    loads (prompt novel) = Some d ->
    Py.get d "dialog_history" = inr dh ->
    DEV = false ->
    loads (body (post (end_request dumps dh))) = Some rj ->
    status_code (post (end_request dumps dh)) <> 200 ->
    end_outcome (mkWorld (db w) (sent w ++ [end_request dumps dh]))
                (inl RequestAIServerError)
| End_answer_no_dict (novel : Novel) (novel_content : NovelContent) (d dh rj : json)
    (e : exn) :
    end_target novel novel_content ->
    loads (prompt novel) = Some d ->
    Py.get d "dialog_history" = inr dh ->
    DEV = false ->
    loads (body (post (end_request dumps dh))) = Some rj ->
    status_code (post (end_request dumps dh)) = 200 ->
    Py.get rj "korean_answer" = inl e ->
    end_outcome (mkWorld (end_prompt_saved novel d) (sent w ++ [end_request dumps dh]))
                (inl e)
| End_done (novel : Novel) (novel_content : NovelContent) (d dh rj answer : json) :
    end_target novel novel_content ->
    loads (prompt novel) = Some d ->
    Py.get d "dialog_history" = inr dh ->
    DEV = false ->
    loads (body (post (end_request dumps dh))) = Some rj ->
    status_code (post (end_request dumps dh)) = 200 ->
    Py.get rj "korean_answer" = inr answer ->
    end_outcome (mkWorld (end_done novel novel_content d answer)
                         (sent w ++ [end_request dumps dh]))
                (inr (mkResponse HTTP_200_OK
                        (JObj [("id", JNum (novel_pk novel)); ("story", answer)]))).

Theorem end_run (w' : World) (r : exn + Response) :
  NovelEndAPI_post DEV dumps loads post request w = (w', r) -> end_outcome w' r.
Proof.
  unfold NovelEndAPI_post, NovelEndSerializer_validate, NovelContent_objects_get.
  intros H. rewrite bind_bind, bind_gets in H.
  destruct (find (fun n => novel_pk n =? end_novel_id request) (novels (db w)))
    as [novel|] eqn:Hn.
  2: { rewrite bind_raise in H. inversion H; subst w' r. apply End_invalid. assumption. }
  rewrite bind_ret, bind_bind, bind_gets in H.
  destruct (filter (fun c => (content_novel c =? novel_pk novel)
                             && (step c =? end_step request)) (contents (db w)))
    as [|novel_content [|c2 rows]] eqn:Hrows.
  { rewrite bind_raise in H. inversion H; subst w' r.
    eapply End_no_step; eassumption. }
  2: { rewrite bind_raise in H. inversion H; subst w' r.
       eapply End_many_steps; eassumption. }
  rewrite bind_ret in H.
  assert (end_target novel novel_content) as Ht by (split; assumption).
  destruct (loads (prompt novel)) as [d|] eqn:Hd.
  2: { inversion H; subst w' r. eapply End_prompt_no_json; eassumption. }
  destruct (Py.get d "dialog_history") as [e|dh] eqn:Hdh.
  { rewrite bind_lift_inl in H. inversion H; subst w' r.
    eapply End_prompt_no_dict; eassumption. }
  rewrite bind_lift_inr in H.
  destruct DEV eqn:Hdev.
  { rewrite bind_ret in H. unfold Novel_save in H. rewrite bind_modify in H.
    inversion H; subst w' r. eapply End_dev; eassumption. }
  rewrite !bind_bind, bind_requests_post in H.
  rewrite bind_bind, bind_response_json in H.
  destruct (loads (body (post (end_request dumps dh)))) as [rj|] eqn:Hrj.
  2: { inversion H; subst w' r. eapply End_no_json; eassumption. }
  destruct (Z.eqb_spec (status_code (post (end_request dumps dh))) 200) as [Hcode|Hcode];
    simpl in H.
  2: { rewrite bind_raise in H. inversion H; subst w' r.
       eapply End_upstream_error; eassumption. }
  rewrite bind_ret in H. unfold Novel_save, NovelContent_save in H.
  rewrite bind_modify in H.
  destruct (Py.get rj "korean_answer") as [e|answer] eqn:Hanswer.
  { rewrite bind_lift_inl in H. inversion H; subst w' r.
    eapply End_answer_no_dict; eassumption. }
  rewrite bind_lift_inr, bind_modify in H. unfold ret in H. inversion H; subst w' r.
  eapply End_done; eassumption.
Qed.

End End_.

Lemma find_replace {R : Type} (pk : R -> Z) (k : Z) (x x0 : R) (l : list R) :
  find (fun r => pk r =? k) l = Some x0 -> pk x = k ->
  find (fun r => pk r =? k) (map (fun r => if pk r =? k then x else r) l) = Some x.
Proof.
  intros H E. induction l as [|a l IH]; simpl in *; [discriminate|].
  destruct (pk a =? k) eqn:Ea.
  - rewrite E, Z.eqb_refl. reflexivity.
  - rewrite Ea. apply IH. assumption.
Qed.

Lemma In_replace {R : Type} (pk : R -> Z) (k : Z) (x y : R) (l : list R) :
  In y (map (fun r => if pk r =? k then x else r) l) -> pk y = k -> pk x = k -> y = x.
Proof.
  intros H Ey Ex. apply in_map_iff in H. destruct H as (r & Hr & _).
  destruct (Z.eqb_spec (pk r) k) as [E|E]; [congruence|]. subst y. contradiction.
Qed.

Lemma end_target_row (request : EndRequest) (w : World) (novel : Novel)
    (novel_content : NovelContent) :
  end_target request w novel novel_content ->
  In novel (novels (db w)) /\ novel_pk novel = end_novel_id request
  /\ In novel_content (contents (db w))
  /\ content_novel novel_content = novel_pk novel
  /\ step novel_content = end_step request.
Proof.
  intros (Hn & Hc). apply find_some in Hn. destruct Hn as [Hn En]. apply Z.eqb_eq in En.
  assert (In novel_content
            (filter (fun c => (content_novel c =? novel_pk novel)
                              && (step c =? end_step request)) (contents (db w)))) as Hin
      by (rewrite Hc; left; reflexivity).
  apply filter_In in Hin. destruct Hin as [Hin Ec].
  apply andb_true_iff in Ec. destruct Ec as [E1 E2].
  apply Z.eqb_eq in E1. apply Z.eqb_eq in E2. auto.
Qed.

(** ** End: the content of the step and the prompt of the novel *)

(** C9.  Where [loads] reads back what [dumps] writes of the values of
    the stored prompts, an End request that is answered has found the
    step of the request, has written the [korean_answer] of the end call
    over its content, and has saved on the novel the serialization of the
    very value that [loads] gave for its prompt: the novel of the request
    has, after as before, a prompt that reads as that value, and its
    status is the one it had. *)
Theorem end_overwrites_content_and_keeps_prompt
    (DEV : bool) (dumps : json -> string) (loads : string -> option json)
    (post : AIRequest -> HttpResponse)
    (request : EndRequest) (w w' : World) (response : Response) :
  (forall n v, In n (novels (db w)) -> loads (prompt n) = Some v ->
               loads (dumps v) = Some v) ->
  NovelEndAPI_post DEV dumps loads post request w = (w', inr response) ->
  exists (novel : Novel) (step_k : NovelContent) (d dh end_json answer : json),
    find (fun n => novel_pk n =? end_novel_id request) (novels (db w)) = Some novel
    /\ In step_k (contents (db w))
    /\ content_novel step_k = novel_pk novel /\ step step_k = end_step request
    /\ loads (prompt novel) = Some d
    /\ Py.get d "dialog_history" = inr dh
    /\ status_code (post (end_request dumps dh)) = 200
    /\ loads (body (post (end_request dumps dh))) = Some end_json
    /\ Py.get end_json "korean_answer" = inr answer
    /\ contents (db w')
       = map (fun c => if content_pk c =? content_pk step_k
                       then set_content step_k answer else c) (contents (db w))
    /\ novels (db w')
       = map (fun n => if novel_pk n =? novel_pk novel
                       then set_prompt novel (dumps d) else n) (novels (db w))
    /\ find (fun n => novel_pk n =? end_novel_id request) (novels (db w'))
       = Some (set_prompt novel (dumps d))
    /\ (forall n', In n' (novels (db w')) -> novel_pk n' = end_novel_id request ->
                   prompt n' = dumps d
                   /\ loads (prompt n') = loads (prompt novel)
                   /\ status n' = status novel)
    /\ response = mkResponse HTTP_200_OK
                    (JObj [("id", JNum (novel_pk novel)); ("story", answer)]).
Proof.
  intros Hcodec H. apply end_run in H.
  inversion H as [| | | | | | | | |novel novel_content d dh rj answer Ht Hd Hdh Hdev Hrj Hcode Ha];
    subst.
  destruct (end_target_row _ _ _ _ Ht) as (Hn & Hid & Hrow & Hnovel & Hstep).
  assert (novels (end_done dumps w novel novel_content d answer)
          = map (fun n => if novel_pk n =? novel_pk novel
                          then set_prompt novel (dumps d) else n) (novels (db w))) as Hnovels.
  { unfold end_done, end_prompt_saved. simpl.
    apply (save_row_old novel_pk (set_prompt novel (dumps d)) novel); [assumption|reflexivity]. }
  exists novel, novel_content, d, dh, rj, answer.
  destruct Ht as (Hfind & _).
  do 9 (split; [assumption|]).
  split.
  { unfold end_done, end_prompt_saved. simpl.
    apply (save_row_old content_pk (set_content novel_content answer) novel_content);
      [assumption|reflexivity]. }
  split; [exact Hnovels|].
  split.
  { cbn [db]. rewrite Hnovels. rewrite <- Hid.
    apply (find_replace novel_pk (novel_pk novel) _ novel); [|reflexivity].
    rewrite Hid. assumption. }
  split; [|reflexivity].
  intros n' Hin Hpk. cbn [db] in Hin. rewrite Hnovels in Hin.
  apply (In_replace novel_pk (novel_pk novel)) in Hin; [|congruence|reflexivity].
  subst n'. simpl. rewrite Hd. repeat split.
  apply (Hcodec novel d Hn Hd).
Qed.

Lemma end_overwrites_content_and_keeps_prompt_witness :
  exists answer n,
    snd calm_run = inr (mkResponse HTTP_200_OK (JObj [("id", JNum 1); ("story", answer)]))
    /\ novels (db (fst calm_run)) = [n]
    /\ novels (db gull_world) = [n].
Proof.
  destruct (end_overwrites_content_and_keeps_prompt false Json.dumps Json.loads ai_server
              calm_request gull_world (fst calm_run)
              (mkResponse HTTP_200_OK
                 (JObj [("id", JNum 1);
                        ("story", JStr "By morning the sea was calm again.")])))
    as (novel & step_k & d & dh & rj & answer & H).
  - intros n v Hin Hv. vm_compute in Hin. destruct Hin as [<-|[]].
    vm_compute in Hv. inversion Hv; subst v. vm_compute. reflexivity.
  - vm_compute. reflexivity.
  - exists (JStr "By morning the sea was calm again.").
    eexists. split; [vm_compute; reflexivity|]. split; vm_compute; reflexivity.
Defined.

(** ** Start and End: an upstream call that fails *)

(** C6.  The end call is answered 500 with a body that is no JSON: the
    view calls [response.json()] before it looks at the status code, and
    what leaves it is the [JSONDecodeError] of the body, not
    [RequestAIServerError].  The store is left as it was. *)
Theorem end_call_down_raises_json_error :
  let dh := JArr [JObj [("role", JStr "assistant"); ("content", JStr "What next?")]] in
  sent (fst calm_end_down) = sent gull_world ++ [end_request Json.dumps dh]
  /\ ai_server_failing end_url (end_request Json.dumps dh)
     = mkHttpResponse 500 "Internal Server Error"
  /\ snd calm_end_down = inl JSONDecodeError
  /\ db (fst calm_end_down) = db gull_world.
Proof. cbv zeta. repeat split; vm_compute; reflexivity. Qed.

(** An end call that is not answered 200 leaves the store as it was; the
    view raises [RequestAIServerError] when the body is JSON and the
    [JSONDecodeError] of the body when it is not. *)
Lemma end_upstream_failure
    (DEV : bool) (dumps : json -> string) (loads : string -> option json)
    (post : AIRequest -> HttpResponse)
    (request : EndRequest) (w w' : World) (r : exn + Response) :
  NovelEndAPI_post DEV dumps loads post request w = (w', r) ->
  exists calls,
    sent w' = sent w ++ calls
    /\ forall x, In x calls -> status_code (post x) <> 200 ->
         db w' = db w
         /\ ((loads (body (post x)) = None /\ r = inl JSONDecodeError)
             \/ (loads (body (post x)) <> None /\ r = inl RequestAIServerError)).
Proof.
  intros H. apply end_run in H.
  inversion H; subst;
    try (exists []; rewrite app_nil_r; split; [reflexivity | intros x []]);
    (eexists; split; [reflexivity|]; intros x [<-|[]] Hx); simpl.
  - split; [reflexivity|]. left. auto.
  - split; [reflexivity|]. right. split; [congruence|reflexivity].
  - contradiction.
  - contradiction.
Qed.

(** The calls a Start request makes upstream are the start call and then
    the question call; when one of them is not answered 200 the view
    raises [RequestAIServerError], and the store is the one the serializer
    left: the new novel, a DRAFT, its first step and the images. *)
Lemma start_upstream_failure
    (DEV DEMO : bool) (dumps : json -> string) (loads : string -> option json)
    (post : AIRequest -> HttpResponse) (storage_url : string -> string)
    (genre_of_form : string -> option Z) (request : StartRequest) (w w' : World)
    (r : exn + Response) :
  NovelStartAPI_post DEV DEMO dumps loads post storage_url genre_of_form request w = (w', r) ->
  exists calls,
    sent w' = sent w ++ calls
    /\ forall x, In x calls -> status_code (post x) <> 200 ->
         r = inl RequestAIServerError
         /\ exists g, db w' = db (start_saved request w g)
                      /\ status (start_novel request w g) = DRAFT.
Proof.
  unfold NovelStartAPI_post. intros H.
  destruct (DEMO && negb (String.eqb (nickname (start_user request)) "DEMO용")).
  { inversion H; subst. exists []. rewrite app_nil_r. split; [reflexivity|intros x []]. }
  destruct (NovelStartSerializer_save genre_of_form request w)
    as [w1 [e|[[novel novel_content] imgs]]] eqn:Es.
  { rewrite (bind_fail _ _ _ _ _ Es) in H. inversion H; subst.
    apply start_save_fails in Es. subst.
    exists []. rewrite app_nil_r. split; [reflexivity|intros x []]. }
  rewrite (bind_run _ _ _ _ _ Es) in H. apply start_save_ok in Es.
  destruct Es as (g & Hg & Hfiles & -> & -> & -> & ->).
  destruct DEV.
  { inversion H; subst. exists []. rewrite app_nil_r. split; [reflexivity|intros x []]. }
  rewrite bind_requests_post in H.
  set (start := start_request request (start_images_rows request w)) in *.
  assert (forall w0 (r0 : exn + Response),
             (w0, r0) = (w', r) -> sent w0 = sent w ++ [start] ->
             status_code (post start) = 200 ->
             exists calls,
               sent w' = sent w ++ calls
               /\ forall x, In x calls -> status_code (post x) <> 200 ->
                    r = inl RequestAIServerError
                    /\ exists g, db w' = db (start_saved request w g)
                                 /\ status (start_novel request w g) = DRAFT) as Hone.
  { intros w0 r0 E Hsent Hcode. inversion E; subst. eexists. split; [eassumption|].
    intros x [<-|[]] Hx. contradiction. }
  destruct (Z.eqb_spec (status_code (post start)) 200) as [Hcode|Hcode]; simpl in H.
  2: { inversion H; subst. eexists. split; [reflexivity|]. intros x [<-|[]] Hx.
       split; [reflexivity|]. exists g. split; reflexivity. }
  rewrite bind_response_json in H.
  destruct (loads (body (post start))) as [rj|]; [|eapply Hone; eauto].
  destruct (Py.pop rj "korean_answer") as [e|[story rj1]];
    [rewrite bind_lift_inl in H; eapply Hone; eauto|rewrite bind_lift_inr in H].
  destruct (Py.pop rj1 "dialog_history") as [e|[dh rj2]];
    [rewrite bind_lift_inl in H; eapply Hone; eauto|rewrite bind_lift_inr in H].
  rewrite bind_retrieve_question in H. cbv zeta in H. cbn [db sent] in H.
  destruct (Z.eqb_spec (status_code (post (question_request dumps dh))) 200) as [Hq|Hq].
  2: { inversion H; subst. eexists. split; [cbn [sent]; rewrite <- app_assoc; reflexivity|].
       intros x [<-|[<-|[]]] Hx; [contradiction|].
       split; [reflexivity|]. exists g. split; reflexivity. }
  assert (forall w0 (r0 : exn + Response),
             (w0, r0) = (w', r) ->
             sent w0 = (sent w ++ [start]) ++ [question_request dumps dh] ->
             exists calls,
               sent w' = sent w ++ calls
               /\ forall x, In x calls -> status_code (post x) <> 200 ->
                    r = inl RequestAIServerError
                    /\ exists g, db w' = db (start_saved request w g)
                                 /\ status (start_novel request w g) = DRAFT) as Htwo.
  { intros w0 r0 E Hsent. inversion E; subst. eexists.
    split; [rewrite Hsent, <- app_assoc; reflexivity|].
    intros x [<-|[<-|[]]] Hx; contradiction. }
  destruct (loads (body (post (question_request dumps dh)))) as [response2|];
    [|eapply Htwo; eauto].
  destruct (Py.pop rj2 "caption") as [e|[cap rj3]];
    [rewrite bind_lift_inl in H; eapply Htwo; eauto|rewrite bind_lift_inr in H].
  destruct (assign_captions cap 0 (start_images_rows request w)) as [e|imgs'];
    [rewrite bind_lift_inl in H; eapply Htwo; eauto|rewrite bind_lift_inr in H].
  unfold NovelContentImage_objects_bulk_update, NovelContent_save, Novel_save,
    get_next_novel_content, NovelContent_objects_create in H.
  rewrite !bind_modify, bind_bind, bind_gets, bind_bind, bind_modify, bind_ret in H.
  rewrite bind_with_query in H.
  destruct (parse_queries response2) as [e|[[q1 q2] q3]]; [eapply Htwo; eauto|].
  rewrite !bind_modify in H. unfold ret in H. eapply Htwo; eauto.
Qed.

(** ** What the prompt of a novel holds, and how it is read *)

(** C10.  A Start or Continue request that is answered 200 leaves in the
    prompt of its novel the serialization of the whole answer of its
    question call, the JSON object the three queries of the next step are
    taken from, not of its [dialog_history] member.  A Continue request
    that is answered, 200 or 408, has read the prompt of its novel and
    has sent the sequence call, and an End request that is answered has
    read the prompt of its novel and has sent the end call and nothing
    else; the sequence call of a Continue request and the end call of an
    End request carry, for [dialog_history], the serialization of the
    [dialog_history] member of the value the stored prompt parses to. *)
Theorem prompt_holds_question_response
    (DEV DEMO : bool) (dumps dumps_utf8 : json -> string) (loads : string -> option json)
    (post : AIRequest -> HttpResponse) (storage_url : string -> string)
    (genre_of_form : string -> option Z) :
  (forall request w w' response,
      NovelStartAPI_post DEV DEMO dumps loads post storage_url genre_of_form request w
      = (w', inr response) ->
      resp_status response = HTTP_200_OK ->
      exists start_json dh response2 n q1 q2 q3,
        loads (body (post (start_request request (start_images_rows request w))))
        = Some start_json
        /\ Py.get start_json "dialog_history" = inr dh
        /\ loads (body (post (question_request dumps dh))) = Some response2
        /\ parse_queries response2 = inr (q1, q2, q3)
        /\ novels (db w') = novels (db w) ++ [n]
        /\ prompt n = dumps response2
        /\ sent w' = sent w ++ [start_request request (start_images_rows request w);
                                question_request dumps dh])
  /\ (forall request w w' response,
         NovelContinueAPI_post DEV dumps dumps_utf8 loads post storage_url request w
         = (w', inr response) ->
         resp_status response = HTTP_200_OK ->
         exists novel step_k d dh sequence_json cap story dh' response2 q1 q2 q3,
           find (fun n => novel_pk n =? continue_novel_id request) (novels (db w))
           = Some novel
           /\ loads (prompt novel) = Some d /\ Py.get d "dialog_history" = inr dh
           /\ loads (body (post (sequence_request dumps dumps_utf8
                                   (continue_image_row request w step_k)
                                   (JStr (continue_query request)) dh)))
              = Some sequence_json
           /\ parse_sequence sequence_json = inr (cap, story, dh')
           /\ loads (body (post (question_request dumps dh'))) = Some response2
           /\ parse_queries response2 = inr (q1, q2, q3)
           /\ find (fun n => novel_pk n =? continue_novel_id request) (novels (db w'))
              = Some (set_prompt novel (dumps response2))
           /\ (forall n', In n' (novels (db w')) ->
                          novel_pk n' = continue_novel_id request ->
                          prompt n' = dumps response2)
           /\ sent w' = sent w ++ [sequence_request dumps dumps_utf8
                                     (continue_image_row request w step_k)
                                     (JStr (continue_query request)) dh;
                                   question_request dumps dh'])
  /\ (forall request w w' r,
         NovelContinueAPI_post DEV dumps dumps_utf8 loads post storage_url request w
         = (w', r) ->
         exists calls,
           sent w' = sent w ++ calls
           /\ (forall x, In x calls -> req_url x = sequence_url ->
                 exists novel d dh,
                   find (fun n => novel_pk n =? continue_novel_id request) (novels (db w))
                   = Some novel
                   /\ loads (prompt novel) = Some d
                   /\ Py.get d "dialog_history" = inr dh
                   /\ req_data x
                      = [("previous_question", dumps_utf8 (JStr (continue_query request)));
                         ("dialog_history", dumps dh)])
           /\ (forall response, r = inr response ->
                 exists novel step_k d dh,
                   find (fun n => novel_pk n =? continue_novel_id request) (novels (db w))
                   = Some novel
                   /\ loads (prompt novel) = Some d
                   /\ Py.get d "dialog_history" = inr dh
                   /\ In (sequence_request dumps dumps_utf8
                            (continue_image_row request w step_k)
                            (JStr (continue_query request)) dh) calls))
  /\ (forall request w w' r,
         NovelEndAPI_post DEV dumps loads post request w = (w', r) ->
         exists calls,
           sent w' = sent w ++ calls
           /\ (forall x, In x calls ->
                 exists novel d dh,
                   find (fun n => novel_pk n =? end_novel_id request) (novels (db w))
                   = Some novel
                   /\ loads (prompt novel) = Some d
                   /\ Py.get d "dialog_history" = inr dh
                   /\ req_url x = end_url
                   /\ req_data x = [("dialog_history", dumps dh)])
           /\ (forall response, r = inr response ->
                 exists novel d dh,
                   find (fun n => novel_pk n =? end_novel_id request) (novels (db w))
                   = Some novel
                   /\ loads (prompt novel) = Some d
                   /\ Py.get d "dialog_history" = inr dh
                   /\ calls = [end_request dumps dh])).
Proof.
  split; [|split; [|split]].
  - intros request w w' response H Hstatus.
    destruct (start_ok _ _ _ _ _ _ _ _ _ _ _ H Hstatus) as [t R]. destruct R.
    destruct (pop_ok _ _ _ _ run_pop_story0) as (m & Em & _ & E1).
    destruct (pop_ok _ _ _ _ run_pop_dialog0) as (m1 & Em1 & Hdialog & _).
    rewrite E1 in Em1. inversion Em1; subst m1.
    rewrite lookup_remove_other in Hdialog by discriminate.
    exists (run_json t), (run_dialog_history t), (run_response2 t).
    eexists. exists (run_q1 t), (run_q2 t), (run_q3 t).
    split; [assumption|]. split; [rewrite Em; simpl; rewrite Hdialog; reflexivity|].
    split; [assumption|].
    split; [unfold parse_queries; rewrite run_get_q4, run_get_q5, run_get_q6; reflexivity|].
    split; [eassumption|]. split; [reflexivity|assumption].
  - intros request w w' response H Hstatus. apply continue_run in H.
    inversion H as [| | | |novel novel_content d dh w0 r0 Ht Hdev Hd Hdh Hup]; subst.
    inversion Hup as [| | | | | |rj cap story dh' response2 q1 q2 q3 Hc Hrj Hparse Hqc Hq Hqs];
      subst; try discriminate.
    destruct (continue_target_row _ _ _ _ Ht) as (Hn & Hid & _).
    destruct (continue_done_tables dumps request w novel novel_content cap story response2
                q1 q2 q3 Ht) as (_ & _ & Hnovels & _).
    destruct Ht as (Hfind & _).
    exists novel, novel_content, d, dh, rj, cap, story, dh', response2, q1, q2, q3.
    do 7 (split; [assumption|]). cbn [db sent]. rewrite Hnovels. split; [|split].
    + rewrite <- Hid. apply (find_replace novel_pk (novel_pk novel) _ novel); [|reflexivity].
      rewrite Hid. assumption.
    + intros n' Hin Hpk.
      apply (In_replace novel_pk (novel_pk novel)) in Hin; [|congruence|reflexivity].
      subst n'. reflexivity.
    + rewrite <- app_assoc. reflexivity.
  - intros request w w' r H. apply continue_run in H.
    inversion H as [| | | |novel novel_content d dh w0 r0 Ht Hdev Hd Hdh Hup]; subst;
      try (exists []; rewrite app_nil_r; split; [reflexivity|];
           split; [intros x []|intros response E; discriminate E]).
    destruct Ht as (Hfind & _).
    inversion Hup; subst; cbn [sent];
      (eexists; split; [try rewrite <- app_assoc; reflexivity|]); (split;
      [intros x Hx Hurl; simpl in Hx;
       repeat (destruct Hx as [<-|Hx]; [|]); try contradiction; try discriminate Hurl;
       exists novel, d, dh; auto
      |intros response E; try discriminate E;
       exists novel, novel_content, d, dh; repeat split; try assumption;
       left; reflexivity]).
  - intros request w w' r H. apply end_run in H.
    inversion H as [| | | | |novel nc d dh Ht Hd Hdh Hdev
                    |novel nc d dh Ht Hd Hdh Hdev Hrj
                    |novel nc d dh rj Ht Hd Hdh Hdev Hrj Hcode
                    |novel nc d dh rj e Ht Hd Hdh Hdev Hrj Hcode Ha
                    |novel nc d dh rj answer Ht Hd Hdh Hdev Hrj Hcode Ha]; subst;
      try (exists []; rewrite app_nil_r; split; [reflexivity|];
           split; [intros x []|intros response E; discriminate E]);
      destruct Ht as (Hfind & _);
      (eexists; split; [reflexivity|]); (split;
      [intros x [<-|[]]; exists novel, d, dh; auto
      |intros response E; try discriminate E; exists novel, d, dh; auto]).
Qed.

(** ** The operations of the module, as they act on the status of a novel *)

Inductive Op : Type :=
  | Preview (novel_id : Z)
  | Detail (user : User) (novel_id : Z)
  | Destroy (user : User) (novel_id : Z)
  | CommentList (novel_id : Z)
  | CommentCreate (request : CommentRequest)
  | CommentDelete (user : User) (comment_id : Z)
  | Like (request : LikeRequest)
  | Start (post : AIRequest -> HttpResponse) (request : StartRequest)
  | Continue (post : AIRequest -> HttpResponse) (request : ContinueRequest)
  | End (post : AIRequest -> HttpResponse) (request : EndRequest)
  | CoverImage (post : AIRequest -> HttpResponse) (request : CoverImageRequest)
  | Question (novel_id st : Z)
  | Complete (request : CompleteRequest).

Section Operations.

Variable DEV : bool.
Variable DEMO : bool.
Variable dumps : json -> string.
Variable dumps_utf8 : json -> string.
Variable loads : string -> option json.
Variable storage_url : string -> string.
Variable genre_of_form : string -> option Z.
Variable cover_file_name : Z -> string.

(** The world an operation leaves, whatever it answers.  The
    recommendation and the listing read the store and leave it as it
    is. *)
Definition run_op (op : Op) (w : World) : World :=
  match op with
  | Preview novel_id => fst (NovelPreviewAPI_retrieve novel_id w)
  | Detail user novel_id => fst (NovelDetailAPI_retrieve user novel_id w)
  | Destroy user novel_id => fst (NovelDetailAPI_destroy user novel_id w)
  | CommentList novel_id => fst (NovelCommentAPI_get_queryset novel_id w)
  | CommentCreate request => fst (NovelCommentAPI_create request w)
  | CommentDelete user comment_id => fst (NovelCommentDeleteAPI_destroy user comment_id w)
  | Like request => fst (NovelLikeAPI_create request w)
  | Start post request =>
      fst (NovelStartAPI_post DEV DEMO dumps loads post storage_url genre_of_form request w)
  | Continue post request =>
      fst (NovelContinueAPI_post DEV dumps dumps_utf8 loads post storage_url request w)
  | End post request => fst (NovelEndAPI_post DEV dumps loads post request w)
  | CoverImage post request => fst (NovelCoverImageAPI_post post cover_file_name request w)
  | Question novel_id st => fst (NovelQuestionAPI_retrieve novel_id st w)
  | Complete request => fst (NovelCompleteAPI_post request w)
  end.

Fixpoint run (ops : list Op) (w : World) : World :=
  match ops with
  | [] => w
  | op :: ops' => run ops' (run_op op w)
  end.

End Operations.

Section Status.

(** The key of a novel. *)
Variable pk : Z.




(** What a value a view holds may be written back as. *)
Class Ok (A : Type) : Type := ok : A -> Prop.

#[local] Instance Ok_Novel : Ok Novel :=
  fun n => novel_pk n = pk -> status n = FINISHED.
#[local] Instance Ok_option {A : Type} `{Ok A} : Ok (option A) :=
  fun o => forall a, o = Some a -> ok a.
#[local] Instance Ok_list {A : Type} `{Ok A} : Ok (list A) :=
  fun l => forall a, In a l -> ok a.
#[local] Instance Ok_prod {A B : Type} `{Ok A} `{Ok B} : Ok (A * B) :=
  fun p => ok (fst p) /\ ok (snd p).
#[local] Instance Ok_unit : Ok unit := fun _ => True.
#[local] Instance Ok_bool : Ok bool := fun _ => True.
#[local] Instance Ok_Z : Ok Z := fun _ => True.
#[local] Instance Ok_json : Ok json := fun _ => True.
#[local] Instance Ok_NovelContent : Ok NovelContent := fun _ => True.
#[local] Instance Ok_NovelContentImage : Ok NovelContentImage := fun _ => True.
#[local] Instance Ok_NovelStats : Ok NovelStats := fun _ => True.
#[local] Instance Ok_NovelLike : Ok NovelLike := fun _ => True.
#[local] Instance Ok_NovelComment : Ok NovelComment := fun _ => True.
#[local] Instance Ok_HttpResponse : Ok HttpResponse := fun _ => True.
#[local] Instance Ok_Response : Ok Response := fun _ => True.









































Section Step.

Variable DEV : bool.
Variable DEMO : bool.
Variable dumps : json -> string.
Variable dumps_utf8 : json -> string.
Variable loads : string -> option json.
Variable storage_url : string -> string.
Variable genre_of_form : string -> option Z.
Variable cover_file_name : Z -> string.

Let steps := run DEV DEMO dumps dumps_utf8 loads storage_url genre_of_form
                 cover_file_name.




End Step.

End Status.

(** ** The status of a novel *)



Lemma prompt_holds_question_response_witness :
  (exists novel step_k d dh dh',
      find (fun n => novel_pk n =? continue_novel_id gull_request) (novels (db bay_world))
      = Some novel
      /\ Json.loads (prompt novel) = Some d /\ Py.get d "dialog_history" = inr dh
      /\ sent gull_world
         = sent bay_world
           ++ [sequence_request Json.dumps Json.dumps
                 (continue_image_row gull_request bay_world step_k)
                 (JStr (continue_query gull_request)) dh;
               question_request Json.dumps dh'])
  /\ (exists novel d dh,
         find (fun n => novel_pk n =? end_novel_id calm_request) (novels (db gull_world))
         = Some novel
         /\ Json.loads (prompt novel) = Some d /\ Py.get d "dialog_history" = inr dh
         /\ sent (fst calm_run) = sent gull_world ++ [end_request Json.dumps dh]).
Proof.
  destruct (prompt_holds_question_response false false Json.dumps Json.dumps Json.loads
              ai_server media_url genre_field) as (_ & Hcontinue & _ & Hend).
  split.
  - destruct (Hcontinue gull_request bay_world gull_world
                (continue_response media_url gull_request
                   (mkNovel 1 7 EmptyString 2 DRAFT EmptyString None None)
                   (mkNovelContent 2 1 2 JNull JNull JNull JNull JNull)
                   (JStr "a gull") (JStr "The keeper woke to the cry of a gull.")))
      as (novel & step_k & d & dh & sj & cap & story & dh' & response2 & q1 & q2 & q3 & H).
    + vm_compute. reflexivity.
    + reflexivity.
    + exists novel, step_k, d, dh, dh'.
      destruct H as (H1 & H2 & H3 & _ & _ & _ & _ & _ & _ & H10). auto.
  - destruct (Hend calm_request gull_world (fst calm_run) (snd calm_run))
      as (calls & Hsent & _ & Hanswered).
    + apply surjective_pairing.
    + destruct (Hanswered
                  (mkResponse HTTP_200_OK
                     (JObj [("id", JNum 1);
                            ("story", JStr "By morning the sea was calm again.")])))
        as (novel & d & dh & H1 & H2 & H3 & H4).
      * vm_compute. reflexivity.
      * exists novel, d, dh. rewrite Hsent, H4. auto.
Defined.

(** * Further properties of the views *)

From Stdlib Require Import Sorted.

(** ** Hits *)

Lemma stats_row_found (pk : Z) (t : list NovelStats) :
  (exists r, In r t /\ stats_novel r = pk) ->
  exists r, find (fun r => stats_novel r =? pk) t = Some r.
Proof.
  intros (r & Hin & E).
  destruct (find (fun r => stats_novel r =? pk) t) eqn:F; [eauto|].
  exfalso. apply (find_none _ _ F) in Hin. rewrite E, Z.eqb_refl in Hin. discriminate.
Qed.

(** The steps and the images a reader is shown. *)
Definition detail_steps (s : Store) (n : Novel)
  : list (NovelContent * list NovelContentImage) :=
  map (with_images_of s)
      (order_by step (filter (fun c => content_novel c =? novel_pk n) (contents s))).

Definition add_hits (pk k : Z) (r : NovelStats) : NovelStats :=
  if stats_novel r =? pk then set_hit_count r (hit_count r + k) else r.

Lemma detail_run_reader (user : User) (novel_id : Z) (w : World) (n : Novel) :
  find (fun n => novel_pk n =? novel_id) (novels (db w)) = Some n ->
  is_anonymous user = false ->
  (exists r, In r (stats (db w)) /\ stats_novel r = novel_pk n) ->
  NovelDetailAPI_retrieve user novel_id w
  = (mkWorld (with_stats (map (add_hits (novel_pk n) 1)) (db w)) (sent w),
     inr (n, detail_steps (db w) n)).
Proof.
  intros Hfind Hanon Hstats. destruct (stats_row_found _ _ Hstats) as (r & Hr).
  unfold NovelDetailAPI_retrieve, NovelDetailAPI_queryset, get_object_or_404, novel_hit, F_add.
  rewrite bind_gets, Hfind, bind_ret, bind_gets, Hanon, bind_bind, bind_gets, Hr, bind_modify.
  reflexivity.
Qed.

Lemma detail_run_anonymous (user : User) (novel_id : Z) (w : World) (n : Novel) :
  find (fun n => novel_pk n =? novel_id) (novels (db w)) = Some n ->
  is_anonymous user = true ->
  NovelDetailAPI_retrieve user novel_id w = (w, inr (n, detail_steps (db w) n)).
Proof.
  intros Hfind Hanon.
  unfold NovelDetailAPI_retrieve, NovelDetailAPI_queryset, get_object_or_404, novel_hit.
  rewrite bind_gets, Hfind, bind_ret, bind_gets, Hanon, bind_ret. reflexivity.
Qed.

Lemma add_hits_zero (pk : Z) (t : list NovelStats) : map (add_hits pk 0) t = t.
Proof.
  induction t as [|r t IH]; simpl; [reflexivity|]. rewrite IH. f_equal.
  unfold add_hits. destruct (stats_novel r =? pk); [|reflexivity].
  destruct r as [n h l c]. unfold set_hit_count. simpl. f_equal. lia.
Qed.

Lemma add_hits_add (pk a b : Z) (t : list NovelStats) :
  map (add_hits pk b) (map (add_hits pk a) t) = map (add_hits pk (a + b)) t.
Proof.
  induction t as [|r t IH]; simpl; [reflexivity|]. rewrite IH. f_equal.
  unfold add_hits. destruct (stats_novel r =? pk) eqn:E; simpl; rewrite E; [|reflexivity].
  unfold set_hit_count. simpl. f_equal. lia.
Qed.

(** [k] GET requests of the detail of a novel, one after the other. *)
Fixpoint read_times (k : nat) (user : User) (novel_id : Z) (w : World) : World :=
  match k with
  | O => w
  | S k' => read_times k' user novel_id (fst (NovelDetailAPI_retrieve user novel_id w))
  end.

(** X1.  [k] reads of the detail of a novel by a signed-in user add [k]
    to the [hit_count] of the stats row of that novel and change nothing
    else of the store; reads by an anonymous user change nothing at
    all. *)
Theorem reads_count_hits (k : nat) (user : User) (novel_id : Z) (w : World) (n : Novel) :
  find (fun n => novel_pk n =? novel_id) (novels (db w)) = Some n ->
  (exists r, In r (stats (db w)) /\ stats_novel r = novel_pk n) ->
  read_times k user novel_id w
  = if is_anonymous user then w
    else mkWorld (with_stats (map (add_hits (novel_pk n) (Z.of_nat k))) (db w)) (sent w).
Proof.
  revert w. induction k as [|k IH]; intros w Hfind Hstats.
  - simpl. destruct (is_anonymous user); [reflexivity|].
    unfold with_stats. rewrite add_hits_zero. destruct w as [[] ?]; reflexivity.
  - cbn [read_times]. destruct (is_anonymous user) eqn:Hanon.
    + rewrite (detail_run_anonymous user novel_id w n Hfind Hanon). cbn [fst].
      rewrite IH by assumption. reflexivity.
    + rewrite (detail_run_reader user novel_id w n Hfind Hanon Hstats). cbn [fst].
      rewrite IH.
      * unfold with_stats. cbn [db sent novels contents images stats likes comments].
        rewrite add_hits_add. replace (1 + Z.of_nat k) with (Z.of_nat (S k)) by lia.
        reflexivity.
      * exact Hfind.
      * destruct Hstats as (r & Hin & Hr). exists (add_hits (novel_pk n) 1 r). split.
        -- apply (in_map (add_hits (novel_pk n) 1)). exact Hin.
        -- unfold add_hits. destruct (stats_novel r =? novel_pk n); exact Hr.
Qed.

Lemma reads_count_hits_witness :
  stats (db (read_times 3 writer 1 draft_world)) = [mkNovelStats 1 3 0 0]
  /\ read_times 3 anonymous 1 draft_world = draft_world.
Proof.
  split.
  - rewrite (reads_count_hits 3 writer 1 draft_world draft_novel).
    + reflexivity.
    + reflexivity.
    + exists (mkNovelStats 1 0 0 0). simpl. auto.
  - rewrite (reads_count_hits 3 anonymous 1 draft_world draft_novel).
    + reflexivity.
    + reflexivity.
    + exists (mkNovelStats 1 0 0 0). simpl. auto.
Defined.

(** ** The steps of the detail *)

Lemma insert_by_perm {R : Type} (key : R -> Z) (x : R) (l : list R) :
  Permutation (x :: l) (insert_by key x l).
Proof.
  induction l as [|y l IH]; simpl; [reflexivity|].
  destruct (key x <=? key y); [reflexivity|].
  rewrite perm_swap. constructor. exact IH.
Qed.

Lemma order_by_perm {R : Type} (key : R -> Z) (l : list R) :
  Permutation l (order_by key l).
Proof.
  unfold order_by. induction l as [|x l IH]; simpl; [reflexivity|].
  rewrite <- insert_by_perm. constructor. exact IH.
Qed.

Lemma insert_by_sorted {R : Type} (key : R -> Z) (x : R) (l : list R) :
  StronglySorted (fun a b => key a <= key b) l ->
  StronglySorted (fun a b => key a <= key b) (insert_by key x l).
Proof.
  induction 1 as [|y l Hs IH Hy]; simpl.
  - constructor; constructor.
  - destruct (Z.leb_spec (key x) (key y)) as [Hle|Hgt].
    + constructor; [constructor; assumption|].
      constructor; [assumption|].
      eapply Forall_impl; [|exact Hy]. intros a Ha. simpl in Ha. lia.
    + constructor; [assumption|].
      apply (Permutation_Forall (insert_by_perm key x l)).
      constructor; [lia|assumption].
Qed.

Lemma order_by_sorted {R : Type} (key : R -> Z) (l : list R) :
  StronglySorted (fun a b => key a <= key b) (order_by key l).
Proof.
  unfold order_by. induction l as [|x l IH]; simpl; [constructor|].
  apply insert_by_sorted. exact IH.
Qed.

(** X2.  The detail of a novel lists the step rows of that novel, all of
    them and each as often as the table has it, in nondecreasing order of
    [step], each with the image rows attached to it. *)
Theorem detail_lists_steps_in_order (user : User) (novel_id : Z) (w w' : World) (n : Novel)
    (steps : list (NovelContent * list NovelContentImage)) :
  NovelDetailAPI_retrieve user novel_id w = (w', inr (n, steps)) ->
  find (fun n => novel_pk n =? novel_id) (novels (db w)) = Some n
  /\ Permutation (filter (fun c => content_novel c =? novel_pk n) (contents (db w)))
                 (map fst steps)
  /\ StronglySorted (fun a b => step a <= step b) (map fst steps)
  /\ Forall (fun p => snd p = filter (fun i => image_content i =? content_pk (fst p))
                                     (images (db w))) steps.
Proof.
  unfold NovelDetailAPI_retrieve, NovelDetailAPI_queryset, get_object_or_404. intros H.
  rewrite bind_gets in H.
  destruct (find (fun n => novel_pk n =? novel_id) (novels (db w))) as [n0|] eqn:Hfind;
    [|rewrite bind_raise in H; discriminate].
  rewrite bind_ret, bind_gets in H.
  apply bind_ok in H. destruct H as ([] & w1 & _ & H). unfold ret in H. inversion H; subst.
  split; [reflexivity|].
  rewrite map_map. cbn [with_images_of fst]. rewrite map_id.
  split; [apply order_by_perm|]. split; [apply order_by_sorted|].
  apply Forall_forall. intros p Hp. apply in_map_iff in Hp. destruct Hp as (c & <- & _).
  reflexivity.
Qed.

Definition unordered_world : World :=
  mkWorld (mkStore [draft_novel]
                   [mkNovelContent 1 1 3 JNull JNull (JStr "a") (JStr "b") (JStr "c");
                    mkNovelContent 2 1 1 (JStr "Once upon a time") JNull JNull JNull JNull;
                    mkNovelContent 3 1 2 (JStr "a storm came") (JStr "x") (JStr "x") (JStr "y")
                                   (JStr "z")]
                   [mkNovelContentImage 1 2 "novel/a.png" (JStr "a cat");
                    mkNovelContentImage 2 3 "novel/b.png" (JStr "a storm")]
                   [mkNovelStats 1 0 0 0] [] [])
          [].

Lemma detail_lists_steps_in_order_witness :
  StronglySorted (fun a b => step a <= step b)
                 (map fst (detail_steps (db unordered_world) draft_novel))
  /\ map step (map fst (detail_steps (db unordered_world) draft_novel)) = [1; 2; 3].
Proof.
  split; [|reflexivity].
  apply (detail_lists_steps_in_order anonymous 1 unordered_world unordered_world draft_novel).
  apply detail_run_anonymous; reflexivity.
Defined.

(** ** The counter of likes *)

Definition like_rows (pk : Z) (t : list NovelLike) : list NovelLike :=
  filter (fun l => like_novel l =? pk) t.

(** No user likes a novel twice, and every stats row counts the like
    rows of its novel. *)
Definition likes_counted (s : Store) : Prop :=
  NoDup (map (fun l => (like_novel l, like_user l)) (likes s))
  /\ forall r, In r (stats s) ->
               like_count r = Z.of_nat (List.length (like_rows (stats_novel r) (likes s))).

Definition add_likes (pk d : Z) (r : NovelStats) : NovelStats :=
  if stats_novel r =? pk then set_like_count r (like_count r + d) else r.

Lemma add_likes_absent (pk d : Z) (t : list NovelStats) :
  find (fun r => stats_novel r =? pk) t = None -> map (add_likes pk d) t = t.
Proof.
  intros H. apply (map_replace_absent stats_novel pk (fun r => set_like_count r (like_count r + d))).
  intros r Hr E. apply (find_none _ _ H) in Hr. rewrite E, Z.eqb_refl in Hr. discriminate.
Qed.

(** The store a like request leaves. *)
Lemma like_run (request : LikeRequest) (w : World) :
  db (fst (NovelLikeAPI_create request w)) = db w
  \/ exists novel,
       find (fun n => novel_pk n =? like_novel_id request) (novels (db w)) = Some novel
       /\ ((filter (is_like_of novel (like_request_user request)) (likes (db w)) = []
            /\ db (fst (NovelLikeAPI_create request w))
               = with_stats (map (add_likes (novel_pk novel) 1))
                   (with_likes (fun t => t ++ [mkNovelLike (fresh_pk (map like_pk t))
                                                 (novel_pk novel)
                                                 (user_pk (like_request_user request))])
                      (db w)))
           \/ (filter (is_like_of novel (like_request_user request)) (likes (db w)) <> []
               /\ db (fst (NovelLikeAPI_create request w))
                  = with_stats (map (add_likes (novel_pk novel) (-1)))
                      (with_likes
                         (filter (fun l => negb (is_like_of novel (like_request_user request) l)))
                         (db w)))).
Proof.
  unfold NovelLikeAPI_create, NovelLikeAPI_perform_create, NovelLikeAPI_get_novel,
    Novel_objects_get, F_add.
  destruct (like_is_valid request); [|left; reflexivity]. cbn [negb].
  rewrite !bind_bind, bind_gets.
  destruct (find (fun n => novel_pk n =? like_novel_id request) (novels (db w)))
    as [novel|] eqn:Hn; [|left; reflexivity].
  rewrite bind_ret.
  destruct (is_anonymous (like_request_user request)); [left; reflexivity|].
  right. exists novel. split; [reflexivity|].
  rewrite bind_bind, bind_gets.
  destruct (filter (is_like_of novel (like_request_user request)) (likes (db w)))
    as [|l ls] eqn:Hl.
  - left. split; [reflexivity|].
    rewrite !bind_bind, bind_gets, bind_bind, bind_modify, !bind_bind, bind_gets.
    cbn [db stats with_likes].
    destruct (find (fun r => stats_novel r =? novel_pk novel) (stats (db w))) as [r|] eqn:Hr.
    + rewrite bind_modify. reflexivity.
    + rewrite bind_raise. cbn [fst db]. unfold with_stats, with_likes.
      cbn [novels contents images stats likes comments].
      rewrite (add_likes_absent _ _ _ Hr). reflexivity.
  - right. split; [discriminate|].
    rewrite !bind_bind, bind_modify, !bind_bind, bind_gets.
    cbn [db stats with_likes].
    destruct (find (fun r => stats_novel r =? novel_pk novel) (stats (db w))) as [r|] eqn:Hr.
    + rewrite bind_modify. reflexivity.
    + rewrite bind_raise. cbn [fst db]. unfold with_stats, with_likes.
      cbn [novels contents images stats likes comments].
      rewrite (add_likes_absent _ _ _ Hr). reflexivity.
Qed.

Lemma like_rows_app (pk : Z) (t : list NovelLike) (l : NovelLike) :
  List.length (like_rows pk (t ++ [l]))
  = (List.length (like_rows pk t) + (if (like_novel l =? pk)%Z then 1 else 0))%nat.
Proof.
  unfold like_rows. rewrite filter_app, length_app. simpl.
  destruct (like_novel l =? pk); reflexivity.
Qed.

Lemma liked_once (novel : Novel) (user : User) (t : list NovelLike) :
  NoDup (map (fun l => (like_novel l, like_user l)) t) ->
  (List.length (filter (is_like_of novel user) t) <= 1)%nat.
Proof.
  induction t as [|l t IH]; simpl; [lia|]. intros Hnd.
  inversion Hnd as [|? ? Hnot Hnd']; subst. specialize (IH Hnd').
  destruct (is_like_of novel user l) eqn:E; [|exact IH]. simpl.
  replace (filter (is_like_of novel user) t) with (@nil NovelLike); [simpl; lia|].
  symmetry. apply filter_nothing. intros x Hx.
  destruct (is_like_of novel user x) eqn:Ex; [|reflexivity]. exfalso. apply Hnot.
  unfold is_like_of in E, Ex. apply andb_true_iff in E. apply andb_true_iff in Ex.
  destruct E as [E1 E2]. destruct Ex as [X1 X2].
  apply Z.eqb_eq in E1. apply Z.eqb_eq in E2. apply Z.eqb_eq in X1. apply Z.eqb_eq in X2.
  apply in_map_iff. exists x. split; [congruence|assumption].
Qed.

Lemma like_rows_unlike (novel : Novel) (user : User) (pk : Z) (t : list NovelLike) :
  (List.length (like_rows pk t)
   = List.length (like_rows pk (filter (fun l => negb (is_like_of novel user l)) t))
     + (if (novel_pk novel =? pk)%Z
        then List.length (filter (is_like_of novel user) t) else 0))%nat.
Proof.
  unfold like_rows. induction t as [|l t IH]; simpl; [destruct (novel_pk novel =? pk); reflexivity|].
  destruct (is_like_of novel user l) eqn:E; simpl.
  - unfold is_like_of in E. apply andb_true_iff in E. destruct E as [E _].
    apply Z.eqb_eq in E. rewrite E.
    destruct (novel_pk novel =? pk); simpl; lia.
  - destruct (like_novel l =? pk); simpl; lia.
Qed.

Lemma distinct_keys_filter {R K : Type} (key : R -> K) (keep : R -> bool) (rows : list R) :
  NoDup (map key rows) -> NoDup (map key (filter keep rows)).
Proof.
  intros Hnd. induction rows as [|r rows IH]; simpl; [constructor|].
  inversion Hnd as [|? ? Hnot Hnd']; subst.
  destruct (keep r); simpl; [|auto]. constructor; [|auto].
  intros Hin. apply Hnot. apply in_map_iff in Hin. destruct Hin as (x & E & Hx).
  apply filter_In in Hx. apply in_map_iff. exists x. tauto.
Qed.

Lemma likes_counted_kept (request : LikeRequest) (w : World) :
  likes_counted (db w) -> likes_counted (db (fst (NovelLikeAPI_create request w))).
Proof.
  intros [Hnd Hcount].
  destruct (like_run request w) as [->|(novel & Hn & [[Habs ->]|[Hpres ->]])];
    [split; assumption| |].
  - unfold with_stats, with_likes. split; cbn [likes stats].
    + rewrite map_app. cbn [map like_novel like_user].
      apply Permutation_NoDup with
        (l := (novel_pk novel, user_pk (like_request_user request))
                :: map (fun l => (like_novel l, like_user l)) (likes (db w))).
      * apply Permutation_cons_append.
      * constructor; [|assumption]. intros Hin. apply in_map_iff in Hin.
        destruct Hin as (l & E & Hl). inversion E as [[E1 E2]].
        assert (In l (filter (is_like_of novel (like_request_user request)) (likes (db w))))
          as Hf.
        { apply filter_In. split; [assumption|]. unfold is_like_of.
          rewrite E1, E2, !Z.eqb_refl. reflexivity. }
        rewrite Habs in Hf. destruct Hf.
    + intros r Hr. apply in_map_iff in Hr. destruct Hr as (r0 & <- & Hr0).
      specialize (Hcount r0 Hr0). unfold add_likes.
      destruct (Z.eqb_spec (stats_novel r0) (novel_pk novel)) as [E|E].
      * cbn [set_like_count like_count stats_novel]. rewrite like_rows_app. cbn [like_novel].
        rewrite E, Z.eqb_refl. rewrite E in Hcount. lia.
      * rewrite like_rows_app. cbn [like_novel].
        replace (novel_pk novel =? stats_novel r0) with false
          by (symmetry; apply Z.eqb_neq; congruence).
        lia.
  - unfold with_stats, with_likes. split; cbn [likes stats].
    + apply distinct_keys_filter. assumption.
    + intros r Hr. apply in_map_iff in Hr. destruct Hr as (r0 & <- & Hr0).
      specialize (Hcount r0 Hr0).
      pose proof (like_rows_unlike novel (like_request_user request) (stats_novel r0)
                    (likes (db w))) as Hsplit.
      pose proof (liked_once novel (like_request_user request) (likes (db w)) Hnd) as Hone.
      assert (List.length (filter (is_like_of novel (like_request_user request))
                                  (likes (db w))) = 1%nat) as Hlen.
      { destruct (filter (is_like_of novel (like_request_user request)) (likes (db w)));
          [contradiction|simpl in *; lia]. }
      rewrite Hlen in Hsplit. unfold add_likes.
      destruct (Z.eqb_spec (stats_novel r0) (novel_pk novel)) as [E|E].
      * cbn [set_like_count like_count stats_novel].
        rewrite E in Hsplit, Hcount |- *. rewrite Z.eqb_refl in Hsplit. lia.
      * replace (novel_pk novel =? stats_novel r0) with false in Hsplit
          by (symmetry; apply Z.eqb_neq; congruence).
        lia.
Qed.

Fixpoint like_all (requests : list LikeRequest) (w : World) : World :=
  match requests with
  | [] => w
  | request :: rest => like_all rest (fst (NovelLikeAPI_create request w))
  end.

(** X3. Whatever like requests arrive (valid or not, for any novel, by
    any user, created or toggled off, with or without a stats row), if
    every stats row counted the like rows of its novel and no user
    liked a novel twice, the same holds afterwards: like_count is the
    number of like rows of the novel, so it is never negative. *)
Theorem like_count_counts_likes (requests : list LikeRequest) (w : World) :
  likes_counted (db w) ->
  likes_counted (db (like_all requests w))
  /\ Forall (fun r => 0 <= like_count r) (stats (db (like_all requests w))).
Proof.
  intros H.
  assert (likes_counted (db (like_all requests w))) as Hk.
  { revert w H. induction requests as [|request rest IH]; intros w H; [exact H|].
    simpl. apply IH. apply likes_counted_kept. exact H. }
  split; [exact Hk|]. apply Forall_forall. intros r Hr.
  rewrite (proj2 Hk r Hr). lia.
Qed.

Lemma like_count_counts_likes_witness :
  likes_counted (db (like_all [like_request; like_request; like_request] like_world))
  /\ Forall (fun r => 0 <= like_count r)
            (stats (db (like_all [like_request; like_request; like_request] like_world))).
Proof.
  apply (like_count_counts_likes [like_request; like_request; like_request] like_world).
  split; [constructor|].
  intros r [<-|[]]. reflexivity.
Defined.

(** ** The counter of comments *)

Definition comment_rows (pk : Z) (t : list NovelComment) : list NovelComment :=
  filter (fun c => comment_novel c =? pk) t.

(** Comments have distinct keys, every stats row belongs to a novel of
    the store and counts the comments of that novel. *)
Definition comments_counted (s : Store) : Prop :=
  NoDup (map comment_pk (comments s))
  /\ (forall r, In r (stats s) -> exists n, In n (novels s) /\ novel_pk n = stats_novel r)
  /\ forall r, In r (stats s) ->
               comment_count r
               = Z.of_nat (List.length (comment_rows (stats_novel r) (comments s))).

Definition add_comments (pk d : Z) (r : NovelStats) : NovelStats :=
  if stats_novel r =? pk then set_comment_count r (comment_count r + d) else r.

Lemma add_comments_absent (pk d : Z) (t : list NovelStats) :
  (forall r, In r t -> stats_novel r <> pk) -> map (add_comments pk d) t = t.
Proof.
  intros H.
  apply (map_replace_absent stats_novel pk
           (fun r => set_comment_count r (comment_count r + d))).
  exact H.
Qed.

Lemma stats_find_none (pk : Z) (t : list NovelStats) :
  find (fun r => stats_novel r =? pk) t = None -> forall r, In r t -> stats_novel r <> pk.
Proof.
  intros H r Hr E. apply (find_none _ _ H) in Hr. rewrite E, Z.eqb_refl in Hr. discriminate.
Qed.

(** The store a comment leaves. *)
Lemma comment_create_run (request : CommentRequest) (w : World) :
  db (fst (NovelCommentAPI_create request w)) = db w
  \/ exists novel,
       find (fun n => novel_pk n =? comment_novel_id request) (novels (db w)) = Some novel
       /\ db (fst (NovelCommentAPI_create request w))
          = with_comments
              (fun t => t ++ [mkNovelComment (fresh_pk (map comment_pk t)) (novel_pk novel)
                                (user_pk (comment_request_user request))
                                (comment_content request)])
              (with_stats (map (add_comments (novel_pk novel) 1)) (db w)).
Proof.
  unfold NovelCommentAPI_create, NovelCommentAPI_perform_create, Novel_objects_get, F_add.
  destruct (is_anonymous (comment_request_user request)); [left; reflexivity|].
  destruct (comment_is_valid request); [|left; reflexivity]. cbn [negb].
  rewrite !bind_bind, bind_gets.
  destruct (find (fun n => novel_pk n =? comment_novel_id request) (novels (db w)))
    as [novel|] eqn:Hn; [|left; reflexivity].
  rewrite bind_ret, !bind_bind, bind_gets.
  destruct (find (fun r => stats_novel r =? novel_pk novel) (stats (db w))) as [r|] eqn:Hr;
    [|left; reflexivity].
  right. exists novel. split; [reflexivity|].
  rewrite bind_modify, bind_bind, bind_gets. cbv beta. rewrite bind_modify. reflexivity.
Qed.

(** The store the removal of a comment leaves. *)
Lemma comment_delete_run (user : User) (comment_id : Z) (w : World) :
  (forall r, In r (stats (db w)) ->
             exists n, In n (novels (db w)) /\ novel_pk n = stats_novel r) ->
  db (fst (NovelCommentDeleteAPI_destroy user comment_id w)) = db w
  \/ exists instance,
       find (fun c => comment_pk c =? comment_id) (comments (db w)) = Some instance
       /\ db (fst (NovelCommentDeleteAPI_destroy user comment_id w))
          = with_stats (map (add_comments (comment_novel instance) (-1)))
              (with_comments (filter (fun c => negb (comment_pk c =? comment_pk instance)))
                 (db w)).
Proof.
  intros Hfk.
  unfold NovelCommentDeleteAPI_destroy, check_owner, Novel_objects_get, F_add.
  destruct (is_anonymous user); [left; reflexivity|].
  rewrite bind_gets.
  destruct (find (fun c => comment_pk c =? comment_id) (comments (db w)))
    as [instance|] eqn:Hc; [|left; reflexivity].
  cbn [negb andb].
  destruct (comment_author instance =? user_pk user); [|left; reflexivity].
  right. exists instance. split; [reflexivity|].
  rewrite bind_ret, bind_modify, !bind_bind, bind_gets. cbn [db novels with_comments].
  destruct (find (fun n => novel_pk n =? comment_novel instance) (novels (db w)))
    as [novel|] eqn:Hn.
  - apply find_some in Hn as Hn'. destruct Hn' as [_ Hpk]. apply Z.eqb_eq in Hpk.
    rewrite bind_ret, bind_bind, bind_gets. cbn [db stats with_comments]. rewrite Hpk.
    destruct (find (fun r => stats_novel r =? comment_novel instance) (stats (db w)))
      as [r|] eqn:Hr.
    + rewrite bind_modify. reflexivity.
    + rewrite bind_raise. cbn [fst db]. unfold with_stats, with_comments.
      cbn [novels contents images stats likes comments].
      rewrite (add_comments_absent _ _ _ (stats_find_none _ _ Hr)). reflexivity.
  - rewrite bind_raise. cbn [fst db]. unfold with_stats, with_comments.
    cbn [novels contents images stats likes comments].
    rewrite add_comments_absent; [reflexivity|].
    intros r Hr E. destruct (Hfk r Hr) as (n & Hin & Hpk).
    apply (find_none _ _ Hn) in Hin. rewrite Hpk, E, Z.eqb_refl in Hin. discriminate.
Qed.

Lemma comment_rows_app (pk : Z) (t : list NovelComment) (c : NovelComment) :
  List.length (comment_rows pk (t ++ [c]))
  = (List.length (comment_rows pk t) + (if (comment_novel c =? pk)%Z then 1 else 0))%nat.
Proof.
  unfold comment_rows. rewrite filter_app, length_app. simpl.
  destruct (comment_novel c =? pk); reflexivity.
Qed.

Lemma comment_rows_remove (instance : NovelComment) (pk : Z) (t : list NovelComment) :
  NoDup (map comment_pk t) -> In instance t ->
  (List.length (comment_rows pk t)
   = List.length (comment_rows pk
                    (filter (fun c => negb (comment_pk c =? comment_pk instance)%Z) t))
     + (if (comment_novel instance =? pk)%Z then 1 else 0))%nat.
Proof.
  unfold comment_rows. induction t as [|c t IH]; simpl; [intros _ []|].
  intros Hnd Hin. inversion Hnd as [|? ? Hnot Hnd']; subst.
  destruct (Z.eqb_spec (comment_pk c) (comment_pk instance)) as [E|E]; cbn [negb].
  - assert (c = instance) as ->.
    { destruct Hin as [Hin|Hin]; [assumption|]. exfalso. apply Hnot. rewrite E.
      apply in_map. assumption. }
    replace (filter (fun c => negb (comment_pk c =? comment_pk instance)) t) with t.
    + destruct (comment_novel instance =? pk); simpl; lia.
    + symmetry. clear IH Hnd Hin Hnd' E. induction t as [|x t IH]; [reflexivity|].
      simpl. destruct (Z.eqb_spec (comment_pk x) (comment_pk instance)) as [E|E].
      * exfalso. apply Hnot. left. assumption.
      * cbn [negb]. f_equal. apply IH. intros H. apply Hnot. right. assumption.
  - destruct Hin as [Hin|Hin]; [congruence|]. specialize (IH Hnd' Hin).
    simpl. destruct (comment_novel c =? pk); simpl; lia.
Qed.

Lemma comments_counted_create (request : CommentRequest) (w : World) :
  comments_counted (db w) -> comments_counted (db (fst (NovelCommentAPI_create request w))).
Proof.
  intros (Hnd & Hfk & Hcount).
  destruct (comment_create_run request w) as [->|(novel & Hn & ->)];
    [repeat split; assumption|].
  unfold with_stats, with_comments. repeat split; cbn [comments stats novels].
  - rewrite map_app. cbn [map comment_pk].
    apply Permutation_NoDup with
      (l := fresh_pk (map comment_pk (comments (db w))) :: map comment_pk (comments (db w))).
    + apply Permutation_cons_append.
    + constructor; [|assumption]. intros Hin. apply in_map_iff in Hin.
      destruct Hin as (c & E & Hc). apply (fresh_pk_not_in comment_pk _ c Hc E).
  - intros r Hr. apply in_map_iff in Hr. destruct Hr as (r0 & <- & Hr0).
    destruct (Hfk r0 Hr0) as (n & Hin & Hpk). exists n. split; [assumption|].
    rewrite Hpk. unfold add_comments. destruct (stats_novel r0 =? novel_pk novel); reflexivity.
  - intros r Hr. apply in_map_iff in Hr. destruct Hr as (r0 & <- & Hr0).
    specialize (Hcount r0 Hr0). unfold add_comments.
    destruct (Z.eqb_spec (stats_novel r0) (novel_pk novel)) as [E|E].
    + cbn [set_comment_count comment_count stats_novel]. rewrite comment_rows_app.
      cbn [comment_novel]. rewrite E, Z.eqb_refl. rewrite E in Hcount. lia.
    + rewrite comment_rows_app. cbn [comment_novel].
      replace (novel_pk novel =? stats_novel r0) with false
        by (symmetry; apply Z.eqb_neq; congruence).
      lia.
Qed.

Lemma comments_counted_delete (user : User) (comment_id : Z) (w : World) :
  comments_counted (db w) ->
  comments_counted (db (fst (NovelCommentDeleteAPI_destroy user comment_id w))).
Proof.
  intros (Hnd & Hfk & Hcount).
  destruct (comment_delete_run user comment_id w Hfk) as [->|(instance & Hc & ->)];
    [repeat split; assumption|].
  apply find_some in Hc. destruct Hc as [Hin _].
  unfold with_stats, with_comments. repeat split; cbn [comments stats novels].
  - apply distinct_keys_filter. assumption.
  - intros r Hr. apply in_map_iff in Hr. destruct Hr as (r0 & <- & Hr0).
    destruct (Hfk r0 Hr0) as (n & Hn & Hpk). exists n. split; [assumption|].
    rewrite Hpk. unfold add_comments.
    destruct (stats_novel r0 =? comment_novel instance); reflexivity.
  - intros r Hr. apply in_map_iff in Hr. destruct Hr as (r0 & <- & Hr0).
    specialize (Hcount r0 Hr0).
    pose proof (comment_rows_remove instance (stats_novel r0) (comments (db w)) Hnd Hin)
      as Hsplit.
    unfold add_comments.
    destruct (Z.eqb_spec (stats_novel r0) (comment_novel instance)) as [E|E].
    + cbn [set_comment_count comment_count stats_novel].
      rewrite E in Hsplit, Hcount |- *. rewrite Z.eqb_refl in Hsplit. lia.
    + replace (comment_novel instance =? stats_novel r0) with false in Hsplit
        by (symmetry; apply Z.eqb_neq; congruence).
      lia.
Qed.

Inductive CommentOp : Type :=
| PostComment (request : CommentRequest)
| DeleteComment (user : User) (comment_id : Z).

Definition comment_op (o : CommentOp) (w : World) : World :=
  match o with
  | PostComment request => fst (NovelCommentAPI_create request w)
  | DeleteComment user comment_id => fst (NovelCommentDeleteAPI_destroy user comment_id w)
  end.

Definition comment_ops (ops : list CommentOp) (w : World) : World :=
  fold_left (fun w o => comment_op o w) ops w.

(** X4. Along every sequence of comment posts and comment removals
    (accepted or refused, by anyone, on any novel or comment), if the
    comments had distinct keys and every stats row belonged to a novel
    and counted the comments of that novel, the same holds afterwards:
    comment_count is the number of comments of the novel, so it is
    never negative. *)
Theorem comment_count_counts_comments (ops : list CommentOp) (w : World) :
  comments_counted (db w) ->
  comments_counted (db (comment_ops ops w))
  /\ Forall (fun r => 0 <= comment_count r) (stats (db (comment_ops ops w))).
Proof.
  intros H.
  assert (comments_counted (db (comment_ops ops w))) as Hk.
  { revert w H. unfold comment_ops.
    induction ops as [|o rest IH]; intros w H; [exact H|].
    simpl. apply IH. destruct o; simpl.
    - apply comments_counted_create. exact H.
    - apply comments_counted_delete. exact H. }
  split; [exact Hk|]. apply Forall_forall. intros r Hr.
  rewrite (proj2 (proj2 Hk) r Hr). lia.
Qed.

Definition comment_request : CommentRequest :=
  mkCommentRequest 1 writer true "a fine night" (JObj [("content", JStr "a fine night")]).

Lemma comment_count_counts_comments_witness :
  comments_counted
    (db (comment_ops [PostComment comment_request; PostComment comment_request;
                      DeleteComment writer 1; DeleteComment anonymous 2] like_world))
  /\ Forall (fun r => 0 <= comment_count r)
       (stats (db (comment_ops [PostComment comment_request; PostComment comment_request;
                                DeleteComment writer 1; DeleteComment anonymous 2]
                               like_world))).
Proof.
  apply (comment_count_counts_comments
           [PostComment comment_request; PostComment comment_request;
            DeleteComment writer 1; DeleteComment anonymous 2] like_world).
  split; [constructor|]. split.
  - intros r [<-|[]]. eexists. split; [left; reflexivity|reflexivity].
  - intros r [<-|[]]. reflexivity.
Defined.

Lemma find_last_fresh {R : Type} (key : R -> Z) (t : list R) (c : R) :
  (forall x, In x t -> key x <> key c) ->
  find (fun x => key x =? key c) (t ++ [c]) = Some c.
Proof.
  induction t as [|x t IH]; simpl; intros H; [rewrite Z.eqb_refl; reflexivity|].
  destruct (Z.eqb_spec (key x) (key c)) as [E|E]; [exfalso; apply (H x); auto|].
  apply IH. intros y Hy. apply H. right. assumption.
Qed.

Lemma filter_last_fresh {R : Type} (key : R -> Z) (t : list R) (c : R) :
  (forall x, In x t -> key x <> key c) ->
  filter (fun x => negb (key x =? key c)) (t ++ [c]) = t.
Proof.
  induction t as [|x t IH]; simpl; intros H; [rewrite Z.eqb_refl; reflexivity|].
  destruct (Z.eqb_spec (key x) (key c)) as [E|E]; [exfalso; apply (H x); auto|].
  cbn [negb]. f_equal. apply IH. intros y Hy. apply H. right. assumption.
Qed.

Lemma add_comments_back (pk : Z) (t : list NovelStats) :
  map (add_comments pk (-1)) (map (add_comments pk 1) t) = t.
Proof.
  rewrite map_map. rewrite <- (map_id t) at 2. apply map_ext. intros r.
  unfold add_comments. destruct (stats_novel r =? pk) eqn:E; [|rewrite E; reflexivity].
  cbn [set_comment_count stats_novel]. rewrite E. destruct r as [k h l c].
  unfold set_comment_count. cbn [stats_novel hit_count like_count comment_count].
  f_equal. lia.
Qed.

(** X5. A comment posted by a signed-in user on a novel (request
    accepted, novel and stats row there) is answered 201 and is the
    last row of the table, under a key that no comment of the table
    has; its removal by its author right afterwards is answered 204 and
    leaves the store as it was before the post, counter included. *)
Theorem comment_post_then_delete (request : CommentRequest) (w : World) (novel : Novel) :
  comment_is_valid request = true ->
  is_anonymous (comment_request_user request) = false ->
  find (fun n => novel_pk n =? comment_novel_id request) (novels (db w)) = Some novel ->
  (exists r, In r (stats (db w)) /\ stats_novel r = novel_pk novel) ->
  exists (pk : Z) (w1 : World) (response : Response),
    NovelCommentAPI_create request w = (w1, inr response)
    /\ resp_status response = HTTP_201_CREATED
    /\ (forall c, In c (comments (db w)) -> comment_pk c <> pk)
    /\ comments (db w1)
       = comments (db w)
         ++ [mkNovelComment pk (novel_pk novel) (user_pk (comment_request_user request))
                            (comment_content request)]
    /\ stats (db w1) = map (add_comments (novel_pk novel) 1) (stats (db w))
    /\ NovelCommentDeleteAPI_destroy (comment_request_user request) pk w1
       = (w, inr (mkResponse HTTP_204_NO_CONTENT JNull)).
Proof.
  intros Hvalid Hanon Hnovel Hstats.
  set (pk := fresh_pk (map comment_pk (comments (db w)))).
  set (row := mkNovelComment pk (novel_pk novel) (user_pk (comment_request_user request))
                             (comment_content request)).
  assert (NovelCommentAPI_create request w
          = (mkWorld (with_comments (fun t => t ++ [row])
                        (with_stats (map (add_comments (novel_pk novel) 1)) (db w)))
                     (sent w),
             inr (mkResponse HTTP_201_CREATED (comment_serializer_data request)))) as E1.
  { unfold NovelCommentAPI_create, NovelCommentAPI_perform_create, Novel_objects_get, F_add.
    rewrite Hanon, Hvalid. cbn [negb]. rewrite !bind_bind, bind_gets, Hnovel, bind_ret.
    rewrite !bind_bind, bind_gets.
    destruct (stats_row_found _ _ Hstats) as (r & ->).
    rewrite bind_modify, bind_bind, bind_gets. cbv beta. rewrite bind_modify. reflexivity. }
  assert (forall x, In x (comments (db w)) -> comment_pk x <> comment_pk row) as Hfresh.
  { intros x Hx E. exact (fresh_pk_not_in comment_pk _ x Hx E). }
  exists pk. eexists. eexists. split; [exact E1|]. split; [reflexivity|].
  split; [exact Hfresh|]. split; [reflexivity|]. split; [reflexivity|].
  unfold NovelCommentDeleteAPI_destroy, check_owner, Novel_objects_get, F_add.
  rewrite Hanon, bind_gets. cbn [db comments with_comments with_stats].
  change pk with (comment_pk row). rewrite (find_last_fresh comment_pk _ row Hfresh).
  cbn [comment_author row]. rewrite Z.eqb_refl. cbn [negb andb].
  rewrite bind_ret, bind_modify, !bind_bind, bind_gets.
  unfold with_comments, with_stats.
  cbn [db sent novels contents images stats likes comments comment_novel row].
  assert (find (fun n => novel_pk n =? novel_pk novel) (novels (db w)) = Some novel) as ->.
  { apply find_some in Hnovel as Hid. destruct Hid as [_ Hid]. apply Z.eqb_eq in Hid.
    rewrite Hid. exact Hnovel. }
  rewrite bind_ret, bind_bind, bind_gets. cbn [db stats].
  destruct Hstats as (r & Hin & Hr).
  destruct (stats_row_found (novel_pk novel) (map (add_comments (novel_pk novel) 1)
                                                  (stats (db w)))) as (r' & ->).
  { exists (add_comments (novel_pk novel) 1 r). split; [apply in_map; assumption|].
    unfold add_comments. destruct (stats_novel r =? novel_pk novel); assumption. }
  rewrite bind_modify. unfold with_stats.
  cbn [db sent stats novels contents images likes comments].
  rewrite (filter_last_fresh comment_pk _ row Hfresh).
  change (map (fun r0 => if stats_novel r0 =? novel_pk novel
                         then set_comment_count r0 (comment_count r0 + -1) else r0))
    with (map (add_comments (novel_pk novel) (-1))).
  rewrite add_comments_back. destruct w as [[] ?]. reflexivity.
Qed.

Lemma comment_post_then_delete_witness :
  exists (pk : Z) (w1 : World) (response : Response),
    NovelCommentAPI_create comment_request like_world = (w1, inr response)
    /\ resp_status response = HTTP_201_CREATED
    /\ (forall c, In c (comments (db like_world)) -> comment_pk c <> pk)
    /\ comments (db w1)
       = comments (db like_world) ++ [mkNovelComment pk 1 7 "a fine night"]
    /\ stats (db w1) = map (add_comments 1 1) (stats (db like_world))
    /\ NovelCommentDeleteAPI_destroy writer pk w1
       = (like_world, inr (mkResponse HTTP_204_NO_CONTENT JNull)).
Proof.
  apply (comment_post_then_delete comment_request like_world
           (mkNovel 1 7 "A night train" 1 FINISHED "{}" None None)).
  - reflexivity.
  - reflexivity.
  - reflexivity.
  - exists (mkNovelStats 1 0 0 0). split; [left; reflexivity|reflexivity].
Defined.

(** ** The listing *)

Lemma sorted_filter {R : Type} (le : R -> R -> Prop) (p : R -> bool) (l : list R) :
  StronglySorted le l -> StronglySorted le (filter p l).
Proof.
  induction 1 as [|x l Hs IH Hx]; simpl; [constructor|].
  destruct (p x); [|exact IH]. constructor; [exact IH|].
  apply Forall_forall. intros y Hy. apply filter_In in Hy.
  rewrite Forall_forall in Hx. apply Hx. tauto.
Qed.

Lemma sorted_firstn {R : Type} (le : R -> R -> Prop) (k : nat) (l : list R) :
  StronglySorted le l -> StronglySorted le (firstn k l).
Proof.
  intros H. revert k. induction H as [|x l Hs IH Hx]; intros [|k]; simpl; try constructor.
  - apply IH.
  - apply Forall_forall. intros y Hy. apply In_firstn in Hy.
    rewrite Forall_forall in Hx. auto.
Qed.

Lemma sorted_weaken {R : Type} (le le' : R -> R -> Prop) (l : list R) :
  (forall a b, le a b -> le' a b) -> StronglySorted le l -> StronglySorted le' l.
Proof.
  intros Hle. induction 1 as [|x l Hs IH Hx]; constructor; [exact IH|].
  apply Forall_forall. intros y Hy. rewrite Forall_forall in Hx. auto.
Qed.

(** What the [genre] parameter of the listing selects: a label that is
    no genre selects every novel. *)
Definition genre_selected (get_value_from_label : string -> option Z)
    (genre_param : option string) (n : Novel) : bool :=
  match genre_param with
  | Some label =>
      match get_value_from_label label with
      | Some genre_value => genre n =? genre_value
      | None => true
      end
  | None => true
  end.

Lemma list_queryset_rows (get_value_from_label : string -> option Z)
    (genre_param : option string) (s : Store) (n : Novel) :
  In n (NovelListAPI_get_queryset get_value_from_label genre_param s)
  <-> In n (novels s) /\ status n = FINISHED
      /\ genre_selected get_value_from_label genre_param n = true.
Proof.
  assert (In n (filter is_finished (novels s)) <-> In n (novels s) /\ status n = FINISHED)
    as Hfin.
  { rewrite filter_In. split; intros [H1 H2]; split; auto.
    - apply is_finished_status. assumption.
    - unfold is_finished. rewrite H2. reflexivity. }
  unfold NovelListAPI_get_queryset, genre_selected.
  destruct genre_param as [label|]; [destruct (get_value_from_label label) as [g|]|];
    try (rewrite Hfin; tauto).
  rewrite filter_In, Hfin. tauto.
Qed.

Lemma sorted_app {R : Type} (le : R -> R -> Prop) (l : list R) (x : R) :
  StronglySorted le l -> Forall (fun y => le y x) l -> StronglySorted le (l ++ [x]).
Proof.
  induction 1 as [|y l Hs IH Hy]; intros Hx; cbn [app].
  - constructor; constructor.
  - inversion Hx as [|? ? Hyx Hlx]; subst. constructor; [apply IH; exact Hlx|].
    apply Forall_app. split; [exact Hy|]. constructor; [exact Hyx|constructor].
Qed.

Lemma sorted_rev {R : Type} (le : R -> R -> Prop) (l : list R) :
  StronglySorted le l -> StronglySorted (fun a b => le b a) (rev l).
Proof.
  induction 1 as [|x l Hs IH Hx]; cbn [rev]; [constructor|].
  apply sorted_app; [exact IH|].
  apply Forall_forall. intros y Hy. apply in_rev in Hy.
  rewrite Forall_forall in Hx. apply Hx. exact Hy.
Qed.

Lemma sorted_skipn {R : Type} (le : R -> R -> Prop) (k : nat) (l : list R) :
  StronglySorted le l -> StronglySorted le (skipn k l).
Proof.
  intros H. revert k. induction H as [|x l Hs IH Hx]; intros [|k]; simpl; try constructor;
    try assumption.
  apply IH.
Qed.

(** The side of its position a cursor asks for. *)
Definition past_position (c : Cursor) (n : Novel) : Prop :=
  match cursor_position c with
  | Some position => if cursor_reverse c then position < novel_pk n
                     else novel_pk n < position
  | None => True
  end.

(** X6. A page of the listing, for any genre parameter, search clause
    and cursor (offset, direction and position): it has at most 1000
    novels, in decreasing order of id, also for a reverse cursor; each
    is a FINISHED novel of the store that the search clause accepts, on
    the side of the position the cursor asks for (below it, above it
    for a reverse cursor), and of the genre the label names when the
    label names one (a label that names no genre filters nothing); and
    for a cursor without offset, a FINISHED novel that meets all of
    this is on the page unless the page is full. *)
Theorem listing_page (get_value_from_label : string -> option Z)
    (genre_param : option string) (search : Novel -> bool) (cursor : option Cursor)
    (s : Store) :
  let page := NovelListAPI_list get_value_from_label genre_param search cursor s in
  let c := match cursor with Some c => c | None => first_page end in
  let on_page (n : Novel) :=
    In n (novels s) /\ status n = FINISHED
    /\ genre_selected get_value_from_label genre_param n = true
    /\ search n = true
    /\ past_position c n in
  (List.length page <= 1000)%nat
  /\ StronglySorted (fun a b => novel_pk b <= novel_pk a) page
  /\ Forall on_page page
  /\ (cursor_offset c = 0%nat ->
      forall n, on_page n -> In n page \/ List.length page = 1000%nat).
Proof.
  intros page c on_page. subst page. unfold NovelListAPI_list, page_size. cbv zeta.
  fold c.
  set (queryset := filter search
                     (NovelListAPI_get_queryset get_value_from_label genre_param s)).
  set (ordered := if cursor_reverse c then order_by novel_pk queryset
                  else order_by (fun n => - novel_pk n) queryset).
  set (past := match cursor_position c with
               | Some position =>
                   filter (fun n => if cursor_reverse c then position <? novel_pk n
                                    else novel_pk n <? position) ordered
               | None => ordered
               end).
  set (rows := firstn 1000 (skipn (cursor_offset c) past)).
  assert (forall n, In n ordered <-> In n (novels s) /\ status n = FINISHED
                                     /\ genre_selected get_value_from_label genre_param n
                                        = true
                                     /\ search n = true) as Hordered.
  { intros n.
    assert (In n ordered <-> In n queryset) as ->.
    { subst ordered. destruct (cursor_reverse c).
      - split; [apply In_order_by|apply (Permutation_in n (order_by_perm novel_pk _))].
      - split; [apply In_order_by
               |apply (Permutation_in n (order_by_perm (fun n => - novel_pk n) _))]. }
    subst queryset. rewrite filter_In, list_queryset_rows. tauto. }
  assert (forall n, In n past <-> on_page n) as Hpast.
  { intros n. subst past on_page. unfold past_position. cbv beta.
    destruct (cursor_position c) as [position|].
    - rewrite filter_In, Hordered.
      destruct (cursor_reverse c); rewrite Z.ltb_lt; tauto.
    - rewrite Hordered. tauto. }
  assert (StronglySorted (fun a b => if cursor_reverse c then novel_pk a <= novel_pk b
                                     else novel_pk b <= novel_pk a) rows) as Hsorted.
  { subst rows. apply sorted_firstn, sorted_skipn.
    assert (StronglySorted (fun a b => if cursor_reverse c then novel_pk a <= novel_pk b
                                       else novel_pk b <= novel_pk a) ordered) as Ho.
    { subst ordered. destruct (cursor_reverse c).
      - apply order_by_sorted.
      - apply sorted_weaken with (le := fun a b => - novel_pk a <= - novel_pk b);
          [intros a b; lia|].
        apply order_by_sorted. }
    subst past. destruct (cursor_position c); [apply sorted_filter|]; exact Ho. }
  assert (forall n, In n rows -> on_page n) as Hrows.
  { intros n Hn. subst rows. apply In_firstn, In_skipn in Hn. apply Hpast. exact Hn. }
  assert ((List.length rows <= 1000)%nat) as Hlen by (subst rows; apply firstn_le_length).
  assert (cursor_offset c = 0%nat ->
          forall n, on_page n -> In n rows \/ List.length rows = 1000%nat) as Hall.
  { intros Hoff n Hn. apply Hpast in Hn. subst rows. rewrite Hoff. cbn [skipn].
    destruct (Nat.le_gt_cases (List.length past) 1000) as [Hle|Hgt].
    - left. rewrite firstn_all2 by exact Hle. exact Hn.
    - right. apply firstn_length_le. lia. }
  destruct (cursor_reverse c).
  - rewrite length_rev. split; [exact Hlen|]. split; [apply sorted_rev in Hsorted; exact Hsorted|].
    split.
    + apply Forall_forall. intros n Hn. apply in_rev in Hn. auto.
    + intros Hoff n Hn. destruct (Hall Hoff n Hn) as [H|H]; [left|right; exact H].
      apply in_rev. rewrite rev_involutive. exact H.
  - split; [exact Hlen|]. split; [exact Hsorted|]. split; [|exact Hall].
    apply Forall_forall. exact Hrows.
Qed.

(** ** The recommendation *)

(** X7. Whatever order the random ordering gives (any permutation of
    the rows), the recommendation has min(5, number of FINISHED novels)
    novels, each a FINISHED novel of the store, and none twice when the
    keys of the store are distinct. *)
Theorem recommendation_size (shuffle : list Novel -> list Novel) (s : Store) :
  (forall l, Permutation l (shuffle l)) ->
  let rec := NovelRecAPI_get_queryset shuffle s in
  List.length rec = Nat.min 5 (List.length (filter is_finished (novels s)))
  /\ Forall (fun n => In n (novels s) /\ status n = FINISHED) rec
  /\ (NoDup (map novel_pk (novels s)) -> NoDup (map novel_pk rec)).
Proof.
  intros Hperm rec. subst rec. unfold NovelRecAPI_get_queryset, NovelRecAPI_queryset.
  pose proof (Hperm (filter is_finished (novels s))) as Hp. repeat split.
  - rewrite length_firstn, <- (Permutation_length Hp). reflexivity.
  - apply Forall_forall. intros n Hn. apply In_firstn in Hn.
    apply (Permutation_in n (Permutation_sym Hp)) in Hn. apply filter_In in Hn.
    destruct Hn as [Hin Hfin]. split; [assumption|apply is_finished_status; assumption].
  - intros Hnd.
    assert (NoDup (map novel_pk (shuffle (filter is_finished (novels s))))) as Hs.
    { apply (Permutation_NoDup (Permutation_map novel_pk Hp)).
      apply distinct_keys_filter. assumption. }
    rewrite <- (firstn_skipn 5 (shuffle (filter is_finished (novels s)))) in Hs.
    rewrite map_app in Hs. apply NoDup_app_remove_r in Hs. exact Hs.
Qed.

Lemma recommendation_size_witness :
  map novel_pk (NovelRecAPI_get_queryset (@rev Novel) shelf_world.(db)) = [2]
  /\ List.length (NovelRecAPI_get_queryset (@rev Novel) shelf_world.(db))
     = Nat.min 5 (List.length (filter is_finished (novels shelf_world.(db)))).
Proof.
  split; [reflexivity|].
  apply (recommendation_size (@rev Novel) (db shelf_world)).
  intros l. apply Permutation_rev.
Defined.

(** ** Development mode *)

(** X8. With DEV set no view of the writing workflow calls the AI
    server, and none answers 200: Start answers the 500 of the DEMO
    guard and writes nothing, or raises with the store as it was or as
    the serializer left it; Continue and End always raise, neither
    changes a step, and Continue changes no novel. *)
Theorem dev_mode_calls_nothing
    (DEMO : bool) (dumps dumps_utf8 : json -> string) (loads : string -> option json)
    (post : AIRequest -> HttpResponse) (storage_url : string -> string)
    (genre_of_form : string -> option Z)
    (start : StartRequest) (continue : ContinueRequest) (finish : EndRequest) (w : World) :
  let s := NovelStartAPI_post true DEMO dumps loads post storage_url genre_of_form start w in
  let c := NovelContinueAPI_post true dumps dumps_utf8 loads post storage_url continue w in
  let e := NovelEndAPI_post true dumps loads post finish w in
  (sent (fst s) = sent w
   /\ (snd s = inr (mkResponse HTTP_500_INTERNAL_SERVER_ERROR (JObj [])) /\ fst s = w
       \/ exists x, snd s = inl x
                    /\ (fst s = w
                        \/ exists g, fst s = start_saved start w g)))
  /\ (sent (fst c) = sent w
      /\ (exists x, snd c = inl x)
      /\ novels (db (fst c)) = novels (db w)
      /\ contents (db (fst c)) = contents (db w))
  /\ (sent (fst e) = sent w
      /\ (exists x, snd e = inl x)
      /\ contents (db (fst e)) = contents (db w)).
Proof.
  intros s c e. split; [|split].
  - subst s.
    destruct (NovelStartAPI_post true DEMO dumps loads post storage_url genre_of_form start w)
      as [w' r] eqn:H.
    cbn [fst snd]. unfold NovelStartAPI_post in H.
    destruct (DEMO && negb (String.eqb (nickname (start_user start)) "DEMO용")).
    + inversion H; subst. split; [reflexivity|]. left. split; reflexivity.
    + unfold bind in H.
      destruct (NovelStartSerializer_save genre_of_form start w)
        as [w1 [x|[[novel novel_content] imgs]]] eqn:Hs.
      * apply start_save_fails in Hs. inversion H; subst. split; [reflexivity|].
        right. exists x. split; [reflexivity|]. left. reflexivity.
      * apply start_save_ok in Hs. destruct Hs as (g & _ & _ & -> & _).
        inversion H; subst.
        split; [reflexivity|]. right. exists UnboundLocalError. split; [reflexivity|].
        right. exists g. reflexivity.
  - subst c.
    destruct (NovelContinueAPI_post true dumps dumps_utf8 loads post storage_url continue w)
      as [w' r] eqn:H.
    apply continue_run in H. inversion H; subst; try discriminate; cbn [fst snd].
    + repeat split; eauto.
    + repeat split; eauto.
  - subst e.
    destruct (NovelEndAPI_post true dumps loads post finish w) as [w' r] eqn:H.
    apply end_run in H. inversion H; subst; try discriminate; cbn [fst snd];
      repeat split; eauto.
Qed.

(** ** Start: fewer captions than images *)





(** ** Continue: what a request that fails has written *)

Lemma continue_next_created_tables (dumps : json -> string) (request : ContinueRequest)
    (w : World) (novel : Novel) (novel_content : NovelContent) (cap story response2 : json) :
  continue_target request w novel novel_content ->
  let s := continue_next_created dumps request w novel novel_content cap story response2 in
  let current := set_chosen_query (set_content novel_content story)
                                  (JStr (continue_query request)) in
  let rewritten := map (fun c => if content_pk c =? content_pk novel_content
                                 then current else c) (contents (db w)) in
  contents s
  = rewritten
    ++ [mkNovelContent (fresh_pk (map content_pk rewritten)) (novel_pk novel)
                       (continue_step request + 1) JNull JNull JNull JNull JNull]
  /\ novels s
     = map (fun n => if novel_pk n =? novel_pk novel
                     then set_prompt novel (dumps response2) else n) (novels (db w)).
Proof.
  intros Ht. destruct (continue_target_row _ _ _ _ Ht) as (Hn & _ & Hc & _ & Hstep).
  cbv zeta. unfold continue_next_created, continue_next, continue_step_written,
    continue_saved. simpl.
  rewrite (save_row_old content_pk
             (set_chosen_query (set_content novel_content story)
                               (JStr (continue_query request)))
             novel_content (contents (db w)) Hc eq_refl).
  rewrite (save_row_old novel_pk (set_prompt novel (dumps response2)) novel
             (novels (db w)) Hn eq_refl).
  rewrite Hstep. split; reflexivity.
Qed.

(** X10. A Continue request that is not answered 200 (it raises, or
    answers 408) has changed no novel and no step, with one exception:
    when the question call is answered 200 with JSON that is not an
    object, the view raises AttributeError after its writes, and leaves
    the new prompt on the novel, the story and the chosen query on step
    k, and a step k+1 without queries. *)
Theorem continue_failure_writes
    (DEV : bool) (dumps dumps_utf8 : json -> string) (loads : string -> option json)
    (post : AIRequest -> HttpResponse) (storage_url : string -> string)
    (request : ContinueRequest) (w w' : World) (r : exn + Response) :
  NovelContinueAPI_post DEV dumps dumps_utf8 loads post storage_url request w = (w', r) ->
  (forall response, r = inr response -> resp_status response <> HTTP_200_OK) ->
  (novels (db w') = novels (db w) /\ contents (db w') = contents (db w)
   /\ stats (db w') = stats (db w))
  \/ exists novel novel_content story response2,
       continue_target request w novel novel_content
       /\ (forall m, response2 <> JObj m)
       /\ r = inl AttributeError
       /\ novels (db w')
          = map (fun n => if novel_pk n =? novel_pk novel
                          then set_prompt novel (dumps response2) else n) (novels (db w))
       /\ let current := set_chosen_query (set_content novel_content story)
                                          (JStr (continue_query request)) in
          let rewritten := map (fun c => if content_pk c =? content_pk novel_content
                                         then current else c) (contents (db w)) in
          contents (db w')
          = rewritten
            ++ [mkNovelContent (fresh_pk (map content_pk rewritten)) (novel_pk novel)
                               (continue_step request + 1) JNull JNull JNull JNull JNull].
Proof.
  intros H Hfail. apply continue_run in H.
  inversion H as [| | | |novel novel_content d dh w0 r0 Ht Hdev Hd Hdh Hup]; subst;
    try (left; repeat split; reflexivity).
  inversion Hup as [| | | | |rj cap story dh' response2 e Hs Hb Hp Hq Hqb Hpq|]; subst;
    try (left; repeat split; reflexivity).
  - right. exists novel, novel_content, story, response2.
    destruct (continue_next_created_tables dumps request w novel novel_content cap story
                response2 Ht) as [Hc Hn].
    assert ((forall m, response2 <> JObj m) /\ e = AttributeError) as [Hno ->].
    { unfold parse_queries in Hpq. destruct response2; simpl in Hpq;
        try (inversion Hpq; split; [intros m; discriminate|reflexivity]).
      discriminate. }
    cbn [db]. split; [exact Ht|]. split; [exact Hno|]. split; [reflexivity|].
    split; [exact Hn|exact Hc].
  - exfalso. apply (Hfail _ eq_refl). reflexivity.
Qed.

(** The server of [ai_server], with a JSON list for the questions. *)
Definition ai_server_list_questions (r : AIRequest) : HttpResponse :=
  match req_url r with
  | question_url => mkHttpResponse 200 (Json.dumps (JArr []))
  | _ => ai_server r
  end.

Definition gull_no_questions : World * (exn + Response) :=
  NovelContinueAPI_post false Json.dumps Json.dumps Json.loads ai_server_list_questions
                        media_url gull_request bay_world.

Lemma continue_failure_writes_witness :
  snd gull_no_questions = inl AttributeError
  /\ map step (contents (db (fst gull_no_questions))) = [1; 2; 3]
  /\ map query1 (contents (db (fst gull_no_questions)))
     = [JNull; JStr "Who lit the lamp?"; JNull]
  /\ ((novels (db (fst gull_no_questions)) = novels (db bay_world)
       /\ contents (db (fst gull_no_questions)) = contents (db bay_world)
       /\ stats (db (fst gull_no_questions)) = stats (db bay_world))
      \/ exists novel novel_content story response2,
           continue_target gull_request bay_world novel novel_content
           /\ (forall m, response2 <> JObj m)
           /\ snd gull_no_questions = inl AttributeError
           /\ novels (db (fst gull_no_questions))
              = map (fun n => if novel_pk n =? novel_pk novel
                              then set_prompt novel (Json.dumps response2) else n)
                    (novels (db bay_world))
           /\ let current := set_chosen_query (set_content novel_content story)
                                              (JStr (continue_query gull_request)) in
              let rewritten := map (fun c => if content_pk c =? content_pk novel_content
                                             then current else c) (contents (db bay_world)) in
              contents (db (fst gull_no_questions))
              = rewritten
                ++ [mkNovelContent (fresh_pk (map content_pk rewritten)) (novel_pk novel)
                                   (continue_step gull_request + 1)
                                   JNull JNull JNull JNull JNull]).
Proof.
  split; [vm_compute; reflexivity|]. split; [vm_compute; reflexivity|].
  split; [vm_compute; reflexivity|].
  apply (continue_failure_writes false Json.dumps Json.dumps Json.loads
           ai_server_list_questions media_url gull_request bay_world).
  - apply surjective_pairing.
  - intros response E. vm_compute in E. discriminate.
Defined.

(** ** The questions of the next step *)

Definition queries_response (q1 q2 q3 : json) : Response :=
  mkResponse HTTP_200_OK
    (JObj [("queries",
            JArr [JObj [("index", JNum 1); ("query", q1)];
                  JObj [("index", JNum 2); ("query", q2)];
                  JObj [("index", JNum 3); ("query", q3)]])]).

Lemma question_run (novel_id st : Z) (w : World) (c : NovelContent) :
  filter (fun c => (content_novel c =? novel_id) && (step c =? st)) (contents (db w)) = [c] ->
  NovelQuestionAPI_retrieve novel_id st w
  = (w, inr (queries_response (query1 c) (query2 c) (query3 c))).
Proof.
  intros H. unfold NovelQuestionAPI_retrieve, NovelQuestionAPI_get_object.
  rewrite bind_bind, bind_gets, H. reflexivity.
Qed.

Lemma filter_false {R : Type} (p : R -> bool) (l : list R) (x : R) :
  filter p l = [] -> In x l -> p x = false.
Proof.
  intros H Hx. destruct (p x) eqn:E; [|reflexivity].
  assert (In x (filter p l)) as Hin by (apply filter_In; auto).
  rewrite H in Hin. destruct Hin.
Qed.

(** X11. After a Start request answered 200, on a store where every
    step belongs to a novel of the store, the question view for step 2
    of the novel whose id the answer carries returns the three queries
    of the answer of the question call that Start sent, and for step 1
    three nulls; it changes nothing. *)
Theorem start_then_question
    (DEV DEMO : bool) (dumps : json -> string) (loads : string -> option json)
    (post : AIRequest -> HttpResponse) (storage_url : string -> string)
    (genre_of_form : string -> option Z) (request : StartRequest) (w w' : World)
    (response : Response) :
  NovelStartAPI_post DEV DEMO dumps loads post storage_url genre_of_form request w
  = (w', inr response) ->
  resp_status response = HTTP_200_OK ->
  (forall c, In c (contents (db w)) ->
             exists n, In n (novels (db w)) /\ novel_pk n = content_novel c) ->
  exists (new_id : Z) (dh response2 q1 q2 q3 : json),
    Py.get (resp_data response) "id" = inr (JNum new_id)
    /\ In (question_request dumps dh) (sent w')
    /\ loads (body (post (question_request dumps dh))) = Some response2
    /\ Py.get response2 "query1" = inr q1
    /\ Py.get response2 "query2" = inr q2
    /\ Py.get response2 "query3" = inr q3
    /\ NovelQuestionAPI_retrieve new_id 2 w' = (w', inr (queries_response q1 q2 q3))
    /\ NovelQuestionAPI_retrieve new_id 1 w' = (w', inr (queries_response JNull JNull JNull)).
Proof.
  intros H Hstatus Hfk.
  destruct (start_ok _ _ _ _ _ _ _ _ _ _ _ H Hstatus) as [t R].
  destruct R as [Hdev Hgenre Himgs Hss Hsb Hps Hpd Hqs Hqb Hpc Has Hq1 Hq2 Hq3 Hnovels
                   Hcontents Himages Hstats Hlikes Hcomments Hsent Hresp].
  set (new_id := fresh_pk (map novel_pk (novels (db w)))) in *.
  assert (forall st, filter (fun c => (content_novel c =? new_id) && (step c =? st))
                            (contents (db w)) = []) as Hold.
  { intros st. apply filter_nothing. intros c Hc. destruct (Hfk c Hc) as (n & Hn & Hpk).
    replace (content_novel c =? new_id) with false; [reflexivity|].
    symmetry. apply Z.eqb_neq. rewrite <- Hpk. apply fresh_pk_not_in. assumption. }
  exists new_id, (run_dialog_history t), (run_response2 t), (run_q1 t), (run_q2 t), (run_q3 t).
  split; [rewrite Hresp; reflexivity|].
  split; [rewrite Hsent; apply in_or_app; right; right; left; reflexivity|].
  do 4 (split; [assumption|]).
  match type of Hcontents with
  | _ = _ ++ [?a; ?b] => set (c1 := a) in *; set (c2 := b) in *
  end.
  split.
  - rewrite (question_run new_id 2 w' c2); [reflexivity|].
    rewrite Hcontents, filter_app, Hold. subst c1 c2.
    cbn [filter app start_content set_content content_novel step]. fold new_id.
    rewrite Z.eqb_refl. reflexivity.
  - rewrite (question_run new_id 1 w' c1); [reflexivity|].
    rewrite Hcontents, filter_app, Hold. subst c1 c2.
    cbn [filter app start_content set_content content_novel step]. fold new_id.
    rewrite Z.eqb_refl. reflexivity.
Qed.

Lemma start_then_question_witness :
  NovelQuestionAPI_retrieve 1 2 bay_world
  = (bay_world, inr (queries_response (JStr "Who lit the lamp?")
                                      (JStr "Where is the boat going?")
                                      (JStr "What hides in the fog?")))
  /\ exists (new_id : Z) (q1 q2 q3 : json),
       NovelQuestionAPI_retrieve new_id 2 bay_world
       = (bay_world, inr (queries_response q1 q2 q3)).
Proof.
  split; [vm_compute; reflexivity|].
  destruct (start_then_question false false Json.dumps Json.loads ai_server media_url
              genre_field bay_request empty_world bay_world bay_response)
    as (new_id & dh & response2 & q1 & q2 & q3 & H).
  - vm_compute. reflexivity.
  - reflexivity.
  - intros c [].
  - exists new_id, q1, q2, q3. apply H.
Defined.

(** X12. After a Continue request on step k answered 200, on a store
    where the novel had no step k+1, the question view for step k+1 of
    the novel returns the three queries of the answer of the question
    call that Continue sent, and changes nothing. *)
Theorem continue_then_question
    (DEV : bool) (dumps dumps_utf8 : json -> string) (loads : string -> option json)
    (post : AIRequest -> HttpResponse) (storage_url : string -> string)
    (request : ContinueRequest) (w w' : World) (response : Response) :
  NovelContinueAPI_post DEV dumps dumps_utf8 loads post storage_url request w
  = (w', inr response) ->
  resp_status response = HTTP_200_OK ->
  filter (fun c => (content_novel c =? continue_novel_id request)
                   && (step c =? continue_step request + 1)) (contents (db w)) = [] ->
  exists (dh response2 q1 q2 q3 : json),
    In (question_request dumps dh) (sent w')
    /\ loads (body (post (question_request dumps dh))) = Some response2
    /\ Py.get response2 "query1" = inr q1
    /\ Py.get response2 "query2" = inr q2
    /\ Py.get response2 "query3" = inr q3
    /\ NovelQuestionAPI_retrieve (continue_novel_id request) (continue_step request + 1) w'
       = (w', inr (queries_response q1 q2 q3)).
Proof.
  intros H Hstatus Hnone. apply continue_run in H.
  inversion H as [| | | |novel novel_content d dh w0 r0 Ht Hdev Hd Hdh Hup]; subst.
  inversion Hup as [| | | | | |rj cap story dh' response2 q1 q2 q3 Hc Hrj Hparse Hqc Hq Hqs];
    subst; try discriminate.
  destruct (continue_target_row _ _ _ _ Ht) as (Hn & Hid & Hrow & Hnovel & Hstep).
  destruct (continue_done_tables dumps request w novel novel_content cap story response2
              q1 q2 q3 Ht) as (Hcontents & _).
  unfold parse_queries in Hqs.
  destruct (Py.get response2 "query1") as [e1|q1'] eqn:G1;
    destruct (Py.get response2 "query2") as [e2|q2'] eqn:G2;
    destruct (Py.get response2 "query3") as [e3|q3'] eqn:G3; try discriminate.
  inversion Hqs; subst q1' q2' q3'.
  exists dh', response2, q1, q2, q3.
  split; [cbn [sent]; apply in_or_app; right; left; reflexivity|].
  split; [assumption|]. do 3 (split; [assumption|]).
  rewrite (question_run _ _ _
             (mkNovelContent
                (fresh_pk (map content_pk
                   (map (fun c => if content_pk c =? content_pk novel_content
                                  then set_chosen_query (set_content novel_content story)
                                         (JStr (continue_query request))
                                  else c) (contents (db w)))))
                (novel_pk novel) (continue_step request + 1) JNull JNull q1 q2 q3));
    [reflexivity|].
  cbn [db]. cbv zeta in Hcontents. rewrite Hcontents, filter_app.
  cbn [filter content_novel step]. rewrite Hid, !Z.eqb_refl. cbn [andb].
  rewrite filter_nothing; [reflexivity|].
  intros c Hc'. apply in_map_iff in Hc'. destruct Hc' as (c0 & <- & Hc0).
  destruct (content_pk c0 =? content_pk novel_content).
  - cbn [set_chosen_query set_content content_novel step]. rewrite Hstep.
    replace (continue_step request =? continue_step request + 1) with false
      by (symmetry; apply Z.eqb_neq; lia).
    apply andb_false_r.
  - apply (filter_false _ _ c0 Hnone Hc0).
Qed.

Lemma continue_then_question_witness :
  NovelQuestionAPI_retrieve 1 3 gull_world
  = (gull_world, inr (queries_response (JStr "Who lit the lamp?")
                                       (JStr "Where is the boat going?")
                                       (JStr "What hides in the fog?")))
  /\ exists (q1 q2 q3 : json),
       NovelQuestionAPI_retrieve 1 3 gull_world
       = (gull_world, inr (queries_response q1 q2 q3)).
Proof.
  split; [vm_compute; reflexivity|].
  destruct (continue_then_question false Json.dumps Json.dumps Json.loads ai_server media_url
              gull_request bay_world gull_world
              (continue_response media_url gull_request
                 (mkNovel 1 7 EmptyString 2 DRAFT EmptyString None None)
                 (mkNovelContent 2 1 2 JNull JNull JNull JNull JNull)
                 (JStr "a gull") (JStr "The keeper woke to the cry of a gull.")))
    as (dh & response2 & q1 & q2 & q3 & H).
  - vm_compute. reflexivity.
  - reflexivity.
  - vm_compute. reflexivity.
  - exists q1, q2, q3. apply H.
Defined.

(** ** End: what a request that fails has written *)

(** X13. An End request that raises has changed no step, image,
    counter, like or comment; the one write it can have made is the
    prompt of its novel, saved again as the serialization of what the
    prompt read as: that is so with DEV set, and when the end call is
    answered 200 with JSON that is not an object. *)
Theorem end_failure_writes
    (DEV : bool) (dumps : json -> string) (loads : string -> option json)
    (post : AIRequest -> HttpResponse) (request : EndRequest) (w w' : World) (e : exn) :
  NovelEndAPI_post DEV dumps loads post request w = (w', inl e) ->
  contents (db w') = contents (db w) /\ images (db w') = images (db w)
  /\ stats (db w') = stats (db w) /\ likes (db w') = likes (db w)
  /\ comments (db w') = comments (db w)
  /\ (novels (db w') = novels (db w)
      \/ exists novel d,
           find (fun n => novel_pk n =? end_novel_id request) (novels (db w)) = Some novel
           /\ loads (prompt novel) = Some d
           /\ (DEV = true \/ e = AttributeError)
           /\ novels (db w')
              = map (fun n => if novel_pk n =? novel_pk novel
                              then set_prompt novel (dumps d) else n) (novels (db w))).
Proof.
  intros H. apply end_run in H.
  assert (forall novel novel_content d,
             end_target request w novel novel_content ->
             novels (end_prompt_saved dumps w novel d)
             = map (fun n => if novel_pk n =? novel_pk novel
                             then set_prompt novel (dumps d) else n) (novels (db w)))
    as Hsaved.
  { intros novel novel_content d Ht.
    destruct (end_target_row _ _ _ _ Ht) as (Hn & _).
    unfold end_prompt_saved. simpl.
    apply (save_row_old novel_pk (set_prompt novel (dumps d)) novel);
      [assumption|reflexivity]. }
  inversion H as [| | | | |novel novel_content d dh Ht Hd Hdh Hdev| |
                  |novel novel_content d dh rj e0 Ht Hd Hdh Hdev Hrj Hcode Ha|]; subst;
    try (repeat split; try reflexivity; left; reflexivity).
  - repeat split; try reflexivity. right. exists novel, d.
    split; [exact (proj1 Ht)|]. split; [assumption|]. split; [left; reflexivity|].
    cbn [db]. eapply Hsaved; eassumption.
  - repeat split; try reflexivity. right. exists novel, d.
    split; [exact (proj1 Ht)|]. split; [assumption|]. split.
    + right. destruct rj; simpl in Ha; congruence.
    + cbn [db]. eapply Hsaved; eassumption.
Qed.

Lemma end_failure_writes_witness :
  contents (db (fst calm_end_down)) = contents (db gull_world)
  /\ images (db (fst calm_end_down)) = images (db gull_world)
  /\ stats (db (fst calm_end_down)) = stats (db gull_world)
  /\ likes (db (fst calm_end_down)) = likes (db gull_world)
  /\ comments (db (fst calm_end_down)) = comments (db gull_world)
  /\ (novels (db (fst calm_end_down)) = novels (db gull_world)
      \/ exists novel d,
           find (fun n => novel_pk n =? end_novel_id calm_request) (novels (db gull_world))
           = Some novel
           /\ Json.loads (prompt novel) = Some d
           /\ (false = true \/ JSONDecodeError = AttributeError)
           /\ novels (db (fst calm_end_down))
              = map (fun n => if novel_pk n =? novel_pk novel
                              then set_prompt novel (Json.dumps d) else n)
                    (novels (db gull_world))).
Proof.
  apply (end_failure_writes false Json.dumps Json.loads (ai_server_failing end_url)
           calm_request gull_world (fst calm_end_down) JSONDecodeError).
  vm_compute. reflexivity.
Defined.

(** ** The cover image *)

Definition cover_request (request : CoverImageRequest) : AIRequest :=
  mkAIRequest image_url [("image", cover_image request)] [].

(** X14. A cover request for a novel of the store sends one request
    to the image endpoint, with the image of the request.  An answer
    other than 200 raises RequestAIServerError and writes nothing; on a
    200 the rows of that novel get, for the two cover fields, the names
    the storage gives for the file name made of the id of the novel and
    for original.png, every other field and row stays as it was, the
    three saves of the view amount to one, and the answer carries the
    serializer's data of the novel as saved. *)
Theorem cover_run (post : AIRequest -> HttpResponse) (cover_file_name : Z -> string)
    (request : CoverImageRequest) (w : World) (novel : Novel) :
  find (fun n => novel_pk n =? cover_novel_id request) (novels (db w)) = Some novel ->
  let covered :=
    mkNovel (novel_pk novel) (author novel) (title novel) (genre novel) (status novel)
            (prompt novel)
            (Some (cover_img_stored request (cover_file_name (novel_pk novel))))
            (Some (original_cover_img_stored request "original.png")) in
  NovelCoverImageAPI_post post cover_file_name request w
  = if status_code (post (cover_request request)) =? 200
    then (mkWorld (with_novels (map (fun n => if novel_pk n =? novel_pk novel
                                              then covered else n)) (db w))
                  (sent w ++ [cover_request request]),
          inr (mkResponse HTTP_200_OK (cover_serializer_data request covered)))
    else (mkWorld (db w) (sent w ++ [cover_request request]), inl RequestAIServerError).
Proof.
  intros Hfind covered. unfold NovelCoverImageAPI_post.
  rewrite bind_gets, Hfind. fold (cover_request request). rewrite bind_requests_post.
  destruct (status_code (post (cover_request request)) =? 200); cbn [negb]; [|reflexivity].
  cbv zeta. unfold Novel_save. rewrite !bind_modify. cbn [db sent]. unfold ret.
  set (first := set_cover_img novel
                  (cover_img_stored request (cover_file_name (novel_pk novel)))).
  change (set_original_cover_img first (original_cover_img_stored request "original.png"))
    with covered.
  f_equal. f_equal.
  apply find_some in Hfind as Hin. destruct Hin as [Hin _].
  unfold with_novels. cbn [novels contents images stats likes comments]. f_equal.
  assert (forall (x : Novel) (l : list Novel),
             novel_pk x = novel_pk novel -> In novel l ->
             save_row novel_pk covered
               (map (fun n => if novel_pk n =? novel_pk novel then x else n) l)
             = map (fun n => if novel_pk n =? novel_pk novel then covered else n) l) as Hsave.
  { intros x l Hx Hl.
    rewrite (save_row_old novel_pk covered x).
    - rewrite map_map. apply map_ext. intros n. cbn [covered novel_pk].
      destruct (novel_pk n =? novel_pk novel) eqn:E; [|rewrite E; reflexivity].
      rewrite Hx, Z.eqb_refl. reflexivity.
    - apply in_map_iff. exists novel. rewrite Z.eqb_refl. auto.
    - exact Hx. }
  rewrite (save_row_old novel_pk first novel (novels (db w)) Hin eq_refl).
  change (novel_pk first) with (novel_pk novel).
  rewrite (Hsave first _ eq_refl Hin). apply (Hsave covered _ eq_refl Hin).
Qed.

(** A cover request for novel 2, with a storage that keeps the files
    under a directory by field. *)
Definition beach_request : CoverImageRequest :=
  mkCoverImageRequest 2 "beach.png"
    (String.append "cover/") (String.append "original/")
    (fun n => JObj [("cover_img",
                     match cover_img n with Some f => JStr (media_url f) | None => JNull end);
                    ("original_cover_img",
                     match original_cover_img n with
                     | Some f => JStr (media_url f)
                     | None => JNull
                     end)]).

Lemma cover_run_witness :
  map cover_img (novels (db (fst (NovelCoverImageAPI_post ai_server novel_cover_name
                                    beach_request shelf_world))))
  = [None; Some "cover/novel_cover_2.png"]
  /\ NovelCoverImageAPI_post (ai_server_failing image_url) novel_cover_name
       beach_request shelf_world
     = (mkWorld (db shelf_world) [cover_request beach_request], inl RequestAIServerError).
Proof.
  split.
  - rewrite (cover_run ai_server novel_cover_name beach_request
               shelf_world (mkNovel 2 7 "A night train" 1 FINISHED "{}" None None) eq_refl).
    vm_compute. reflexivity.
  - rewrite (cover_run (ai_server_failing image_url) novel_cover_name
               beach_request shelf_world
               (mkNovel 2 7 "A night train" 1 FINISHED "{}" None None) eq_refl).
    reflexivity.
Defined.

(** ** The list of comments *)

(** X15. The list of the comments of a novel changes nothing; it
    raises DoesNotExist when the store has no such novel, and otherwise
    holds exactly the comments of that novel, newest (largest id)
    first. *)
Theorem comment_list (novel_id : Z) (w : World) :
  fst (NovelCommentAPI_get_queryset novel_id w) = w
  /\ match snd (NovelCommentAPI_get_queryset novel_id w) with
     | inl e =>
         e = DoesNotExist
         /\ find (fun n => novel_pk n =? novel_id) (novels (db w)) = None
     | inr l =>
         exists novel,
           find (fun n => novel_pk n =? novel_id) (novels (db w)) = Some novel
           /\ Permutation (filter (fun c => comment_novel c =? novel_pk novel)
                                  (comments (db w))) l
           /\ StronglySorted (fun a b => comment_pk b <= comment_pk a) l
     end.
Proof.
  unfold NovelCommentAPI_get_queryset, Novel_objects_get. rewrite bind_bind, bind_gets.
  destruct (find (fun n => novel_pk n =? novel_id) (novels (db w))) as [novel|] eqn:Hn.
  - rewrite bind_ret. cbn [gets fst snd]. split; [reflexivity|].
    exists novel. split; [reflexivity|]. split; [apply order_by_perm|].
    apply sorted_weaken with (le := fun a b => - comment_pk a <= - comment_pk b);
      [intros a b; lia|].
    apply order_by_sorted.
  - rewrite bind_raise. cbn [fst snd]. auto.
Qed.

Lemma order_by_newest {R : Type} (key : R -> Z) (l : list R) (x : R) :
  (forall y, In y l -> key x < key y) ->
  order_by key (l ++ [x]) = x :: order_by key l.
Proof.
  unfold order_by. induction l as [|y l IH]; intros H; [reflexivity|].
  cbn [app fold_right]. rewrite IH by (intros z Hz; apply H; right; assumption).
  cbn [insert_by].
  replace (key y <=? key x) with false; [reflexivity|].
  symmetry. apply Z.leb_gt. apply H. left. reflexivity.
Qed.

(** X16. A comment that a signed-in user has just posted (request
    accepted, novel and stats row there) is the first of the list of
    the comments of its novel, under a key above those of the table,
    followed by the list as it was before. *)
Theorem comment_posted_is_first (request : CommentRequest) (w : World) (novel : Novel) :
  comment_is_valid request = true ->
  is_anonymous (comment_request_user request) = false ->
  find (fun n => novel_pk n =? comment_novel_id request) (novels (db w)) = Some novel ->
  (exists r, In r (stats (db w)) /\ stats_novel r = novel_pk novel) ->
  exists (before : list NovelComment) (pk : Z),
    snd (NovelCommentAPI_get_queryset (comment_novel_id request) w) = inr before
    /\ (forall c, In c (comments (db w)) -> comment_pk c < pk)
    /\ snd (NovelCommentAPI_get_queryset (comment_novel_id request)
              (fst (NovelCommentAPI_create request w)))
       = inr (mkNovelComment pk (novel_pk novel) (user_pk (comment_request_user request))
                             (comment_content request)
              :: before).
Proof.
  intros Hvalid Hanon Hnovel Hstats.
  assert (fst (NovelCommentAPI_create request w)
          = mkWorld (with_comments
                       (fun t => t ++ [mkNovelComment (fresh_pk (map comment_pk t))
                                         (novel_pk novel)
                                         (user_pk (comment_request_user request))
                                         (comment_content request)])
                       (with_stats (map (add_comments (novel_pk novel) 1)) (db w)))
                    (sent w)) as ->.
  { unfold NovelCommentAPI_create, NovelCommentAPI_perform_create, Novel_objects_get, F_add.
    rewrite Hanon, Hvalid. cbn [negb]. rewrite !bind_bind, bind_gets, Hnovel, bind_ret.
    rewrite !bind_bind, bind_gets.
    destruct (stats_row_found _ _ Hstats) as (r & ->).
    rewrite bind_modify, bind_bind, bind_gets. cbv beta. rewrite bind_modify. reflexivity. }
  assert (forall c, In c (comments (db w)) ->
                    comment_pk c < fresh_pk (map comment_pk (comments (db w)))) as Habove.
  { intros c Hc. apply fresh_pk_gt. apply in_map. exact Hc. }
  unfold NovelCommentAPI_get_queryset, Novel_objects_get.
  rewrite !bind_bind, !bind_gets. unfold with_comments, with_stats.
  cbn [db novels comments]. rewrite Hnovel, !bind_ret. cbn [gets snd db comments].
  eexists. exists (fresh_pk (map comment_pk (comments (db w)))).
  split; [reflexivity|]. split; [exact Habove|]. f_equal.
  rewrite filter_app. cbn [filter comment_novel]. rewrite Z.eqb_refl.
  apply order_by_newest. intros y Hy. apply filter_In in Hy. destruct Hy as [Hy _].
  cbn [comment_pk]. specialize (Habove y Hy). lia.
Qed.

Lemma comment_posted_is_first_witness :
  exists (before : list NovelComment) (pk : Z),
    snd (NovelCommentAPI_get_queryset 1 like_world) = inr before
    /\ (forall c, In c (comments (db like_world)) -> comment_pk c < pk)
    /\ snd (NovelCommentAPI_get_queryset 1 (fst (NovelCommentAPI_create comment_request
                                                   like_world)))
       = inr (mkNovelComment pk 1 7 "a fine night" :: before).
Proof.
  apply (comment_posted_is_first comment_request like_world
           (mkNovel 1 7 "A night train" 1 FINISHED "{}" None None)).
  - reflexivity.
  - reflexivity.
  - reflexivity.
  - exists (mkNovelStats 1 0 0 0). split; [left; reflexivity|reflexivity].
Defined.

(** ** The file names sent upstream *)

Fixpoint has_slash (s : string) : bool :=
  match s with
  | EmptyString => false
  | String c s' => Ascii.eqb c "/"%char || has_slash s'
  end.

Lemma string_append_empty_r (s : string) : String.append s EmptyString = s.
Proof. induction s as [|c s IH]; simpl; [reflexivity|]. rewrite IH. reflexivity. Qed.

Lemma string_append_assoc (a b c : string) :
  String.append (String.append a b) c = String.append a (String.append b c).
Proof. induction a as [|x a IH]; simpl; [reflexivity|]. rewrite IH. reflexivity. Qed.

Lemma has_slash_append (a b : string) :
  has_slash (String.append a b) = has_slash a || has_slash b.
Proof.
  induction a as [|x a IH]; simpl; [reflexivity|]. rewrite IH. apply orb_assoc.
Qed.

Lemma last_component_tail (s acc : string) :
  has_slash acc = false ->
  has_slash (Py.last_component s acc) = false
  /\ exists prefix,
       String.append acc s = String.append prefix (Py.last_component s acc)
       /\ (prefix = EmptyString \/ exists dir, prefix = String.append dir "/").
Proof.
  revert acc. induction s as [|c s IH]; intros acc Hacc; cbn [Py.last_component].
  - split; [exact Hacc|]. exists EmptyString. rewrite string_append_empty_r. auto.
  - destruct (Ascii.eqb_spec c "/"%char) as [->|Hc].
    + destruct (IH EmptyString eq_refl) as (Hno & prefix & E & Hdir). split; [exact Hno|].
      cbn [String.append] in E.
      exists (String.append acc (String "/" prefix)). split.
      * rewrite string_append_assoc. cbn [String.append]. rewrite <- E. reflexivity.
      * right. destruct Hdir as [->|(dir & ->)].
        -- exists acc. reflexivity.
        -- exists (String.append acc (String "/" dir)). rewrite string_append_assoc. reflexivity.
    + assert (has_slash (String.append acc (String c EmptyString)) = false) as Hacc'.
      { rewrite has_slash_append, Hacc. cbn [has_slash orb].
        destruct (Ascii.eqb_spec c "/"%char); [contradiction|reflexivity]. }
      destruct (IH _ Hacc') as (Hno & prefix & E & Hdir). split; [exact Hno|].
      rewrite string_append_assoc in E. cbn [String.append] in E.
      exists prefix. split; [exact E|exact Hdir].
Qed.

(** The requests that a run of Start sends, whatever its outcome. *)
Lemma start_calls
    (DEV DEMO : bool) (dumps : json -> string) (loads : string -> option json)
    (post : AIRequest -> HttpResponse) (storage_url : string -> string)
    (genre_of_form : string -> option Z) (request : StartRequest) (w w' : World)
    (r : exn + Response) :
  NovelStartAPI_post DEV DEMO dumps loads post storage_url genre_of_form request w = (w', r) ->
  sent w' = sent w
  \/ sent w' = sent w ++ [start_request request (start_images_rows request w)]
  \/ exists dh,
       sent w' = sent w ++ [start_request request (start_images_rows request w);
                            question_request dumps dh].
Proof.
  unfold NovelStartAPI_post. intros H.
  destruct (DEMO && negb (String.eqb (nickname (start_user request)) "DEMO용")).
  { inversion H; subst. left. reflexivity. }
  destruct (NovelStartSerializer_save genre_of_form request w)
    as [w1 [e|[[novel novel_content] imgs]]] eqn:Es.
  { rewrite (bind_fail _ _ _ _ _ Es) in H. inversion H; subst.
    apply start_save_fails in Es. subst. left. reflexivity. }
  rewrite (bind_run _ _ _ _ _ Es) in H. apply start_save_ok in Es.
  destruct Es as (g & Hg & Hfiles & -> & -> & -> & ->).
  destruct DEV.
  { inversion H; subst. left. reflexivity. }
  rewrite bind_requests_post in H.
  set (start := start_request request (start_images_rows request w)) in *.
  assert (forall w0 (r0 : exn + Response),
             (w0, r0) = (w', r) -> sent w0 = sent w ++ [start] ->
             sent w' = sent w \/ sent w' = sent w ++ [start]
             \/ exists dh, sent w' = sent w ++ [start; question_request dumps dh]) as Hone.
  { intros w0 r0 E Hsent. inversion E; subst. right. left. exact Hsent. }
  destruct (Z.eqb_spec (status_code (post start)) 200) as [Hcode|Hcode]; simpl in H;
    [|eapply Hone; eauto].
  rewrite bind_response_json in H.
  destruct (loads (body (post start))) as [rj|]; [|eapply Hone; eauto].
  destruct (Py.pop rj "korean_answer") as [e|[story rj1]];
    [rewrite bind_lift_inl in H; eapply Hone; eauto|rewrite bind_lift_inr in H].
  destruct (Py.pop rj1 "dialog_history") as [e|[dh rj2]];
    [rewrite bind_lift_inl in H; eapply Hone; eauto|rewrite bind_lift_inr in H].
  rewrite bind_retrieve_question in H. cbv zeta in H. cbn [db sent] in H.
  assert (forall w0 (r0 : exn + Response),
             (w0, r0) = (w', r) ->
             sent w0 = (sent w ++ [start]) ++ [question_request dumps dh] ->
             sent w' = sent w \/ sent w' = sent w ++ [start]
             \/ exists dh, sent w' = sent w ++ [start; question_request dumps dh]) as Htwo.
  { intros w0 r0 E Hsent. inversion E; subst. right. right. exists dh.
    rewrite Hsent, <- app_assoc. reflexivity. }
  destruct (status_code (post (question_request dumps dh)) =? 200);
    [|eapply Htwo; eauto].
  destruct (loads (body (post (question_request dumps dh)))) as [response2|];
    [|eapply Htwo; eauto].
  destruct (Py.pop rj2 "caption") as [e|[cap rj3]];
    [rewrite bind_lift_inl in H; eapply Htwo; eauto|rewrite bind_lift_inr in H].
  destruct (assign_captions cap 0 (start_images_rows request w)) as [e|imgs];
    [rewrite bind_lift_inl in H; eapply Htwo; eauto|rewrite bind_lift_inr in H].
  unfold NovelContentImage_objects_bulk_update, NovelContent_save, Novel_save,
    get_next_novel_content, NovelContent_objects_create in H.
  rewrite !bind_modify, bind_bind, bind_gets, bind_bind, bind_modify, bind_ret in H.
  rewrite bind_with_query in H.
  destruct (parse_queries response2) as [e|[[q1 q2] q3]]; [eapply Htwo; eauto|].
  rewrite !bind_modify in H. unfold ret in H. eapply Htwo; eauto.
Qed.

(** [sent_name] is [name] without its directories. *)
Definition base_name_of (name sent_name : string) : Prop :=
  has_slash sent_name = false
  /\ exists prefix, name = String.append prefix sent_name
                    /\ (prefix = EmptyString \/ exists dir, prefix = String.append dir "/").

Lemma last_component_base (name : string) :
  base_name_of name (Py.last_component name EmptyString).
Proof. apply (last_component_tail name EmptyString eq_refl). Qed.

(** X17. In every run of Start and of Continue, whatever its outcome,
    each file of each request sent upstream goes under a name without a
    directory: the part after its last slash of the name of an image of
    the request (the whole name when it has no slash).  A Start that is
    answered 200 has sent, to the start endpoint, one such file for
    each image of the request, in their order; a Continue that is
    answered, 200 or 408, has sent its one image so to the sequence
    endpoint. *)
Theorem upstream_file_names
    (DEV DEMO : bool) (dumps dumps_utf8 : json -> string) (loads : string -> option json)
    (post : AIRequest -> HttpResponse) (storage_url : string -> string)
    (genre_of_form : string -> option Z) :
  (forall request w w' r,
      NovelStartAPI_post DEV DEMO dumps loads post storage_url genre_of_form request w
      = (w', r) ->
      exists calls,
        sent w' = sent w ++ calls
        /\ (forall x f, In x calls -> In f (req_files x) ->
                        exists name, In name (start_images request)
                                     /\ base_name_of name (snd f))
        /\ (forall response, r = inr response -> resp_status response = HTTP_200_OK ->
                             exists x, In x calls /\ req_url x = start_url
                                       /\ Forall2 base_name_of (start_images request)
                                                  (map snd (req_files x))))
  /\ (forall request w w' r,
         NovelContinueAPI_post DEV dumps dumps_utf8 loads post storage_url request w
         = (w', r) ->
         exists calls,
           sent w' = sent w ++ calls
           /\ (forall x f, In x calls -> In f (req_files x) ->
                           base_name_of (continue_image request) (snd f))
           /\ (forall response, r = inr response ->
                                exists x sent_name,
                                  In x calls /\ req_url x = sequence_url
                                  /\ req_files x = [("image", sent_name)]
                                  /\ base_name_of (continue_image request) sent_name)).
Proof.
  split.
  - intros request w w' r H.
    assert (forall f, In f (req_files (start_request request (start_images_rows request w))) ->
                      exists name, In name (start_images request)
                                   /\ base_name_of name (snd f)) as Hfiles.
    { intros f Hf. unfold start_request in Hf. cbn [req_files] in Hf.
      apply in_map_iff in Hf. destruct Hf as (img & <- & Himg). exists (image img).
      split; [|apply last_component_base].
      unfold start_images_rows in Himg.
      rewrite <- (new_images_files (content_pk (start_content w)) (start_images request)
                    (images (db w))).
      apply in_map. exact Himg. }
    assert (Forall2 base_name_of (start_images request)
              (map snd (req_files (start_request request (start_images_rows request w)))))
      as Hall.
    { unfold start_request, start_images_rows. cbn [req_files]. rewrite map_map. cbn [snd].
      rewrite <- (new_images_files (content_pk (start_content w)) (start_images request)
                    (images (db w))) at 1.
      induction (new_images (content_pk (start_content w)) (start_images request)
                   (images (db w))) as [|img imgs IH]; cbn [map]; constructor;
        [apply last_component_base|exact IH]. }
    destruct (start_calls _ _ _ _ _ _ _ _ _ _ _ H) as [E|[E|(dh & E)]].
    + exists []. rewrite app_nil_r. split; [exact E|]. split; [intros x f []|].
      intros response -> Hstatus.
      destruct (start_ok _ _ _ _ _ _ _ _ _ _ _ H Hstatus) as [t R].
      pose proof (run_sent _ _ _ _ _ _ _ _ _ _ _ R) as Hsent. rewrite E in Hsent.
      rewrite <- (app_nil_r (sent w)) in Hsent at 1. apply app_inv_head in Hsent.
      discriminate.
    + eexists. split; [exact E|]. split.
      * intros x f [<-|[]] Hf. apply Hfiles. exact Hf.
      * intros response _ _. eexists. split; [left; reflexivity|]. split; [reflexivity|].
        exact Hall.
    + eexists. split; [exact E|]. split.
      * intros x f [<-|[<-|[]]] Hf; [apply Hfiles; exact Hf|destruct Hf].
      * intros response _ _. eexists. split; [left; reflexivity|]. split; [reflexivity|].
        exact Hall.
  - intros request w w' r H. apply continue_run in H.
    inversion H as [| | | |novel novel_content d dh w0 r0 Ht Hdev Hd Hdh Hup]; subst;
      try (exists []; rewrite app_nil_r; split; [reflexivity|];
           split; [intros x f []|intros response E; discriminate E]).
    assert (forall x f,
               In x [sequence_request dumps dumps_utf8
                       (continue_image_row request w novel_content)
                       (JStr (continue_query request)) dh] \/ req_files x = [] ->
               In f (req_files x) ->
               base_name_of (continue_image request) (snd f)) as Hfiles.
    { intros x f [[<-|[]]|E] Hf; [|rewrite E in Hf; destruct Hf].
      destruct Hf as [<-|[]]. apply last_component_base. }
    inversion Hup; subst; cbn [sent];
      (eexists; split; [try rewrite <- app_assoc; reflexivity|]); split;
      try (intros x f Hx Hf; cbn [app In] in Hx;
           destruct Hx as [<-|Hx];
           [apply (Hfiles _ f (or_introl (or_introl eq_refl)) Hf)
           |try (destruct Hx as [<-|[]]; destruct Hf); try destruct Hx]);
      intros response E; try discriminate E;
      eexists; eexists; (split; [left; reflexivity|]); (split; [reflexivity|]);
      (split; [reflexivity|]); apply last_component_base.
Qed.
